(** * ai-chatbot-backend: the completion client, the repository and the
      request handlers, embedded and verified.

    Layout: Python text and dynamic values, the JSON decoder, the
    exception monad, the store, the services
    ([app/services/openrouter_service.py], [app/services/user_service.py]),
    the routes ([app/routes/auth.py], [app/routes/chat.py]), then the
    theorems. *)

From Stdlib Require Import String Ascii.
From Stdlib Require Import List ZArith NArith Lia Bool.
From Stdlib Require Import Permutation Sorted.
Import ListNotations.

Set Implicit Arguments.
Set Warnings "-register-all".

(* ================================================================== *)
(** ** Python text *)
(* ================================================================== *)

Module PyStr.

(** A Python [str] is a sequence of Unicode code points; [len] counts
    code points, slices cut between them. *)
Definition str := list N.

(** A literal of the source, all of which are ASCII. *)
Definition lit (s : string) : str :=
  map N_of_ascii (list_ascii_of_string s).

Fixpoint eqb (a b : str) : bool :=
  match a, b with
  | [], [] => true
  | x :: a', y :: b' => N.eqb x y && eqb a' b'
  | _, _ => false
  end.

(** [s.startswith(prefix)] *)
Fixpoint startswith (s prefix : str) : bool :=
  match prefix, s with
  | [], _ => true
  | p :: prefix', c :: s' => N.eqb p c && startswith s' prefix'
  | _ :: _, [] => false
  end.

(** [needle in hay] for two strings: substring test. *)
Fixpoint contains (hay needle : str) : bool :=
  startswith hay needle ||
  match hay with
  | [] => false
  | _ :: hay' => contains hay' needle
  end.

(** [str.isspace] on one code point: the Unicode white space table of
    CPython, which is what [str.strip()] without argument removes. *)
Definition isspace (c : N) : bool :=
  ((9 <=? c) && (c <=? 13) || (28 <=? c) && (c <=? 32)
   || (c =? 133) || (c =? 160) || (c =? 5760)
   || (8192 <=? c) && (c <=? 8202)
   || (c =? 8232) || (c =? 8233) || (c =? 8239) || (c =? 8287)
   || (c =? 12288))%N.

Fixpoint lstrip_by (p : N -> bool) (s : str) : str :=
  match s with
  | [] => []
  | c :: s' => if p c then lstrip_by p s' else s
  end.

Definition rstrip_by (p : N -> bool) (s : str) : str :=
  rev (lstrip_by p (rev s)).

Definition strip_by (p : N -> bool) (s : str) : str :=
  rstrip_by p (lstrip_by p s).

(** [s.strip()] *)
Definition strip (s : str) : str := strip_by isspace s.

(** [s.strip(chars)]: every leading and trailing code point that occurs
    in [chars] is removed. *)
Definition strip_chars (chars s : str) : str :=
  strip_by (fun c => existsb (N.eqb c) chars) s.

(** The two quote characters. *)
Definition double_quote : N := 34.
Definition single_quote : N := 39.

(** [s[n:]] and [s[:n]] for a non-negative [n]. *)
Definition slice_from (n : nat) (s : str) : str := skipn n s.
Definition slice_to (n : nat) (s : str) : str := firstn n s.

End PyStr.

Import PyStr.

Open Scope string_scope.
Open Scope list_scope.

(** The double quote cannot be written inside a literal here; test inputs
    write it as a backquote and [dq] puts the real code point back. *)
Definition dq (s : string) : str :=
  map (fun c => if N.eqb c 96 then 34%N else c) (lit s).

(* ================================================================== *)
(** ** Exceptions *)
(* ================================================================== *)

(** The exceptions that occur in the modelled code, all of them
    subclasses of [Exception].  [TimeoutException] stands for
    [httpx.TimeoutException] and its subclasses, [RequestError] for every
    other [httpx.RequestError] (the transport errors), [HTTPStatusError]
    for what [raise_for_status] raises, [HTTPException] for FastAPI's.
    [JSONDecodeError] is a subclass of [ValueError] in Python; here
    [ValueError] stands for the ones that are not a [JSONDecodeError], so
    that [except json.JSONDecodeError] is a match on the one
    constructor. *)
Inductive exn : Type :=
| TimeoutException
| RequestError (what : str)
| HTTPStatusError (status : Z)
| JSONDecodeError
| RecursionError
| ValueError
| TypeError
| KeyError
| IndexError
| AttributeError
| HTTPException (status_code : Z) (detail : str)
| OtherException (what : str).

(** [isinstance(e, httpx.TimeoutException)] *)
Definition is_timeout (e : exn) : bool :=
  match e with TimeoutException => true | _ => false end.

(** [isinstance(e, httpx.RequestError)]: the time-outs are transport
    errors too, the status error is not. *)
Definition is_request_error (e : exn) : bool :=
  match e with TimeoutException | RequestError _ => true | _ => false end.

Definition is_http_exception (e : exn) : bool :=
  match e with HTTPException _ _ => true | _ => false end.

(** The outcome of evaluating Python code: a value or a raised exception. *)
Inductive result (A : Type) : Type :=
| Ok (a : A)
| Raise (e : exn).
Arguments Ok {A} a.
Arguments Raise {A} e.

Definition rbind {A B} (r : result A) (k : A -> result B) : result B :=
  match r with
  | Ok a => k a
  | Raise e => Raise e
  end.

(* ================================================================== *)
(** ** Python values as [json.loads] builds them *)
(* ================================================================== *)

Module Py.

(** [VFloat] keeps the literal the float was read from; the code never
    looks inside a number. Dictionaries keep their keys in insertion
    order, each key once. *)
Inductive value : Type :=
| VNone
| VBool (b : bool)
| VInt (z : Z)
| VFloat (literal : str)
| VStr (s : str)
| VList (l : list value)
| VDict (kv : list (str * value)).

Fixpoint lookup (k : str) (kv : list (str * value)) : option value :=
  match kv with
  | [] => None
  | (k', v) :: kv' => if PyStr.eqb k k' then Some v else lookup k kv'
  end.

(** [v == k] for a string [k]. *)
Definition is_str (k : str) (v : value) : bool :=
  match v with
  | VStr s => PyStr.eqb s k
  | _ => false
  end.

(** [k in v] for a string [k]: key membership for a dict, element
    membership for a list, substring for a string, [TypeError] for the
    values that are not containers. *)
Definition contains (k : str) (v : value) : result bool :=
  match v with
  | VDict kv => Ok (match lookup k kv with Some _ => true | None => false end)
  | VList l => Ok (existsb (is_str k) l)
  | VStr s => Ok (PyStr.contains s k)
  | _ => Raise TypeError
  end.

(** [v[k]] for a string [k]. *)
Definition getitem (v : value) (k : str) : result value :=
  match v with
  | VDict kv => match lookup k kv with Some x => Ok x | None => Raise KeyError end
  | _ => Raise TypeError
  end.

(** [len(v)] *)
Definition len (v : value) : result nat :=
  match v with
  | VDict kv => Ok (length kv)
  | VList l => Ok (length l)
  | VStr s => Ok (length s)
  | _ => Raise TypeError
  end.

(** [v[0]]: the first element of a list, the first character of a
    string; a dict decoded from JSON has no key [0]. *)
Definition getitem0 (v : value) : result value :=
  match v with
  | VList (x :: _) => Ok x
  | VList [] => Raise IndexError
  | VStr (c :: _) => Ok (VStr [c])
  | VStr [] => Raise IndexError
  | VDict _ => Raise KeyError
  | _ => Raise TypeError
  end.

(** [v.get(k, {})] *)
Definition get_or_empty (v : value) (k : str) : result value :=
  match v with
  | VDict kv => Ok (match lookup k kv with Some x => x | None => VDict [] end)
  | _ => Raise AttributeError
  end.

(** [v.strip()] *)
Definition strip (v : value) : result str :=
  match v with
  | VStr s => Ok (PyStr.strip s)
  | _ => Raise AttributeError
  end.

(** [acc += v] for a string [acc]. *)
Definition iadd (acc : str) (v : value) : result str :=
  match v with
  | VStr s => Ok (acc ++ s)
  | _ => Raise TypeError
  end.

End Py.

Import Py.

(* ================================================================== *)
(** ** [json.loads] *)
(* ================================================================== *)

(** The decoder of Python's standard library, for the text of one
    document.  It is the grammar of RFC 8259 with Python's additions
    ([NaN], [Infinity], [-Infinity]); a key given twice keeps its first
    position and its last value.  It has three ways to fail: text that
    is not JSON raises [json.JSONDecodeError]; an array or object nested
    deeper than the interpreter's stack allows raises [RecursionError];
    an integer literal of more digits than
    [sys.get_int_max_str_digits()] raises [ValueError].  The first error
    met from the left is the one raised.  The depth left on the stack
    is not fixed by the sources, so it is the parameter [max_depth].
    The general theorems below take the decoder as a parameter and hold
    for any; the examples run this one. *)
Module Json.

Definition is_ws (c : N) : bool :=
  ((c =? 32) || (c =? 9) || (c =? 10) || (c =? 13))%N.

Definition skip_ws (s : str) : str := lstrip_by is_ws s.

Definition is_digit (c : N) : bool := ((48 <=? c) && (c <=? 57))%N.

Definition hex_val (c : N) : option N :=
  if is_digit c then Some (c - 48)%N
  else if ((97 <=? c) && (c <=? 102))%N then Some (c - 87)%N
  else if ((65 <=? c) && (c <=? 70))%N then Some (c - 55)%N
  else None.

(** Four hexadecimal digits after a [\u]. *)
Definition hex4 (s : str) : option (N * str) :=
  match s with
  | a :: b :: c :: d :: rest =>
      match hex_val a, hex_val b, hex_val c, hex_val d with
      | Some x, Some y, Some z, Some w =>
          Some (((x * 16 + y) * 16 + z) * 16 + w, rest)%N
      | _, _, _, _ => None
      end
  | _ => None
  end.

Definition simple_escape (c : N) : option N :=
  (if (c =? 34) || (c =? 92) || (c =? 47) then Some c
   else if c =? 98 then Some 8 else if c =? 102 then Some 12
   else if c =? 110 then Some 10 else if c =? 114 then Some 13
   else if c =? 116 then Some 9 else None)%N.

(** The body of a string, after its opening quote; a high surrogate
    written as a [\u] escape is joined with the low one that follows. *)
Fixpoint scan_string (n : nat) (s : str) (acc : str) : option (str * str) :=
  match n with
  | O => None
  | S n' =>
      match s with
      | [] => None
      | 34%N :: rest => Some (rev acc, rest)
      | 92%N :: 117%N :: rest =>
          match hex4 rest with
          | None => None
          | Some (u, rest1) =>
              if ((55296 <=? u) && (u <=? 56319))%N then
                match rest1 with
                | 92%N :: 117%N :: rest2 =>
                    match hex4 rest2 with
                    | None => None
                    | Some (u2, rest3) =>
                        if ((56320 <=? u2) && (u2 <=? 57343))%N then
                          scan_string n' rest3
                            ((65536 + ((u - 55296) * 1024 + (u2 - 56320)))%N
                             :: acc)
                        else scan_string n' rest1 (u :: acc)
                    end
                | _ => scan_string n' rest1 (u :: acc)
                end
              else scan_string n' rest1 (u :: acc)
          end
      | 92%N :: e :: rest =>
          match simple_escape e with
          | Some c => scan_string n' rest (c :: acc)
          | None => None
          end
      | 92%N :: [] => None
      | c :: rest =>
          if (c <? 32)%N then None else scan_string n' rest (c :: acc)
      end
  end.

Fixpoint take_digits (s : str) : str * str :=
  match s with
  | c :: rest =>
      if is_digit c then let (d, r) := take_digits rest in (c :: d, r)
      else ([], s)
  | [] => ([], [])
  end.

Definition digits_value (d : str) : Z :=
  fold_left (fun a c => (a * 10 + Z.of_N (c - 48))%Z) d 0%Z.

(** The integer part: [0] or a digit from 1 to 9 followed by digits. *)
Definition int_part (s : str) : option (str * str) :=
  match s with
  | 48%N :: rest => Some ([48%N], rest)
  | c :: rest =>
      if is_digit c then let (d, r) := take_digits rest in Some (c :: d, r)
      else None
  | [] => None
  end.

(** The optional fraction: a point and at least one digit. *)
Definition frac_part (s : str) : str * str :=
  match s with
  | 46%N :: rest =>
      match take_digits rest with
      | ([], _) => ([], s)
      | (d, r) => (46%N :: d, r)
      end
  | _ => ([], s)
  end.

(** The optional exponent: [e] or [E], an optional sign, digits. *)
Definition exp_part (s : str) : str * str :=
  match s with
  | e :: rest =>
      if ((e =? 101) || (e =? 69))%N then
        let (sign, rest1) :=
          match rest with
          | c :: r => if ((c =? 43) || (c =? 45))%N then ([c], r) else ([], rest)
          | [] => ([], rest)
          end in
        match take_digits rest1 with
        | ([], _) => ([], s)
        | (d, r) => (e :: sign ++ d, r)
        end
      else ([], s)
  | [] => ([], s)
  end.

(** [sys.get_int_max_str_digits()], at its default. *)
Definition int_max_str_digits : N := 4300.

(** A number, where one starts at [s]: [None] when none does.  A
    literal with a fraction or an exponent is a float, whatever its
    length; one without is converted by [int], which refuses more than
    [int_max_str_digits] digits. *)
Definition scan_number (s : str) : option (result (value * str)) :=
  let (neg, s1) :=
    match s with
    | 45%N :: r => (true, r)
    | _ => (false, s)
    end in
  match int_part s1 with
  | None => None
  | Some (ip, s2) =>
      let (fp, s3) := frac_part s2 in
      let (ep, s4) := exp_part s3 in
      match fp, ep with
      | [], [] =>
          if (int_max_str_digits <? N.of_nat (length ip))%N
          then Some (Raise ValueError)
          else
            Some (Ok (VInt (if neg then - digits_value ip
                            else digits_value ip)%Z, s4))
      | _, _ =>
          Some (Ok (VFloat ((if neg then [45%N] else []) ++ ip ++ fp ++ ep),
                    s4))
      end
  end.

(** [d[k] = v] on an insertion-ordered dict. *)
Fixpoint dict_set (k : str) (v : value) (kv : list (str * value))
  : list (str * value) :=
  match kv with
  | [] => [(k, v)]
  | (k', v') :: kv' =>
      if PyStr.eqb k k' then (k', v) :: kv' else (k', v') :: dict_set k v kv'
  end.

Section Containers.

(** The value inside a container, one level further in. *)
Variable scan_value : str -> result (value * str).

(** The elements of an array after the first: [, value] repeated, then
    the closing bracket. *)
Fixpoint scan_elems (n : nat) (s : str) (acc : list value)
  : result (value * str) :=
  match n with
  | O => Raise JSONDecodeError
  | S n' =>
      match scan_value s with
      | Raise e => Raise e
      | Ok (v, s1) =>
          match skip_ws s1 with
          | 44%N :: s2 => scan_elems n' (skip_ws s2) (v :: acc)
          | 93%N :: s2 => Ok (VList (rev (v :: acc)), s2)
          | _ => Raise JSONDecodeError
          end
      end
  end.

Fixpoint scan_members (n : nat) (s : str) (acc : list (str * value))
  : result (value * str) :=
  match n with
  | O => Raise JSONDecodeError
  | S n' =>
      match s with
      | 34%N :: s0 =>
          match scan_string (S (length s0)) s0 [] with
          | None => Raise JSONDecodeError
          | Some (k, s1) =>
              match skip_ws s1 with
              | 58%N :: s2 =>
                  match scan_value (skip_ws s2) with
                  | Raise e => Raise e
                  | Ok (v, s3) =>
                      match skip_ws s3 with
                      | 44%N :: s4 =>
                          scan_members n' (skip_ws s4) (dict_set k v acc)
                      | 125%N :: s4 => Ok (VDict (dict_set k v acc), s4)
                      | _ => Raise JSONDecodeError
                      end
                  end
              | _ => Raise JSONDecodeError
              end
          end
      | _ => Raise JSONDecodeError
      end
  end.

End Containers.

Definition keyword (k : string) (v : value) (s : str) : result (value * str) :=
  if startswith s (lit k) then Ok (v, skipn (String.length k) s)
  else Raise JSONDecodeError.

(** One value at the start of [s], with [depth] levels of nesting left:
    the scanner enters a recursive call at every bracket and brace, an
    empty container included. *)
Fixpoint scan_value (depth : nat) (s : str) : result (value * str) :=
  match s with
  | 34%N :: rest =>
      match scan_string (S (length rest)) rest [] with
      | Some (t, r) => Ok (VStr t, r)
      | None => Raise JSONDecodeError
      end
  | 123%N :: rest =>
      match depth with
      | O => Raise RecursionError
      | S depth' =>
          match skip_ws rest with
          | 125%N :: r => Ok (VDict [], r)
          | r => scan_members (scan_value depth') (S (length r)) r []
          end
      end
  | 91%N :: rest =>
      match depth with
      | O => Raise RecursionError
      | S depth' =>
          match skip_ws rest with
          | 93%N :: r => Ok (VList [], r)
          | r => scan_elems (scan_value depth') (S (length r)) r []
          end
      end
  | 110%N :: _ => keyword "null" VNone s
  | 116%N :: _ => keyword "true" (VBool true) s
  | 102%N :: _ => keyword "false" (VBool false) s
  | 78%N :: _ => keyword "NaN" (VFloat (lit "NaN")) s
  | 73%N :: _ => keyword "Infinity" (VFloat (lit "Infinity")) s
  | _ =>
      match scan_number s with
      | Some r => r
      | None => keyword "-Infinity" (VFloat (lit "-Infinity")) s
      end
  end.

(** [json.loads(s)] *)
Definition loads (max_depth : nat) (s : str) : result value :=
  match scan_value max_depth (skip_ws s) with
  | Ok (v, rest) =>
      match skip_ws rest with
      | [] => Ok v
      | _ :: _ => Raise JSONDecodeError
      end
  | Raise e => Raise e
  end.

End Json.

Example loads_delta :
  Json.loads 4 (dq "{`choices`: [{`delta`: {`content`: `Hel`}, `index`: 0}]}")
  = Ok (VDict [(lit "choices",
                VList [VDict [(lit "delta", VDict [(lit "content", VStr (lit "Hel"))]);
                              (lit "index", VInt 0)]])]).
Proof. vm_compute. reflexivity. Qed.

Example loads_garbage : Json.loads 3 (lit "{not json") = Raise JSONDecodeError.
Proof. reflexivity. Qed.

Example loads_misc :
  Json.loads 3 (dq " [1, -2.5e3, true, null, `a\u00e9\n`, {`k`:1,`k`:2}] ")
  = Ok (VList [VInt 1; VFloat (lit "-2.5e3"); VBool true; VNone;
               VStr [97; 233; 10]%N; VDict [(lit "k", VInt 2)]]).
Proof. vm_compute. reflexivity. Qed.

(** The same event with one level of nesting fewer on the stack: the
    decoder gives up on the innermost brace, and not with a
    [JSONDecodeError]. *)
Example loads_too_deep :
  Json.loads 3 (dq "{`choices`: [{`delta`: {`content`: `Hel`}, `index`: 0}]}")
  = Raise RecursionError.
Proof. vm_compute. reflexivity. Qed.

(** An integer of 4301 digits is refused, one of 4300 is not, and the
    limit does not apply to a float. *)
Example loads_long_integer :
  Json.loads 3 (repeat 49%N 4301) = Raise ValueError
  /\ (exists n, Json.loads 3 (repeat 49%N 4300) = Ok (VInt n))
  /\ (exists f, Json.loads 3 (repeat 49%N 4301 ++ lit ".5") = Ok (VFloat f)).
Proof.
  split; [vm_compute; reflexivity|].
  split; eexists; vm_compute; reflexivity.
Qed.

(* ================================================================== *)
(** ** The store, the provider and the world *)
(* ================================================================== *)

(** Modelled from the spec: the ORM models ([app/models/user.py]) are
    missing from the sources; the rows carry the attributes the data
    model lists, and the store fills in the generated id and the creation
    timestamp when a row is inserted. Timestamps are instants on the
    store's clock. *)
Record User : Type := {
  user_id : Z;
  email : str;
  name : str;
  hashed_password : str;
  is_active : bool;
  user_created_at : Z
}.

Record ChatSession : Type := {
  session_id : Z;
  session_user_id : Z;
  title : str;
  session_created_at : Z;
  updated_at : Z
}.

Record ChatMessage : Type := {
  message_id : Z;
  message_session_id : Z;
  content : str;
  sender_type : str;
  created_at : Z
}.

(** The tables, each in insertion order. *)
Record database : Type := {
  users : list User;
  sessions : list ChatSession;
  messages : list ChatMessage
}.

(** One message of a completion request: a dict with the keys [role] and
    [content]. *)
Record api_message : Type := {
  role : str;
  api_content : str
}.

(** The JSON body of a completion request. The temperature is kept as
    the decimal literal of the source. *)
Record payload : Type := {
  p_model : str;
  p_messages : list api_message;
  p_max_tokens : Z;
  p_temperature : str;
  p_stream : bool
}.

(** A header value: a string, or the one-element set the constructor
    builds for [HTTP-Referer]. *)
Inductive header_value : Type :=
| HStr (s : str)
| HSet (l : list str).

Record request : Type := {
  url : str;
  headers : list (str * header_value);
  json : payload
}.

(** What [client.post] hands back: the status, whether
    [raise_for_status] raises on it, and the body. *)
Record Response : Type := {
  status_code : Z;
  is_error : bool;
  text : str
}.

(** What [client.stream] hands back: the lines [aiter_lines] yields, and
    the exception it raises after them when the connection breaks. *)
Record StreamResponse : Type := {
  stream_status_code : Z;
  stream_is_error : bool;
  lines : list str;
  broken : option exn
}.

(** Everything the code reads from outside: the provider's answer to a
    request (which may depend on the requests sent before), the readings
    of the store's clock in the order they are taken, and the library
    functions that are not part of the sources.  [json_loads] is
    [json.loads]: it returns the decoded value or raises, and nothing is
    assumed about what it raises on which text. *)
Record environment : Type := {
  post : list request -> request -> result Response;
  stream : list request -> request -> result StreamResponse;
  now : nat -> Z;
  json_loads : str -> result value;
  verify_token : str -> option str;
  get_password_hash : str -> str
}.

(** The state the code changes: the store, the requests sent to the
    provider so far (latest first), the number of clock readings taken. *)
Record world : Type := {
  db : database;
  sent : list request;
  clock_reads : nat
}.

(** Stateful code that may raise: the state reached is kept on either
    outcome, as a commit is not undone by a later exception. *)
Definition M (A : Type) : Type := world -> result A * world.

Definition ret {A} (a : A) : M A := fun w => (Ok a, w).

Definition raise {A} (e : exn) : M A := fun w => (Raise e, w).

Definition bind {A B} (c : M A) (k : A -> M B) : M B :=
  fun w =>
    match c w with
    | (Ok a, w') => k a w'
    | (Raise e, w') => (Raise e, w')
    end.

Definition lift {A} (r : result A) : M A := fun w => (r, w).

(** [try: c  except Exception as e: h e] *)
Definition try_except {A} (c : M A) (h : exn -> M A) : M A :=
  fun w =>
    match c w with
    | (Ok a, w') => (Ok a, w')
    | (Raise e, w') => h e w'
    end.

Declare Scope monad_scope.
Delimit Scope monad_scope with monad.
Notation "x <- c ;; k" := (bind c (fun x => k))
  (at level 61, c at next level, right associativity) : monad_scope.
Notation "c ;;; k" := (bind c (fun _ => k))
  (at level 61, right associativity) : monad_scope.
Open Scope monad_scope.

Definition get_db : M database := fun w => (Ok (db w), w).

Definition put_db (d : database) : M unit :=
  fun w => (Ok tt, {| db := d; sent := sent w; clock_reads := clock_reads w |}).

Section Program.

Variable env : environment.

(** [func.now()], evaluated by the store. *)
Definition func_now : M Z :=
  fun w => (Ok (now env (clock_reads w)),
            {| db := db w; sent := sent w; clock_reads := S (clock_reads w) |}).

(** [await client.post(...)] *)
Definition client_post (r : request) : M Response :=
  fun w => (post env (sent w) r,
            {| db := db w; sent := r :: sent w; clock_reads := clock_reads w |}).

(** [async with client.stream("POST", ...) as response] *)
Definition client_stream (r : request) : M StreamResponse :=
  fun w => (stream env (sent w) r,
            {| db := db w; sent := r :: sent w; clock_reads := clock_reads w |}).

(* ================================================================== *)
(** ** [app/services/openrouter_service.py] *)
(* ================================================================== *)

(** The part of [app/config.py] the service reads. *)
Record Settings : Type := {
  openrouter_api_key : str;
  openrouter_model : str;
  openrouter_base_url : str;
  site_url : str
}.

Record OpenRouterService : Type := {
  api_key : str;
  model : str;
  base_url : str;
  service_headers : list (str * header_value)
}.

(** [OpenRouterService.__init__] *)
Definition OpenRouterService_init (settings : Settings) : OpenRouterService :=
  {| api_key := openrouter_api_key settings;
     model := openrouter_model settings;
     base_url := openrouter_base_url settings;
     service_headers :=
       [ (lit "Authorization", HStr (lit "Bearer " ++ openrouter_api_key settings));
         (lit "Content-Type", HStr (lit "application/json"));
         (lit "HTTP-Referer", HSet [site_url settings]);
         (lit "X-Title", HStr (lit "AI Chatbot App")) ] |}.

Definition not_configured_text : str :=
  lit "I apologize, but I'm not properly configured to respond right now. Please contact the administrator.".
Definition timeout_text : str :=
  lit "I apologize, but I'm taking too long to respond. Please try again.".
Definition connection_text : str :=
  lit "I'm having trouble connecting right now. Please try again in a moment.".
Definition unexpected_error_text : str :=
  lit "I encountered an unexpected error. Please try again.".
Definition unexpected_format_text : str :=
  lit "I received an unexpected response format. Please try again.".
Definition no_response_text : str :=
  lit "I couldn't generate a response. Please try again.".
Definition system_prompt : str :=
  lit "You are a helpful AI assistant. Provide informative, accurate, and engaging responses. Be concise but thorough in your answers.".
Definition title_prompt : str :=
  lit "Generate a concise, descriptive title (max 5 words) for a chat conversation based on the user's first message. Only return the title, nothing else.".
Definition default_title : str := lit "New Chat".

(** [response.raise_for_status()] *)
Definition raise_for_status (r : Response) : result unit :=
  if is_error r then Raise (HTTPStatusError (status_code r)) else Ok tt.

Definition stream_raise_for_status (r : StreamResponse) : result unit :=
  if stream_is_error r then Raise (HTTPStatusError (stream_status_code r))
  else Ok tt.

(** [response.json()] *)
Definition response_json (r : Response) : result value :=
  json_loads env (text r).

(** The test ["choices" in data and len(data["choices"]) > 0], with the
    short circuit of [and]. *)
Definition has_choices (data : value) : result bool :=
  rbind (Py.contains (lit "choices") data) (fun present =>
  if present then
    rbind (Py.getitem data (lit "choices")) (fun choices =>
    rbind (Py.len choices) (fun n => Ok (0 <? n)%nat))
  else Ok false).

(** [_get_complete_response] *)
Definition _get_complete_response (self : OpenRouterService) (p : payload)
  : M str :=
  response <- client_post {| url := base_url self ++ lit "/chat/completions";
                             headers := service_headers self;
                             json := p |} ;;
  lift (raise_for_status response) ;;;
  data <- lift (response_json response) ;;
  ok <- lift (has_choices data) ;;
  if ok then
    choices <- lift (Py.getitem data (lit "choices")) ;;
    first <- lift (Py.getitem0 choices) ;;
    message <- lift (Py.getitem first (lit "message")) ;;
    c <- lift (Py.getitem message (lit "content")) ;;
    lift (Py.strip c)
  else ret unexpected_format_text.

(** The body of the [try] in the streaming loop, for one decoded event:
    the new value of [full_response]. *)
Definition add_fragment (full_response : str) (data : value) : result str :=
  rbind (has_choices data) (fun ok =>
  if ok then
    rbind (Py.getitem data (lit "choices")) (fun choices =>
    rbind (Py.getitem0 choices) (fun first =>
    rbind (Py.get_or_empty first (lit "delta")) (fun delta =>
    rbind (Py.contains (lit "content") delta) (fun present =>
    if present then
      rbind (Py.getitem delta (lit "content")) (fun c =>
      Py.iadd full_response c)
    else Ok full_response))))
  else Ok full_response).

(** The loop [async for line in response.aiter_lines()]: the value of
    [full_response] when the loop is left, by [break] or at the end of the
    stream, where a broken connection raises.  The [except] of the loop
    names [json.JSONDecodeError] alone: any other exception of the
    decoder, and every exception of the lookups in the decoded event,
    leaves the loop. *)
Fixpoint stream_loop (ls : list str) (at_end : option exn) (full_response : str)
  : result str :=
  match ls with
  | [] =>
      match at_end with
      | Some e => Raise e
      | None => Ok full_response
      end
  | line :: rest =>
      if startswith line (lit "data: ") then
        let data_str := slice_from 6 line in
        if PyStr.eqb (PyStr.strip data_str) (lit "[DONE]") then Ok full_response
        else
          match json_loads env data_str with
          | Raise JSONDecodeError => stream_loop rest at_end full_response
          | Raise e => Raise e
          | Ok data =>
              rbind (add_fragment full_response data)
                    (stream_loop rest at_end)
          end
      else stream_loop rest at_end full_response
  end.

(** [_stream_response] *)
Definition _stream_response (self : OpenRouterService) (p : payload) : M str :=
  response <- client_stream {| url := base_url self ++ lit "/chat/completions";
                               headers := service_headers self;
                               json := p |} ;;
  lift (stream_raise_for_status response) ;;;
  full_response <- lift (stream_loop (lines response) (broken response) []) ;;
  ret (match full_response with
       | [] => no_response_text
       | _ :: _ => PyStr.strip full_response
       end).

(** [generate_response] *)
Definition generate_response (self : OpenRouterService)
  (msgs : list api_message) (streaming : bool) : M str :=
  match api_key self with
  | [] => ret not_configured_text
  | _ :: _ =>
      try_except
        (let p := {| p_model := model self;
                     p_messages := msgs;
                     p_max_tokens := 2000;
                     p_temperature := lit "0.7";
                     p_stream := streaming |} in
         if streaming then _stream_response self p
         else _get_complete_response self p)
        (fun e =>
           if is_timeout e then ret timeout_text
           else if is_request_error e then ret connection_text
           else ret unexpected_error_text)
  end.

(** [format_messages_for_api]: the list is built by appending, the
    system message first, then one message per loop iteration. *)
Definition format_messages_for_api (chat_messages : list ChatMessage)
  : list api_message :=
  fold_left
    (fun formatted_messages msg =>
       let r := if PyStr.eqb (sender_type msg) (lit "user")
                then lit "user" else lit "assistant" in
       formatted_messages ++ [ {| role := r; api_content := content msg |} ])
    chat_messages
    [ {| role := lit "system"; api_content := system_prompt |} ].

(** The tail of [generate_chat_title], after the completion call
    returned [title]. *)
Definition finish_title (t : str) : str :=
  let t := if (50 <? length t)%nat then slice_to 47 t ++ lit "..." else t in
  strip_chars [single_quote] (strip_chars [double_quote] t).

(** [generate_chat_title], over the completion call it makes: any
    exception of the call is caught and replaced by the default title. *)
Definition generate_chat_title_with
  (call : list api_message -> M str) (first_message : str) : M str :=
  try_except
    (let msgs := [ {| role := lit "system"; api_content := title_prompt |};
                   {| role := lit "user"; api_content := first_message |} ] in
     t <- call msgs ;;
     ret (finish_title t))
    (fun _ => ret default_title).

(** [generate_chat_title] *)
Definition generate_chat_title (self : OpenRouterService) (first_message : str)
  : M str :=
  generate_chat_title_with (fun msgs => generate_response self msgs false)
                           first_message.

(* ================================================================== *)
(** ** [app/services/user_service.py] *)
(* ================================================================== *)

(** Modelled from the spec: the store generates ids; a new row gets the
    successor of the largest id of its table. *)
Definition fresh_id (ids : list Z) : Z := (1 + fold_right Z.max 0 ids)%Z.

(** [ORDER BY key ASC], keeping rows with equal keys in table order. *)
Fixpoint insert_asc {A} (key : A -> Z) (x : A) (l : list A) : list A :=
  match l with
  | [] => [x]
  | y :: l' => if (key x <=? key y)%Z then x :: l else y :: insert_asc key x l'
  end.

Definition order_by_asc {A} (key : A -> Z) (l : list A) : list A :=
  fold_right (insert_asc key) [] l.

(** [ORDER BY key DESC] *)
Definition order_by_desc {A} (key : A -> Z) (l : list A) : list A :=
  order_by_asc (fun x => (- key x)%Z) l.

(** A change made through the first row that satisfies [p], the object
    [.first()] returned. *)
Fixpoint update_first {A} (p : A -> bool) (f : A -> A) (l : list A) : list A :=
  match l with
  | [] => []
  | x :: l' => if p x then f x :: l' else x :: update_first p f l'
  end.

(** [app/schemas.py] *)
Record UserCreate : Type := {
  uc_email : str;
  uc_name : str;
  uc_password : str
}.

Record UserResponse : Type := {
  ur_email : str;
  ur_name : str;
  ur_id : Z;
  ur_is_active : bool;
  ur_created_at : Z
}.

Record ChatMessageCreate : Type := {
  mc_content : str;
  mc_sender_type : str
}.

Record ChatMessageResponse : Type := {
  mr_id : Z;
  mr_content : str;
  mr_sender_type : str;
  mr_created_at : Z
}.

Record ChatSessionResponse : Type := {
  sr_id : Z;
  sr_title : str;
  sr_created_at : Z;
  sr_messages : list ChatMessageResponse
}.

Record APIResponse : Type := {
  success : bool;
  message : str;
  data : option value
}.

(** [UserService.get_user_by_email] *)
Definition get_user_by_email (e : str) : M (option User) :=
  d <- get_db ;;
  ret (find (fun u => PyStr.eqb (email u) e) (users d)).

(** [UserService.get_user_by_id] *)
Definition get_user_by_id (id : Z) : M (option User) :=
  d <- get_db ;;
  ret (find (fun u => Z.eqb (user_id u) id) (users d)).

(** Modelled from the spec: the email column of the missing ORM model is
    unique, so the commit of a row whose email is already stored is
    refused by the store. *)
Definition insert_user (d : database) (u : User) : result database :=
  if existsb (fun x => PyStr.eqb (email x) (email u)) (users d)
  then Raise (OtherException (lit "IntegrityError"))
  else Ok {| users := users d ++ [u];
             sessions := sessions d;
             messages := messages d |}.

(** [UserService.create_user]; a new user is active. *)
Definition create_user (user : UserCreate) : M User :=
  let hashed := get_password_hash env (uc_password user) in
  d <- get_db ;;
  t <- func_now ;;
  let db_user := {| user_id := fresh_id (map user_id (users d));
                    email := uc_email user;
                    name := uc_name user;
                    hashed_password := hashed;
                    is_active := true;
                    user_created_at := t |} in
  d' <- lift (insert_user d db_user) ;;
  put_db d' ;;;
  ret db_user.

(** [ChatService.create_chat_session] *)
Definition create_chat_session (uid : Z) (ttl : str) : M ChatSession :=
  d <- get_db ;;
  t <- func_now ;;
  let session := {| session_id := fresh_id (map session_id (sessions d));
                    session_user_id := uid;
                    title := ttl;
                    session_created_at := t;
                    updated_at := t |} in
  put_db {| users := users d;
            sessions := sessions d ++ [session];
            messages := messages d |} ;;;
  ret session.

(** [ChatService.get_user_chat_sessions] *)
Definition get_user_chat_sessions (uid : Z) : M (list ChatSession) :=
  d <- get_db ;;
  ret (order_by_desc updated_at
         (filter (fun s => Z.eqb (session_user_id s) uid) (sessions d))).

(** [ChatService.get_session_by_id] *)
Definition get_session_by_id (sid : Z) : M (option ChatSession) :=
  d <- get_db ;;
  ret (find (fun s => Z.eqb (session_id s) sid) (sessions d)).

(** [ChatService.get_session_messages] *)
Definition get_session_messages (sid : Z) : M (list ChatMessage) :=
  d <- get_db ;;
  ret (order_by_asc created_at
         (filter (fun m => Z.eqb (message_session_id m) sid) (messages d))).

Definition set_updated_at (t : Z) (s : ChatSession) : ChatSession :=
  {| session_id := session_id s;
     session_user_id := session_user_id s;
     title := title s;
     session_created_at := session_created_at s;
     updated_at := t |}.

Definition set_title (ttl : str) (s : ChatSession) : ChatSession :=
  {| session_id := session_id s;
     session_user_id := session_user_id s;
     title := ttl;
     session_created_at := session_created_at s;
     updated_at := updated_at s |}.

(** [ChatService.add_message_to_session] *)
Definition add_message_to_session (sid : Z) (c : str) (sender : str)
  : M ChatMessage :=
  d <- get_db ;;
  t <- func_now ;;
  let msg := {| message_id := fresh_id (map message_id (messages d));
                message_session_id := sid;
                content := c;
                sender_type := sender;
                created_at := t |} in
  put_db {| users := users d;
            sessions := sessions d;
            messages := messages d ++ [msg] |} ;;;
  session <- get_session_by_id sid ;;
  match session with
  | Some _ =>
      t' <- func_now ;;
      d' <- get_db ;;
      put_db {| users := users d';
                sessions := update_first (fun s => Z.eqb (session_id s) sid)
                                         (set_updated_at t') (sessions d');
                messages := messages d' |}
  | None => ret tt
  end ;;;
  ret msg.

(** [ChatService.update_session_title] *)
Definition update_session_title (sid : Z) (ttl : str) : M (option ChatSession) :=
  session <- get_session_by_id sid ;;
  match session with
  | Some s =>
      d <- get_db ;;
      put_db {| users := users d;
                sessions := update_first (fun s => Z.eqb (session_id s) sid)
                                         (set_title ttl) (sessions d);
                messages := messages d |} ;;;
      ret (Some (set_title ttl s))
  | None => ret None
  end.

(* ================================================================== *)
(** ** [app/routes/auth.py] *)
(* ================================================================== *)

(** The clauses [except HTTPException: raise] and
    [except Exception: raise HTTPException(500, detail)] that end most
    handlers. *)
Definition guarded {A} (detail : str) (c : M A) : M A :=
  try_except c
    (fun e => if is_http_exception e then raise e
              else raise (HTTPException 500 detail)).

(** The single clause [except Exception: raise HTTPException(500, detail)]. *)
Definition guarded_all {A} (detail : str) (c : M A) : M A :=
  try_except c (fun _ => raise (HTTPException 500 detail)).

(** [UserResponse.model_validate(user)] *)
Definition user_response (u : User) : UserResponse :=
  {| ur_email := email u;
     ur_name := name u;
     ur_id := user_id u;
     ur_is_active := is_active u;
     ur_created_at := user_created_at u |}.

(** [register] *)
Definition register (user : UserCreate) : M APIResponse :=
  guarded (lit "Internal server error")
    (existing_user <- get_user_by_email (uc_email user) ;;
     match existing_user with
     | Some _ => raise (HTTPException 400 (lit "Email already registered"))
     | None =>
         new_user <- create_user user ;;
         ret {| success := true;
                message := lit "User registered successfully";
                data := Some (VDict [ (lit "user_id", VInt (user_id new_user));
                                      (lit "email", VStr (email new_user)) ]) |}
     end).

(** [get_current_user], the handler of [/auth/me]; the token is the
    [credentials.credentials] of the bearer header. *)
Definition get_current_user (token : str) : M UserResponse :=
  guarded (lit "Internal server error")
    (match verify_token env token with
     | None => raise (HTTPException 401 (lit "Invalid token"))
     | Some e =>
         user <- get_user_by_email e ;;
         match user with
         | None => raise (HTTPException 404 (lit "User not found"))
         | Some u => ret (user_response u)
         end
     end).

(** [get_current_user_dependency] *)
Definition get_current_user_dependency (token : str) : M UserResponse :=
  match verify_token env token with
  | None => raise (HTTPException 401 (lit "Invalid token"))
  | Some e =>
      user <- get_user_by_email e ;;
      match user with
      | None => raise (HTTPException 404 (lit "User not found"))
      | Some u => ret (user_response u)
      end
  end.

(** A handler declared with
    [current_user = Depends(get_current_user_dependency)]: the dependency
    runs first and the handler only if it returned. *)
Definition protected {A} (handler : UserResponse -> M A) (token : str) : M A :=
  current_user <- get_current_user_dependency token ;;
  handler current_user.

(* ================================================================== *)
(** ** [app/routes/chat.py] *)
(* ================================================================== *)

Variable openrouter_service : OpenRouterService.

(** [ChatMessageResponse.model_validate(message)] *)
Definition message_response (m : ChatMessage) : ChatMessageResponse :=
  {| mr_id := message_id m;
     mr_content := content m;
     mr_sender_type := sender_type m;
     mr_created_at := created_at m |}.

(** Modelled from the spec: the [messages] attribute of a session, which
    [ChatSessionResponse.model_validate(session)] reads, is the
    relationship of the missing ORM model to the messages the session
    owns. *)
Definition session_response (d : database) (s : ChatSession)
  : ChatSessionResponse :=
  {| sr_id := session_id s;
     sr_title := title s;
     sr_created_at := session_created_at s;
     sr_messages :=
       map message_response
           (filter (fun m => Z.eqb (message_session_id m) (session_id s))
                   (messages d)) |}.

Definition session_not_found : exn :=
  HTTPException 404 (lit "Chat session not found").

(** [not session or session.user_id != current_user.id] *)
Definition not_owned (session : option ChatSession) (current_user : UserResponse)
  : bool :=
  match session with
  | None => true
  | Some s => negb (Z.eqb (session_user_id s) (ur_id current_user))
  end.

(** [GET /chat/sessions] *)
Definition get_chat_sessions (current_user : UserResponse)
  : M (list ChatSessionResponse) :=
  guarded_all (lit "Failed to fetch chat sessions")
    (ss <- get_user_chat_sessions (ur_id current_user) ;;
     d <- get_db ;;
     ret (map (session_response d) ss)).

(** [POST /chat/sessions] *)
Definition create_chat_session_route (ttl : str) (current_user : UserResponse)
  : M ChatSessionResponse :=
  guarded_all (lit "Failed to create chat session")
    (session <- create_chat_session (ur_id current_user) ttl ;;
     d <- get_db ;;
     ret (session_response d session)).

(** [GET /chat/sessions/{session_id}/messages] *)
Definition get_session_messages_route (sid : Z) (current_user : UserResponse)
  : M (list ChatMessageResponse) :=
  guarded (lit "Failed to fetch messages")
    (session <- get_session_by_id sid ;;
     if not_owned session current_user then raise session_not_found
     else
       ms <- get_session_messages sid ;;
       ret (map message_response ms)).

(** The title step shared by the two sending handlers: on the first
    user message a title is generated and stored, and a failure of this
    step is logged and dropped. *)
Definition title_step (sid : Z) (msg : ChatMessageCreate)
  (previous_messages : list ChatMessage) : M unit :=
  let user_messages_count :=
    length (filter (fun m => PyStr.eqb (sender_type m) (lit "user"))
                   previous_messages) in
  if (user_messages_count =? 1)%nat then
    try_except
      (new_title <- generate_chat_title openrouter_service (mc_content msg) ;;
       update_session_title sid new_title ;;;
       ret tt)
      (fun _ => ret tt)
  else ret tt.

(** [POST /chat/sessions/{session_id}/messages] *)
Definition send_message (sid : Z) (msg : ChatMessageCreate)
  (current_user : UserResponse) : M ChatMessageResponse :=
  guarded (lit "Failed to send message")
    (session <- get_session_by_id sid ;;
     if not_owned session current_user then raise session_not_found
     else
       user_message <- add_message_to_session sid (mc_content msg) (lit "user") ;;
       previous_messages <- get_session_messages sid ;;
       title_step sid msg previous_messages ;;;
       let formatted_messages :=
         format_messages_for_api previous_messages in
       ai_response_text <-
         generate_response openrouter_service formatted_messages false ;;
       ai_message <- add_message_to_session sid ai_response_text (lit "bot") ;;
       ret (message_response ai_message)).

(** Modelled from the spec: deleting a session removes the messages it
    owns with it. *)
Definition delete_session (s : ChatSession) : M unit :=
  d <- get_db ;;
  put_db {| users := users d;
            sessions := filter (fun x => negb (Z.eqb (session_id x) (session_id s)))
                               (sessions d);
            messages := filter (fun m => negb (Z.eqb (message_session_id m)
                                                     (session_id s)))
                               (messages d) |}.

(** [DELETE /chat/sessions/{session_id}] *)
Definition delete_chat_session (sid : Z) (current_user : UserResponse)
  : M APIResponse :=
  guarded (lit "Failed to delete chat session")
    (session <- get_session_by_id sid ;;
     match session with
     | None => raise session_not_found
     | Some s =>
         if not_owned session current_user then raise session_not_found
         else
           delete_session s ;;;
           ret {| success := true;
                  message := lit "Chat session deleted successfully";
                  data := None |}
     end).

(** The frames of the streaming endpoint: the reply, the end marker, or
    the error. *)
Inductive frame : Type :=
| DataFrame (id : Z) (c : str) (sender : str) (created : Z)
| DoneFrame
| ErrorFrame (error : str).

(** [generate_stream], the generator inside [send_message_stream]. *)
Definition generate_stream (sid : Z) (msg : ChatMessageCreate) : M (list frame) :=
  try_except
    (previous_messages <- get_session_messages sid ;;
     title_step sid msg previous_messages ;;;
     let formatted_messages :=
       format_messages_for_api previous_messages in
     ai_response_text <-
       generate_response openrouter_service formatted_messages true ;;
     ai_message <- add_message_to_session sid ai_response_text (lit "bot") ;;
     ret [ DataFrame (message_id ai_message) ai_response_text (lit "bot")
                     (created_at ai_message);
           DoneFrame ])
    (fun _ => ret [ ErrorFrame (lit "Failed to generate response") ]).

(** [POST /chat/sessions/{session_id}/messages/stream]: the handler
    returns the response whose body is the generator, not yet run. *)
Definition send_message_stream (sid : Z) (msg : ChatMessageCreate)
  (current_user : UserResponse) : M (M (list frame)) :=
  guarded (lit "Failed to start streaming")
    (session <- get_session_by_id sid ;;
     if not_owned session current_user then raise session_not_found
     else
       user_message <- add_message_to_session sid (mc_content msg) (lit "user") ;;
       ret (generate_stream sid msg)).

(** The framework sending a streaming response: it runs the body once
    the handler has returned. *)
Definition serve {A} (h : M (M A)) : M A :=
  body <- h ;;
  body.

End Program.

(* ================================================================== *)
(** * Facts about text *)
(* ================================================================== *)

Lemma str_eqb_spec (a b : str) : reflect (a = b) (PyStr.eqb a b).
Proof.
  revert b; induction a as [|x a IH]; intros [|y b]; simpl;
    try (constructor; congruence).
  destruct (N.eqb_spec x y) as [->|Hxy]; simpl.
  - destruct (IH b) as [->|Hab]; constructor; congruence.
  - constructor; congruence.
Qed.

Lemma str_eqb_refl (a : str) : PyStr.eqb a a = true.
Proof. destruct (str_eqb_spec a a); congruence. Qed.

Lemma str_eqb_eq (a b : str) : PyStr.eqb a b = true <-> a = b.
Proof. destruct (str_eqb_spec a b); split; congruence. Qed.

Lemma str_eqb_neq (a b : str) : PyStr.eqb a b = false <-> a <> b.
Proof. destruct (str_eqb_spec a b); split; congruence. Qed.

(** What it means for [r] to be [s] with the code points satisfying [p]
    trimmed from both ends: [r] is what is left of [s] between a prefix
    and a suffix made of such code points only, and [r] itself neither
    starts nor ends with one. *)
Definition trimmed (p : N -> bool) (s r : str) : Prop :=
  exists pre post,
    s = pre ++ r ++ post /\
    forallb p pre = true /\ forallb p post = true /\
    (forall c r', r = c :: r' -> p c = false) /\
    (forall c r', r = r' ++ [c] -> p c = false).

Lemma lstrip_by_split (p : N -> bool) (s : str) :
  exists pre, s = pre ++ lstrip_by p s /\ forallb p pre = true /\
              (forall c r', lstrip_by p s = c :: r' -> p c = false).
Proof.
  induction s as [|c s IH]; simpl.
  - exists []; repeat split; intros; discriminate.
  - destruct (p c) eqn:Hc.
    + destruct IH as (pre & Hs & Hpre & Hhd).
      exists (c :: pre); simpl; rewrite Hc, Hpre; repeat split; auto.
      now rewrite <- Hs.
    + exists []; repeat split; intros c' r' [= <- _]; exact Hc.
Qed.

Lemma lstrip_by_last (p : N -> bool) (s r' : str) (c : N) :
  lstrip_by p s = r' ++ [c] -> exists s', s = s' ++ [c].
Proof.
  intros H; destruct (lstrip_by_split p s) as (pre & Hs & _).
  exists (pre ++ r'); rewrite Hs at 1; rewrite H; now rewrite app_assoc.
Qed.

Lemma rstrip_by_split (p : N -> bool) (s : str) :
  exists post, s = rstrip_by p s ++ post /\ forallb p post = true /\
               (forall c r', rstrip_by p s = r' ++ [c] -> p c = false).
Proof.
  unfold rstrip_by.
  destruct (lstrip_by_split p (rev s)) as (pre & Hs & Hpre & Hhd).
  exists (rev pre); repeat split.
  - rewrite <- rev_app_distr, <- Hs; now rewrite rev_involutive.
  - rewrite forallb_forall in *; intros x Hx; apply Hpre; now apply in_rev.
  - intros c r' H; apply (Hhd c (rev r')).
    apply (f_equal (@rev N)) in H; rewrite rev_involutive in H; rewrite H.
    now rewrite rev_app_distr.
Qed.

Lemma rstrip_by_head (p : N -> bool) (s r' : str) (c : N) :
  (forall c0 s0, s = c0 :: s0 -> p c0 = false) ->
  rstrip_by p s = c :: r' -> p c = false.
Proof.
  intros Hhd H; destruct (rstrip_by_split p s) as (post & Hs & _).
  rewrite H in Hs; simpl in Hs; eapply Hhd; exact Hs.
Qed.

(** [strip_by] trims, in the sense above. *)
Lemma strip_by_trimmed (p : N -> bool) (s : str) : trimmed p s (strip_by p s).
Proof.
  unfold strip_by.
  destruct (lstrip_by_split p s) as (pre & Hs & Hpre & Hhd).
  destruct (rstrip_by_split p (lstrip_by p s)) as (post & Hl & Hpost & Hlast).
  exists pre, post; repeat split; auto.
  - rewrite <- Hl; exact Hs.
  - intros c r' H; eapply rstrip_by_head; eauto.
Qed.

Lemma trimmed_length_le (p : N -> bool) (s r : str) :
  trimmed p s r -> (length r <= length s)%nat.
Proof.
  intros (pre & post & -> & _); rewrite !length_app; lia.
Qed.

Lemma lstrip_by_app (p : N -> bool) (pre x : str) :
  forallb p pre = true -> lstrip_by p (pre ++ x) = lstrip_by p x.
Proof.
  induction pre as [|c pre IH]; simpl; auto.
  intros H; apply andb_prop in H as [-> H]; auto.
Qed.

Lemma lstrip_by_id (p : N -> bool) (x : str) :
  (forall c r', x = c :: r' -> p c = false) -> lstrip_by p x = x.
Proof.
  destruct x as [|c x]; simpl; auto.
  intros H; now rewrite (H c x eq_refl).
Qed.

(** Trimming is determined: the trimmed form of a text is the one
    [strip_by] computes. *)
Lemma trimmed_unique (p : N -> bool) (s r : str) :
  trimmed p s r -> r = strip_by p s.
Proof.
  intros (pre & post & -> & Hpre & Hpost & Hhd & Hlast).
  assert (Hrev : forallb p (rev post) = true).
  { rewrite forallb_forall in *; intros x Hx; apply Hpost; now apply in_rev. }
  unfold strip_by, rstrip_by.
  rewrite lstrip_by_app by exact Hpre.
  destruct r as [|c r].
  - simpl. rewrite <- (app_nil_r post) at 1.
    rewrite lstrip_by_app by exact Hpost; simpl.
    reflexivity.
  - rewrite (@lstrip_by_id p ((c :: r) ++ post))
      by (intros c0 r0 [= <- _]; eauto).
    rewrite rev_app_distr, lstrip_by_app by exact Hrev.
    rewrite lstrip_by_id; [now rewrite rev_involutive|].
    intros c0 r0 H; apply (Hlast c0 (rev r0)).
    apply (f_equal (@rev N)) in H; rewrite rev_involutive in H.
    rewrite H; reflexivity.
Qed.

(* ================================================================== *)
(** * The completion client *)
(* ================================================================== *)

Section Client.

Variable env : environment.
Variable self : OpenRouterService.

Definition system_message : api_message :=
  {| role := lit "system"; api_content := system_prompt |}.

(** The provider's name for a sender role, as the loop computes it. *)
Definition api_role (sender : str) : str :=
  if PyStr.eqb sender (lit "user") then lit "user" else lit "assistant".

Definition to_api (m : ChatMessage) : api_message :=
  {| role := api_role (sender_type m); api_content := content m |}.

Lemma format_messages_for_api_map (chat_messages : list ChatMessage) :
  format_messages_for_api chat_messages
  = system_message :: map to_api chat_messages.
Proof.
  unfold format_messages_for_api.
  change [ {| role := lit "system"; api_content := system_prompt |} ]
    with [system_message].
  change (system_message :: map to_api chat_messages)
    with ([system_message] ++ map to_api chat_messages).
  generalize [system_message] as acc.
  induction chat_messages as [|m ms IH]; intros acc; simpl.
  - now rewrite app_nil_r.
  - rewrite IH, <- app_assoc. reflexivity.
Qed.

(** C2. [format_messages_for_api] returns the system message carrying the
    fixed instruction, followed by exactly one message per input message,
    in the input order: the i-th of them has the content of the i-th
    input unchanged, role [user] for sender [user] and role [assistant]
    for sender [bot]; no message after the first has role [system]. *)
Theorem format_messages_for_api_spec (chat_messages : list ChatMessage) :
  exists rest,
    format_messages_for_api chat_messages
    = {| role := lit "system"; api_content := system_prompt |} :: rest
    /\ length rest = length chat_messages
    /\ Forall (fun a => role a <> lit "system") rest
    /\ forall i m, nth_error chat_messages i = Some m ->
         exists a, nth_error rest i = Some a
                   /\ api_content a = content m
                   /\ (sender_type m = lit "user" -> role a = lit "user")
                   /\ (sender_type m = lit "bot" -> role a = lit "assistant").
Proof.
  exists (map to_api chat_messages); repeat split.
  - apply format_messages_for_api_map.
  - apply length_map.
  - apply Forall_forall; intros a Ha.
    apply in_map_iff in Ha as (m & <- & _).
    unfold to_api, api_role; simpl.
    destruct (PyStr.eqb (sender_type m) (lit "user")); discriminate.
  - intros i m Hm; exists (to_api m); repeat split.
    + now apply map_nth_error.
    + unfold to_api, api_role; simpl; intros ->; reflexivity.
    + unfold to_api, api_role; simpl; intros ->; reflexivity.
Qed.

(** The request body [generate_response] builds. *)
Definition completion_payload (msgs : list api_message) (streaming : bool)
  : payload :=
  {| p_model := model self;
     p_messages := msgs;
     p_max_tokens := 2000;
     p_temperature := lit "0.7";
     p_stream := streaming |}.

(** The request either path sends. *)
Definition completion_request (p : payload) : request :=
  {| url := base_url self ++ lit "/chat/completions";
     headers := service_headers self;
     json := p |}.

(** The world after one request has been sent. *)
Definition after_request (r : request) (w : world) : world :=
  {| db := db w; sent := r :: sent w; clock_reads := clock_reads w |}.

(** The body of the [try] of [generate_response]. *)
Definition completion_call (msgs : list api_message) (streaming : bool) : M str :=
  if streaming then _stream_response env self (completion_payload msgs true)
  else _get_complete_response env self (completion_payload msgs false).

Lemma generate_response_unfold (msgs : list api_message) (streaming : bool)
  (w : world) :
  api_key self <> [] ->
  generate_response env self msgs streaming w
  = match completion_call msgs streaming w with
    | (Ok t, w') => (Ok t, w')
    | (Raise e, w') =>
        (Ok (if is_timeout e then timeout_text
             else if is_request_error e then connection_text
             else unexpected_error_text), w')
    end.
Proof.
  intros Hkey. unfold generate_response, completion_call, try_except.
  destruct (api_key self) as [|c k]; [congruence|].
  destruct streaming; simpl; fold (completion_payload msgs true);
    fold (completion_payload msgs false);
    match goal with |- context [let (_, _) := ?c in _] =>
      destruct c as [[t|e] w'] end; try reflexivity;
    destruct (is_timeout e); try reflexivity;
    destruct (is_request_error e); reflexivity.
Qed.

(** An exception of [client.post] leaves [_get_complete_response] as it
    is, after the request has been recorded. *)
Lemma post_raises (p : payload) (w : world) (e : exn) :
  post env (sent w) (completion_request p) = Raise e ->
  _get_complete_response env self p w
  = (Raise e, after_request (completion_request p) w).
Proof.
  intros H. unfold _get_complete_response, bind, client_post.
  fold (completion_request p). rewrite H. reflexivity.
Qed.

Lemma stream_raises (p : payload) (w : world) (e : exn) :
  stream env (sent w) (completion_request p) = Raise e ->
  _stream_response env self p w
  = (Raise e, after_request (completion_request p) w).
Proof.
  intros H. unfold _stream_response, bind, client_stream.
  fold (completion_request p). rewrite H. reflexivity.
Qed.

(** C1. [generate_response] always returns a text and never raises.
    With an empty API key it returns the "not properly configured" text
    and the world, hence the list of requests sent, is unchanged.  With a
    key, when the call to the provider raises [e]: a time-out gives the
    "taking too long" text, any other transport error the "trouble
    connecting" text, any other exception the generic error text. *)
Theorem generate_response_never_raises
  (msgs : list api_message) (streaming : bool) (w : world) :
  (exists t w', generate_response env self msgs streaming w = (Ok t, w'))
  /\ (api_key self = [] ->
      generate_response env self msgs streaming w = (Ok not_configured_text, w))
  /\ (api_key self <> [] ->
      forall e w', completion_call msgs streaming w = (Raise e, w') ->
        (e = TimeoutException ->
         generate_response env self msgs streaming w = (Ok timeout_text, w'))
        /\ ((exists what, e = RequestError what) ->
            generate_response env self msgs streaming w
            = (Ok connection_text, w'))
        /\ (e <> TimeoutException -> (forall what, e <> RequestError what) ->
            generate_response env self msgs streaming w
            = (Ok unexpected_error_text, w'))).
Proof.
  split; [|split].
  - destruct (api_key self) as [|c k] eqn:Hkey.
    + exists not_configured_text, w. unfold generate_response.
      now rewrite Hkey.
    + rewrite generate_response_unfold by congruence.
      destruct (completion_call msgs streaming w) as [[t|e] w']; eauto.
  - intros Hkey. unfold generate_response. now rewrite Hkey.
  - intros Hkey e w' Hcall.
    rewrite generate_response_unfold, Hcall by assumption.
    repeat split.
    + intros ->; reflexivity.
    + intros [what ->]; reflexivity.
    + intros Hto Hre. destruct e; try reflexivity; [congruence|].
      exfalso; eapply Hre; reflexivity.
Qed.

(** The lines of [_get_complete_response] after [response.json()], for
    the decoded body [data]. *)
Definition extract_reply (data : value) : result str :=
  rbind (has_choices data) (fun ok =>
  if ok then
    rbind (Py.getitem data (lit "choices")) (fun choices =>
    rbind (Py.getitem0 choices) (fun first =>
    rbind (Py.getitem first (lit "message")) (fun message =>
    rbind (Py.getitem message (lit "content")) Py.strip)))
  else Ok unexpected_format_text).

(** After a response whose status is accepted, [_get_complete_response]
    is the decoder followed by the extraction. *)
Lemma get_complete_response_accepted
  (p : payload) (w : world) (resp : Response) :
  post env (sent w) (completion_request p) = Ok resp ->
  is_error resp = false ->
  _get_complete_response env self p w
  = (rbind (json_loads env (text resp)) extract_reply,
     after_request (completion_request p) w).
Proof.
  intros Hpost Hst.
  unfold _get_complete_response, bind, client_post, lift, raise_for_status,
    response_json, extract_reply.
  fold (completion_request p). rewrite Hpost, Hst.
  fold (after_request (completion_request p) w).
  destruct (json_loads env (text resp)) as [data|e]; simpl; try reflexivity.
  destruct (has_choices data) as [[|]|e]; simpl; try reflexivity.
  destruct (getitem data (lit "choices")) as [choices|e]; simpl; try reflexivity.
  destruct (getitem0 choices) as [first|e]; simpl; try reflexivity.
  destruct (getitem first (lit "message")) as [message|e]; simpl; try reflexivity.
  destruct (getitem message (lit "content")) as [c|e]; simpl; reflexivity.
Qed.

(** After a response whose status is accepted and whose body decodes to
    [data], [_get_complete_response] is the extraction from [data]. *)
Lemma get_complete_response_decoded
  (p : payload) (w : world) (resp : Response) (data : value) :
  post env (sent w) (completion_request p) = Ok resp ->
  is_error resp = false ->
  json_loads env (text resp) = Ok data ->
  _get_complete_response env self p w
  = (extract_reply data, after_request (completion_request p) w).
Proof.
  intros Hpost Hst Hjs.
  rewrite (@get_complete_response_accepted p w resp Hpost Hst), Hjs.
  reflexivity.
Qed.

(** The text content of the message of the first choice of a decoded
    body, when the body is an object whose [choices] is an array, its
    first element an object, the [message] of that an object and the
    [content] of that a text. *)
Definition first_message_content (data : value) : option str :=
  match data with
  | VDict kv =>
      match lookup (lit "choices") kv with
      | Some (VList (VDict c :: _)) =>
          match lookup (lit "message") c with
          | Some (VDict m) =>
              match lookup (lit "content") m with
              | Some (VStr s) => Some s
              | _ => None
              end
          | _ => None
          end
      | _ => None
      end
  | _ => None
  end.

(** A decoded body without choices: an object that has no [choices]
    field or an empty one (an empty array, object or text), or an array
    or a text in which the word does not occur. *)
Definition without_choices (data : value) : bool :=
  match data with
  | VDict kv =>
      match lookup (lit "choices") kv with
      | None | Some (VList []) | Some (VDict []) | Some (VStr []) => true
      | Some _ => false
      end
  | VList l => negb (existsb (is_str (lit "choices")) l)
  | VStr s => negb (PyStr.contains s (lit "choices"))
  | _ => false
  end.

(** The exceptions of a lookup in a decoded value. *)
Definition is_lookup_error (e : exn) : bool :=
  match e with
  | TypeError | KeyError | IndexError | AttributeError => true
  | _ => false
  end.

(** The extraction has three outcomes, and the shape of the decoded
    body tells which. *)
Lemma extract_reply_cases (data : value) :
  match first_message_content data with
  | Some s => extract_reply data = Ok (PyStr.strip s)
  | None =>
      if without_choices data
      then extract_reply data = Ok unexpected_format_text
      else exists e, extract_reply data = Raise e /\ is_lookup_error e = true
  end.
Proof.
  unfold first_message_content, without_choices, extract_reply, has_choices.
  destruct data as [| | | | s|l|kv]; cbn [contains rbind];
    try (eexists; split; reflexivity).
  - destruct (PyStr.contains s (lit "choices")); cbn [negb getitem rbind];
      [eexists; split; reflexivity | reflexivity].
  - destruct (existsb (is_str (lit "choices")) l); cbn [negb getitem rbind];
      [eexists; split; reflexivity | reflexivity].
  - destruct (lookup (lit "choices") kv) as [choices|] eqn:Hch;
      cbn [getitem rbind]; rewrite ?Hch; cbn [rbind]; [|reflexivity].
    destruct choices as [| | | | [|c0 s]|[|first l]|[|kv0 kv']];
      cbn [len rbind length Nat.ltb Nat.leb getitem0 getitem];
      rewrite ?Hch; cbn [rbind getitem0 getitem];
      try reflexivity; try (eexists; split; reflexivity).
    destruct first as [| | | | | |c]; cbn [getitem rbind];
      try (eexists; split; reflexivity).
    destruct (lookup (lit "message") c) as [message|]; cbn [rbind];
      [|eexists; split; reflexivity].
    destruct message as [| | | | | |m]; cbn [getitem rbind];
      try (eexists; split; reflexivity).
    destruct (lookup (lit "content") m) as [content|]; cbn [rbind];
      [|eexists; split; reflexivity].
    destruct content; cbn [Py.strip];
      try reflexivity; eexists; split; reflexivity.
Qed.

(** What [generate_response] makes of an exception of the call that is
    not one of the transport. *)
Lemma generate_response_of_other_exception
  (msgs : list api_message) (streaming : bool) (w w' : world) (e : exn) :
  api_key self <> [] ->
  completion_call msgs streaming w = (Raise e, w') ->
  is_request_error e = false ->
  generate_response env self msgs streaming w = (Ok unexpected_error_text, w').
Proof.
  intros Hkey Hcall He.
  rewrite generate_response_unfold, Hcall by assumption.
  destruct e; try discriminate; reflexivity.
Qed.

(** C3, amended. For a response of the non-streaming call whose status
    is accepted, whatever its body.  When the body decodes to an object
    whose [choices] is an array whose first element is an object whose
    [message] is an object with the text [s] as [content], the client
    returns [s] with the surrounding white space trimmed.  When the body
    decodes to a value without choices (an object that has no [choices]
    field or an empty one, an array or a text in which the word does not
    occur), the client returns the "unexpected response format" text.
    In every other case [_get_complete_response] raises, the exception
    of the decoder when the body does not decode and an exception of the
    lookup when it decodes to anything else, and [generate_response],
    with a key configured, returns one of its fixed texts all the same:
    the generic error text, unless the decoder's exception is one of the
    transport. *)
Theorem get_complete_response_extracts
  (msgs : list api_message) (w : world) (resp : Response) :
  api_key self <> [] ->
  post env (sent w) (completion_request (completion_payload msgs false))
  = Ok resp ->
  is_error resp = false ->
  let p := completion_payload msgs false in
  let w' := after_request (completion_request p) w in
  (forall data, json_loads env (text resp) = Ok data ->
     match first_message_content data with
     | Some s =>
         exists r, trimmed isspace s r
           /\ _get_complete_response env self p w = (Ok r, w')
           /\ generate_response env self msgs false w = (Ok r, w')
     | None =>
         if without_choices data
         then _get_complete_response env self p w
              = (Ok unexpected_format_text, w')
              /\ generate_response env self msgs false w
                 = (Ok unexpected_format_text, w')
         else (exists e, _get_complete_response env self p w = (Raise e, w')
                         /\ is_lookup_error e = true)
              /\ generate_response env self msgs false w
                 = (Ok unexpected_error_text, w')
     end)
  /\ (forall e, json_loads env (text resp) = Raise e ->
        _get_complete_response env self p w = (Raise e, w')
        /\ exists t,
            generate_response env self msgs false w = (Ok t, w')
            /\ (t = timeout_text \/ t = connection_text
                \/ t = unexpected_error_text)
            /\ (is_request_error e = false -> t = unexpected_error_text)).
Proof.
  intros Hkey Hpost Hst p w'.
  assert (Hrun : _get_complete_response env self p w
                 = (rbind (json_loads env (text resp)) extract_reply, w'))
    by exact (@get_complete_response_accepted p w resp Hpost Hst).
  assert (Hgen : generate_response env self msgs false w
                 = match rbind (json_loads env (text resp)) extract_reply with
                   | Ok t => (Ok t, w')
                   | Raise e =>
                       (Ok (if is_timeout e then timeout_text
                            else if is_request_error e then connection_text
                            else unexpected_error_text), w')
                   end).
  { rewrite generate_response_unfold by assumption.
    unfold completion_call. fold p. rewrite Hrun.
    destruct (rbind (json_loads env (text resp)) extract_reply); reflexivity. }
  split.
  - intros data Hjs. rewrite Hrun, Hgen, Hjs. cbn [rbind].
    pose proof (extract_reply_cases data) as Hc.
    destruct (first_message_content data) as [s|].
    + exists (PyStr.strip s). rewrite Hc.
      split; [apply strip_by_trimmed | split; reflexivity].
    + destruct (without_choices data).
      * rewrite Hc. split; reflexivity.
      * destruct Hc as (e & Hc & He). rewrite Hc. split.
        -- exists e; split; [reflexivity | exact He].
        -- destruct e; try discriminate; reflexivity.
  - intros e Hjs. rewrite Hrun, Hgen, Hjs. cbn [rbind].
    split; [reflexivity|]. eexists. split; [reflexivity|]. split.
    + destruct (is_timeout e); [auto|].
      destruct (is_request_error e); auto.
    + intros He. destruct e; try discriminate; reflexivity.
Qed.

(** The reply through [generate_response], once a key is configured. *)
Corollary generate_response_extracts
  (msgs : list api_message) (w : world) (resp : Response)
  (kv c m : list (str * value)) (rest : list value) (s : str) :
  api_key self <> [] ->
  post env (sent w) (completion_request (completion_payload msgs false))
  = Ok resp ->
  is_error resp = false ->
  json_loads env (text resp) = Ok (VDict kv) ->
  lookup (lit "choices") kv = Some (VList (VDict c :: rest)) ->
  lookup (lit "message") c = Some (VDict m) ->
  lookup (lit "content") m = Some (VStr s) ->
  generate_response env self msgs false w
  = (Ok (PyStr.strip s),
     after_request (completion_request (completion_payload msgs false)) w).
Proof.
  intros Hkey Hpost Hst Hjs Hch Hm Hc.
  rewrite generate_response_unfold by assumption.
  unfold completion_call.
  rewrite (@get_complete_response_decoded _ w resp _ Hpost Hst Hjs).
  unfold extract_reply, has_choices; simpl. rewrite Hch; simpl. rewrite Hm; simpl.
  rewrite Hc; reflexivity.
Qed.

(** *** The streaming path *)

(** The payloads of the event lines read before the end marker: a line
    that does not start with the event marker is not an event, and
    nothing is read after the line whose payload is the marker [DONE]. *)
Fixpoint event_payloads (ls : list str) : list str :=
  match ls with
  | [] => []
  | line :: rest =>
      if startswith line (lit "data: ") then
        if PyStr.eqb (PyStr.strip (slice_from 6 line)) (lit "[DONE]") then []
        else slice_from 6 line :: event_payloads rest
      else event_payloads rest
  end.

(** Whether the lines contain the end marker. *)
Fixpoint has_done (ls : list str) : bool :=
  match ls with
  | [] => false
  | line :: rest =>
      (startswith line (lit "data: ")
       && PyStr.eqb (PyStr.strip (slice_from 6 line)) (lit "[DONE]"))
      || has_done rest
  end.

(** The content fragment in the first delta of a decoded event. *)
Definition first_delta_content (data : value) : option str :=
  match data with
  | VDict kv =>
      match lookup (lit "choices") kv with
      | Some (VList (VDict c :: _)) =>
          match lookup (lit "delta") c with
          | Some (VDict d) =>
              match lookup (lit "content") d with
              | Some (VStr s) => Some s
              | _ => None
              end
          | _ => None
          end
      | _ => None
      end
  | _ => None
  end.

(** A delta the loop gets past: an object whose [content], when
    present, is a text; or an array or a text in which the word
    [content] does not occur. *)
Definition delta_ok (delta : value) : bool :=
  match delta with
  | VDict d =>
      match lookup (lit "content") d with
      | None | Some (VStr _) => true
      | Some _ => false
      end
  | VList l => negb (existsb (is_str (lit "content")) l)
  | VStr s => negb (PyStr.contains s (lit "content"))
  | _ => false
  end.

(** A decoded event the loop gets past: a value without choices (an
    object that has no [choices] field or an empty one, an array or a
    text in which the word does not occur), or an object whose [choices]
    is an array whose first element is an object whose [delta], when
    present, is one the loop gets past.  On every other decoded event
    the lookups raise ([add_fragment_not_ok]). *)
Definition event_ok (data : value) : bool :=
  match data with
  | VDict kv =>
      match lookup (lit "choices") kv with
      | None | Some (VList []) | Some (VDict []) | Some (VStr []) => true
      | Some (VList (VDict c :: _)) =>
          match lookup (lit "delta") c with
          | None => true
          | Some delta => delta_ok delta
          end
      | Some _ => false
      end
  | VList l => negb (existsb (is_str (lit "choices")) l)
  | VStr s => negb (PyStr.contains s (lit "choices"))
  | _ => false
  end.

(** A payload the loop gets past: the decoder refuses it as not being
    JSON, or it decodes to an event the loop gets past.  A payload on
    which the decoder raises anything else is not one. *)
Definition payload_ok (payload : str) : bool :=
  match json_loads env payload with
  | Ok data => event_ok data
  | Raise JSONDecodeError => true
  | Raise _ => false
  end.

(** The fragments of a stream, in arrival order: one per event whose
    payload decodes and carries one. *)
Definition fragments (ls : list str) : list str :=
  flat_map (fun payload =>
              match json_loads env payload with
              | Ok data =>
                  match first_delta_content data with
                  | Some s => [s]
                  | None => []
                  end
              | Raise _ => []
              end)
           (event_payloads ls).

(** The text the claim promises: the concatenation of the fragments as
    it is, or the fallback text when it is empty. *)
Definition claimed_stream_text (ls : list str) : str :=
  match concat (fragments ls) with
  | [] => no_response_text
  | t => t
  end.

(** The text the code returns: the concatenation with the surrounding
    white space trimmed, or the fallback text when the concatenation is
    empty. *)
Definition stream_text (ls : list str) : str :=
  match concat (fragments ls) with
  | [] => no_response_text
  | t => PyStr.strip t
  end.

Lemma add_fragment_ok (acc : str) (data : value) :
  event_ok data = true ->
  add_fragment acc data
  = Ok (acc ++ match first_delta_content data with
               | Some s => s
               | None => []
               end).
Proof.
  unfold event_ok, delta_ok, add_fragment, has_choices, first_delta_content.
  destruct data as [| | | | s|l|kv]; try discriminate; cbn [contains rbind].
  - destruct (PyStr.contains s (lit "choices")); try discriminate.
    now rewrite app_nil_r.
  - destruct (existsb (is_str (lit "choices")) l); try discriminate.
    now rewrite app_nil_r.
  - destruct (lookup (lit "choices") kv) as [choices|] eqn:Hch;
      cbn [getitem rbind]; rewrite ?Hch; cbn [rbind];
      [|now rewrite app_nil_r].
    destruct choices as [| | | | [|c0 s]|[|first l]|[|kv0 kv']];
      try discriminate;
      cbn [len rbind length Nat.ltb Nat.leb getitem0 getitem];
      rewrite ?Hch; cbn [rbind getitem0 getitem];
      try (now rewrite app_nil_r).
    destruct first as [| | | | | |c]; try discriminate.
    cbn [get_or_empty rbind].
    destruct (lookup (lit "delta") c) as [delta|];
      [|cbn [contains lookup rbind]; now rewrite app_nil_r].
    destruct delta as [| | | | s|l0|d]; try discriminate; cbn [contains rbind].
    + destruct (PyStr.contains s (lit "content")); try discriminate.
      now rewrite app_nil_r.
    + destruct (existsb (is_str (lit "content")) l0); try discriminate.
      now rewrite app_nil_r.
    + destruct (lookup (lit "content") d) as [content|] eqn:Hc;
        cbn [getitem rbind]; rewrite ?Hc; cbn [rbind];
        [|now rewrite app_nil_r].
      destruct content; try discriminate. reflexivity.
Qed.

(** [event_ok] leaves out no event the loop would get past. *)
Lemma add_fragment_not_ok (acc : str) (data : value) :
  event_ok data = false ->
  exists e, add_fragment acc data = Raise e /\ is_lookup_error e = true.
Proof.
  unfold event_ok, delta_ok, add_fragment, has_choices.
  destruct data as [| | | | s|l|kv]; cbn [contains rbind];
    try (intros _; eexists; split; reflexivity).
  - destruct (PyStr.contains s (lit "choices")); try discriminate.
    intros _; eexists; split; reflexivity.
  - destruct (existsb (is_str (lit "choices")) l); try discriminate.
    intros _; eexists; split; reflexivity.
  - destruct (lookup (lit "choices") kv) as [choices|] eqn:Hch;
      cbn [getitem rbind]; rewrite ?Hch; cbn [rbind]; [|discriminate].
    destruct choices as [| | | | [|c0 s]|[|first l]|[|kv0 kv']];
      try discriminate;
      cbn [len rbind length Nat.ltb Nat.leb getitem0 getitem];
      rewrite ?Hch; cbn [rbind getitem0 getitem get_or_empty];
      try (intros _; eexists; split; reflexivity).
    destruct first as [| | | | | |c]; cbn [get_or_empty rbind];
      try (intros _; eexists; split; reflexivity).
    destruct (lookup (lit "delta") c) as [delta|]; [|discriminate].
    destruct delta as [| | | | s|l0|d]; cbn [contains rbind];
      try (intros _; eexists; split; reflexivity).
    + destruct (PyStr.contains s (lit "content")); try discriminate.
      intros _; eexists; split; reflexivity.
    + destruct (existsb (is_str (lit "content")) l0); try discriminate.
      intros _; eexists; split; reflexivity.
    + destruct (lookup (lit "content") d) as [content|] eqn:Hc;
        cbn [getitem rbind]; rewrite ?Hc; cbn [rbind]; [|discriminate].
      destruct content; try discriminate;
        intros _; eexists; split; reflexivity.
Qed.

Lemma stream_loop_ok (ls : list str) (at_end : option exn) (acc : str) :
  at_end = None \/ has_done ls = true ->
  forallb payload_ok (event_payloads ls) = true ->
  stream_loop env ls at_end acc = Ok (acc ++ concat (fragments ls)).
Proof.
  revert acc; induction ls as [|line rest IH]; intros acc Hend Hok.
  - simpl. destruct Hend as [->|Hd]; [|discriminate].
    now rewrite app_nil_r.
  - unfold fragments in *.
    cbn [stream_loop event_payloads has_done] in *.
    destruct (startswith line (lit "data: ")).
    + destruct (PyStr.eqb (PyStr.strip (slice_from 6 line)) (lit "[DONE]")).
      * cbn [flat_map concat]. now rewrite app_nil_r.
      * cbn [flat_map andb orb forallb] in *.
        apply andb_true_iff in Hok. destruct Hok as [Hhd Hok].
        unfold payload_ok in Hhd.
        destruct (json_loads env (slice_from 6 line)) as [data|e] eqn:Hjs.
        -- rewrite (add_fragment_ok acc data Hhd).
           cbn [rbind]. rewrite (IH _ Hend Hok).
           rewrite concat_app.
           destruct (first_delta_content data); cbn [concat app];
             now rewrite <- ?app_assoc, ?app_nil_r.
        -- destruct e; try discriminate. cbn [app]. exact (IH _ Hend Hok).
    + cbn [andb orb] in *. apply IH; auto.
Qed.

(** The loop raises as soon as it meets a payload it does not get
    past, and at the end of a stream that breaks before the end
    marker. *)
Lemma stream_loop_raises (ls : list str) (at_end : option exn) (acc : str) :
  forallb payload_ok (event_payloads ls) = false
  \/ (at_end <> None /\ has_done ls = false) ->
  exists e, stream_loop env ls at_end acc = Raise e.
Proof.
  revert acc; induction ls as [|line rest IH]; intros acc H.
  - cbn [stream_loop]. destruct H as [H|[H _]]; [discriminate|].
    destruct at_end as [e|]; [eauto | congruence].
  - cbn [stream_loop event_payloads has_done] in *.
    destruct (startswith line (lit "data: ")).
    + destruct (PyStr.eqb (PyStr.strip (slice_from 6 line)) (lit "[DONE]")).
      * destruct H as [H|[_ H]]; discriminate.
      * cbn [forallb andb orb] in H. unfold payload_ok at 1 in H.
        destruct (json_loads env (slice_from 6 line)) as [data|e] eqn:Hjs.
        -- destruct (event_ok data) eqn:Hev.
           ++ rewrite (add_fragment_ok acc data Hev). cbn [rbind].
              apply IH. exact H.
           ++ destruct (add_fragment_not_ok acc data Hev) as (e & He & _).
              rewrite He. cbn [rbind]. eauto.
        -- destruct e; try (eexists; reflexivity).
           apply IH. exact H.
    + cbn [andb orb] in H. apply IH. exact H.
Qed.

(** C4, amended. For a stream whose status is accepted, whatever its
    lines.  Lines without the event marker are ignored and reading
    stops at the end marker.  An event whose payload the decoder
    refuses as not being JSON is skipped.  When every event read is one
    the loop gets past (its payload is refused as not JSON, or decodes
    to a value on which the lookups do not raise) and the stream ends
    normally or contains the end marker, the text returned is the
    concatenation, in arrival order, of the content fragments of the
    first deltas, with the surrounding white space trimmed; when that
    concatenation is empty the "couldn't generate a response" text is
    returned.  In every other case (a payload on which the decoder
    raises another exception or the lookups raise, or a stream that
    breaks before the end marker) the call raises. *)
Theorem stream_response_accumulates
  (p : payload) (w : world) (resp : StreamResponse) :
  stream env (sent w) (completion_request p) = Ok resp ->
  stream_is_error resp = false ->
  (forallb payload_ok (event_payloads (lines resp)) = true ->
   broken resp = None \/ has_done (lines resp) = true ->
   _stream_response env self p w
   = (Ok (stream_text (lines resp)), after_request (completion_request p) w))
  /\ (forallb payload_ok (event_payloads (lines resp)) = false
      \/ (broken resp <> None /\ has_done (lines resp) = false) ->
      exists e,
        _stream_response env self p w
        = (Raise e, after_request (completion_request p) w)).
Proof.
  intros Hs Hst.
  unfold _stream_response, bind, client_stream, lift, stream_raise_for_status.
  fold (completion_request p). rewrite Hs, Hst.
  split.
  - intros Hok Hend.
    rewrite (stream_loop_ok _ [] Hend Hok). simpl.
    unfold ret, stream_text, after_request.
    destruct (concat (fragments (lines resp))); reflexivity.
  - intros H.
    destruct (@stream_loop_raises (lines resp) (broken resp) [] H) as [e He].
    rewrite He. exists e. reflexivity.
Qed.

(** *** The title *)

Lemma trimmed_ext (p q : N -> bool) (s r : str) :
  (forall c, p c = q c) -> trimmed p s r -> trimmed q s r.
Proof.
  intros Hpq (pre & post & Hs & Hpre & Hpost & Hhd & Hlast).
  exists pre, post; repeat split; auto.
  - rewrite forallb_forall in *; intros x Hx; rewrite <- Hpq; auto.
  - rewrite forallb_forall in *; intros x Hx; rewrite <- Hpq; auto.
  - intros c r' H; rewrite <- Hpq; eauto.
  - intros c r' H; rewrite <- Hpq; eauto.
Qed.

(** The two messages of the title request. *)
Definition title_messages (first_message : str) : list api_message :=
  [ {| role := lit "system"; api_content := title_prompt |};
    {| role := lit "user"; api_content := first_message |} ].

(** A title cut to the length bound: one of more than 50 code points is
    replaced by its first 47 followed by three dots. *)
Definition shortened (t : str) : str :=
  if (50 <? length t)%nat then firstn 47 t ++ lit "..." else t.

(** The post-processing the claim describes: after the cut, one
    leading and one trailing quote character, of either style, is
    removed. *)
Definition is_quote (c : N) : bool :=
  ((c =? double_quote) || (c =? single_quote))%N.

Definition drop_one_quote (s : str) : str :=
  match s with
  | c :: s' => if is_quote c then s' else s
  | [] => []
  end.

Definition claimed_title (t : str) : str :=
  rev (drop_one_quote (rev (drop_one_quote (shortened t)))).

(** C5, amended. [generate_chat_title] returns and does not raise.
    The completion call it makes is [generate_response] on the two
    messages of the title request, which returns a text [t]; the title is
    [t], cut to its first 47 code points followed by three dots if it is
    longer than 50, with every leading and trailing double quote removed
    and then every leading and trailing single quote removed.  The world
    is the one the completion call leaves. *)
Theorem generate_chat_title_postprocess (first_message : str) (w : world) :
  exists t w' mid r,
    generate_response env self (title_messages first_message) false w
    = (Ok t, w')
    /\ generate_chat_title env self first_message w = (Ok r, w')
    /\ trimmed (N.eqb double_quote) (shortened t) mid
    /\ trimmed (N.eqb single_quote) mid r.
Proof.
  unfold generate_chat_title, generate_chat_title_with, try_except, bind.
  fold (title_messages first_message).
  assert (Hret : exists t w',
             generate_response env self (title_messages first_message) false w
             = (Ok t, w')).
  { unfold generate_response, try_except.
    destruct (api_key self); [unfold ret; eauto|].
    match goal with |- context [let (_, _) := ?c in _] =>
      destruct c as [[t|e] w'] end; [eauto|].
    destruct (is_timeout e); [unfold ret; eauto|].
    destruct (is_request_error e); unfold ret; eauto. }
  destruct Hret as (t & w' & Hret). rewrite Hret.
  exists t, w', (strip_chars [double_quote] (shortened t)), (finish_title t).
  split; [reflexivity|]. split; [reflexivity|]. split.
  - eapply trimmed_ext; [|apply strip_by_trimmed].
    intros c; simpl. rewrite orb_false_r. apply N.eqb_sym.
  - eapply trimmed_ext; [|apply strip_by_trimmed].
    intros c; simpl. rewrite orb_false_r. apply N.eqb_sym.
Qed.

(** [generate_chat_title] itself never raises. *)
Corollary generate_chat_title_never_raises (first_message : str) (w : world) :
  exists r w', generate_chat_title env self first_message w = (Ok r, w').
Proof.
  unfold generate_chat_title, generate_chat_title_with, try_except, bind.
  destruct (generate_response env self _ false w) as [[t|e] w'];
    unfold ret; eauto.
Qed.

End Client.

(* ================================================================== *)
(** * Concrete runs of the completion client *)
(* ================================================================== *)

Definition demo_settings : Settings :=
  {| openrouter_api_key := lit "sk-or-demo";
     openrouter_model := lit "anthropic/claude-3.5-sonnet";
     openrouter_base_url := lit "https://openrouter.ai/api/v1";
     site_url := lit "http://localhost:3000" |}.

Definition demo_service : OpenRouterService :=
  OpenRouterService_init demo_settings.

Definition empty_db : database :=
  {| users := []; sessions := []; messages := [] |}.

Definition fresh_world : world :=
  {| db := empty_db; sent := []; clock_reads := 0 |}.

(** An environment around a given provider: the clock counts its
    readings, the decoder is [Json.loads] with a thousand levels of
    nesting left (the interpreter's default recursion limit), a token is
    valid when it is
    the subject's email after the mark [valid:], and a hash is the
    password after the mark [hash:]. *)
Definition demo_env
  (on_post : result Response) (on_stream : result StreamResponse)
  : environment :=
  {| post := fun _ _ => on_post;
     stream := fun _ _ => on_stream;
     now := fun n => Z.of_nat n;
     json_loads := Json.loads 1000;
     verify_token := fun t => if startswith t (lit "valid:")
                              then Some (slice_from 6 t) else None;
     get_password_hash := fun p => lit "hash:" ++ p |}.

Definition body_response (body : str) : result Response :=
  Ok {| status_code := 200; is_error := false; text := body |}.

Definition lines_response (ls : list str) : result StreamResponse :=
  Ok {| stream_status_code := 200; stream_is_error := false;
        lines := ls; broken := None |}.

Definition no_stream : result StreamResponse :=
  Raise (RequestError (lit "ConnectError")).

Definition no_post : result Response :=
  Raise (RequestError (lit "ConnectError")).

(** The provider times out. *)
Definition env_timeout : environment :=
  demo_env (Raise TimeoutException) (Raise TimeoutException).

Lemma generate_response_never_raises_witness :
  api_key demo_service <> []
  /\ completion_call env_timeout demo_service [] false fresh_world
     = (Raise TimeoutException,
        after_request
          (completion_request demo_service
             (completion_payload demo_service [] false)) fresh_world)
  /\ generate_response env_timeout demo_service [] false fresh_world
     = (Ok timeout_text,
        after_request
          (completion_request demo_service
             (completion_payload demo_service [] false)) fresh_world).
Proof.
  assert (Hkey : api_key demo_service <> []) by discriminate.
  split; [exact Hkey|]. split; [reflexivity|].
  exact (proj1 (proj2 (proj2 (generate_response_never_raises
                                env_timeout demo_service [] false fresh_world))
                      Hkey TimeoutException _ eq_refl)
               eq_refl).
Defined.

(** A client that refuses the set-valued [HTTP-Referer] header raises
    before anything is sent; the reply is then the generic text. *)
Example refused_header_degrades :
  fst (generate_response (demo_env (Raise TypeError) (Raise TypeError))
         demo_service [] false fresh_world)
  = Ok unexpected_error_text.
Proof. reflexivity. Qed.

(** The provider answers with one choice. *)
Definition env_hello : environment :=
  demo_env
    (body_response
       (dq "{`id`: `gen-1`, `choices`: [{`message`: {`role`: `assistant`, `content`: `  Hello there.\n`}}]}"))
    no_stream.

Example generate_response_hello :
  fst (generate_response env_hello demo_service [] false fresh_world)
  = Ok (lit "Hello there.").
Proof. vm_compute. reflexivity. Qed.

(** The provider answers with an object that has no choices. *)
Definition env_error_object : environment :=
  demo_env
    (body_response (dq "{`error`: {`code`: 429, `message`: `Rate limited`}}"))
    no_stream.

Lemma get_complete_response_extracts_witness :
  (exists r,
      trimmed isspace (lit "  Hello there." ++ [10%N]) r
      /\ _get_complete_response env_hello demo_service
           (completion_payload demo_service [] false) fresh_world
         = (Ok r, after_request
                    (completion_request demo_service
                       (completion_payload demo_service [] false))
                    fresh_world)
      /\ generate_response env_hello demo_service [] false fresh_world
         = (Ok r, after_request
                    (completion_request demo_service
                       (completion_payload demo_service [] false))
                    fresh_world))
  /\ generate_response env_error_object demo_service [] false fresh_world
     = (Ok unexpected_format_text,
        after_request
          (completion_request demo_service
             (completion_payload demo_service [] false)) fresh_world).
Proof.
  assert (Hkey : api_key demo_service <> []) by discriminate.
  split.
  - exact (proj1 (@get_complete_response_extracts env_hello demo_service
                    [] fresh_world _ Hkey eq_refl eq_refl)
                 (VDict
                    [(lit "id", VStr (lit "gen-1"));
                     (lit "choices",
                      VList
                        [VDict
                           [(lit "message",
                             VDict
                               [(lit "role", VStr (lit "assistant"));
                                (lit "content",
                                 VStr (lit "  Hello there." ++ [10%N]))])]])])
                 eq_refl).
  - exact (proj2 (proj1 (@get_complete_response_extracts env_error_object
                           demo_service [] fresh_world _ Hkey eq_refl eq_refl)
                        (VDict
                           [(lit "error",
                             VDict [(lit "code", VInt 429);
                                    (lit "message",
                                     VStr (lit "Rate limited"))])])
                        eq_refl)).
Defined.

(** The provider answers a success status with the body [null], and
    with a choice that has no message. *)
Definition env_null_body : environment :=
  demo_env (body_response (lit "null")) no_stream.

Definition env_bare_choice : environment :=
  demo_env (body_response (dq "{`choices`: [{}]}")) no_stream.

(** C3 as stated fails.  The body [null] of a success response has no
    choices field, yet the client raises on it, and what
    [generate_response] returns is the generic error text, not the
    "unexpected response format" text.  On the body with a choice
    without a message the client raises as well, where the claim has it
    extract a content. *)
Lemma success_body_can_make_the_client_raise :
  json_loads env_null_body (lit "null") = Ok VNone
  /\ fst (_get_complete_response env_null_body demo_service
            (completion_payload demo_service [] false) fresh_world)
     = Raise TypeError
  /\ fst (generate_response env_null_body demo_service [] false fresh_world)
     = Ok unexpected_error_text
  /\ fst (generate_response env_null_body demo_service [] false fresh_world)
     <> Ok unexpected_format_text
  /\ fst (_get_complete_response env_bare_choice demo_service
            (completion_payload demo_service [] false) fresh_world)
     = Raise KeyError
  /\ fst (generate_response env_bare_choice demo_service [] false fresh_world)
     = Ok unexpected_error_text.
Proof.
  repeat split; try (vm_compute; reflexivity).
  vm_compute. intros H; discriminate H.
Qed.

(** The provider streams two fragments between a comment line, an empty
    line and an event that does not decode, then the end marker, then one
    more event. *)
Definition hello_lines : list str :=
  [ lit ": OPENROUTER PROCESSING";
    dq "data: {`choices`: [{`index`: 0, `delta`: {`role`: `assistant`, `content`: `Hel`}}]}";
    lit "";
    lit "data: {not json";
    dq "data: {`choices`: [{`index`: 0, `delta`: {`content`: `lo`}}]}";
    dq "data: {`choices`: [{`index`: 0, `delta`: {}, `finish_reason`: `stop`}]}";
    lit "data: [DONE]";
    dq "data: {`choices`: [{`delta`: {`content`: ` never read`}}]}" ].

Definition env_stream_hello : environment :=
  demo_env no_post (lines_response hello_lines).

Example fragments_hello :
  fragments env_stream_hello hello_lines = [lit "Hel"; lit "lo"].
Proof. vm_compute. reflexivity. Qed.

(** The same two fragments among events of other shapes that the loop
    gets past without a word: an empty array, a text, an object whose
    choices is an empty object, and deltas that are an array and a
    text. *)
Definition mixed_lines : list str :=
  [ lit "data: []";
    dq "data: {`choices`: [{`index`: 0, `delta`: {`role`: `assistant`, `content`: `Hel`}}]}";
    dq "data: `text`";
    lit "data: {not json";
    dq "data: {`choices`: {}}";
    dq "data: {`choices`: [{`delta`: []}]}";
    dq "data: {`choices`: [{`index`: 0, `delta`: {`content`: `lo`}}]}";
    dq "data: {`choices`: [{`delta`: `abc`}]}";
    lit "data: [DONE]" ].

Definition env_stream_mixed : environment :=
  demo_env no_post (lines_response mixed_lines).

(** The second event is an integer of 4301 digits. *)
Definition long_integer_lines : list str :=
  [ dq "data: {`choices`: [{`delta`: {`content`: `Hel`}}]}";
    lit "data: " ++ repeat 49%N 4301;
    dq "data: {`choices`: [{`delta`: {`content`: `lo`}}]}";
    lit "data: [DONE]" ].

Definition env_stream_long_integer : environment :=
  demo_env no_post (lines_response long_integer_lines).

(** The second event has a null content. *)
Definition null_delta_lines : list str :=
  [ dq "data: {`choices`: [{`delta`: {`role`: `assistant`, `content`: `Hel`}}]}";
    dq "data: {`choices`: [{`delta`: {`content`: null}}]}";
    dq "data: {`choices`: [{`delta`: {`content`: `lo`}}]}";
    lit "data: [DONE]" ].

Definition env_stream_null : environment :=
  demo_env no_post (lines_response null_delta_lines).

(** A stream with an event nested deeper than the decoder goes. *)
Definition deep_lines : list str :=
  [ dq "data: {`choices`: [{`delta`: {`content`: `Hel`}}]}";
    lit "data: " ++ repeat 91%N 1001 ++ repeat 93%N 1001;
    lit "data: [DONE]" ].

Definition env_stream_deep : environment :=
  demo_env no_post (lines_response deep_lines).

Lemma stream_response_accumulates_witness :
  _stream_response env_stream_mixed demo_service
    (completion_payload demo_service [] true) fresh_world
  = (Ok (lit "Hello"),
     after_request (completion_request demo_service
                      (completion_payload demo_service [] true)) fresh_world)
  /\ exists e,
       _stream_response env_stream_long_integer demo_service
         (completion_payload demo_service [] true) fresh_world
       = (Raise e,
          after_request (completion_request demo_service
                           (completion_payload demo_service [] true))
                        fresh_world).
Proof.
  split.
  - refine (proj1 (@stream_response_accumulates env_stream_mixed demo_service
                     (completion_payload demo_service [] true) fresh_world
                     _ eq_refl eq_refl) _ (or_introl eq_refl)).
    vm_compute; reflexivity.
  - refine (proj2 (@stream_response_accumulates env_stream_long_integer
                     demo_service
                     (completion_payload demo_service [] true) fresh_world
                     _ eq_refl eq_refl) (or_introl _)).
    vm_compute; reflexivity.
Defined.

(** What the deep event does: the decoder raises [RecursionError], the
    loop does not catch it, and the fragment read before is lost. *)
Example deep_event_is_not_skipped :
  fst (_stream_response env_stream_deep demo_service
         (completion_payload demo_service [] true) fresh_world)
  = Raise RecursionError
  /\ fst (generate_response env_stream_deep demo_service [] true fresh_world)
     = Ok unexpected_error_text.
Proof. split; vm_compute; reflexivity. Qed.

(** The provider streams a fragment that begins with a space. *)
Definition spaced_lines : list str :=
  [ dq "data: {`choices`: [{`delta`: {`content`: ` Hi`}}]}";
    lit "data: [DONE]" ].

Definition env_stream_spaced : environment :=
  demo_env no_post (lines_response spaced_lines).

(** C4 as stated fails, in three ways.  The only fragment of the first
    stream is [ Hi], space included, so the concatenation is [ Hi], but
    the text returned is [Hi].  The second event of the second stream is
    an integer the decoder does not parse; the event is not skipped, and
    instead of the fragments around it the call gives the decoder's
    [ValueError].  The second event of the third stream parses and has a
    null content; instead of the fragments around it the call gives a
    [TypeError]. *)
Lemma stream_response_not_plain_concatenation :
  (fragments env_stream_spaced spaced_lines = [lit " Hi"]
   /\ claimed_stream_text env_stream_spaced spaced_lines = lit " Hi"
   /\ fst (_stream_response env_stream_spaced demo_service
             (completion_payload demo_service [] true) fresh_world)
      = Ok (lit "Hi")
   /\ fst (_stream_response env_stream_spaced demo_service
             (completion_payload demo_service [] true) fresh_world)
      <> Ok (claimed_stream_text env_stream_spaced spaced_lines))
  /\ (json_loads env_stream_long_integer (repeat 49%N 4301) = Raise ValueError
      /\ claimed_stream_text env_stream_long_integer long_integer_lines
         = lit "Hello"
      /\ fst (_stream_response env_stream_long_integer demo_service
                (completion_payload demo_service [] true) fresh_world)
         = Raise ValueError)
  /\ (claimed_stream_text env_stream_null null_delta_lines = lit "Hello"
      /\ fst (_stream_response env_stream_null demo_service
                (completion_payload demo_service [] true) fresh_world)
         = Raise TypeError).
Proof.
  repeat split; try (vm_compute; reflexivity).
  vm_compute. intros H; discriminate H.
Qed.

(** The provider returns a title wrapped in two pairs of double quotes. *)
Definition env_quoted_title : environment :=
  demo_env
    (body_response
       (dq "{`choices`: [{`message`: {`content`: `\`\`Hi\`\``}}]}"))
    no_stream.

Example quoted_title_returned :
  fst (generate_response env_quoted_title demo_service
         (title_messages (lit "Hi there")) false fresh_world)
  = Ok (dq "``Hi``").
Proof. vm_compute. reflexivity. Qed.

(** C5 as stated fails.  With one quote removed from each end the
    title would keep its inner pair of quotes, but every quote is
    removed.  And when the provider call fails, here with a time-out,
    the title is not the default one: it is the apology of
    [generate_response], cut to the length bound. *)
Lemma chat_title_strips_more_than_one_quote :
  claimed_title (dq "``Hi``") = dq "`Hi`"
  /\ fst (generate_chat_title env_quoted_title demo_service (lit "Hi there")
            fresh_world)
     = Ok (lit "Hi")
  /\ fst (generate_chat_title env_quoted_title demo_service (lit "Hi there")
            fresh_world)
     <> Ok (claimed_title (dq "``Hi``"))
  /\ fst (completion_call env_timeout demo_service
            (title_messages (lit "Hi there")) false fresh_world)
     = Raise TimeoutException
  /\ fst (generate_chat_title env_timeout demo_service (lit "Hi there")
            fresh_world)
     = Ok (lit "I apologize, but I'm taking too long to respond...")
  /\ fst (generate_chat_title env_timeout demo_service (lit "Hi there")
            fresh_world)
     <> Ok default_title.
Proof.
  repeat split; try (vm_compute; reflexivity);
    vm_compute; intros H; discriminate H.
Qed.

(** A title of 60 code points, in single quotes. *)
Definition env_long_title : environment :=
  demo_env
    (body_response
       (dq "{`choices`: [{`message`: {`content`: `'A very long generated title that goes on and on and on and'`}}]}"))
    no_stream.

Example long_title_finished :
  fst (generate_chat_title env_long_title demo_service (lit "Hi there")
         fresh_world)
  = Ok (lit "A very long generated title that goes on and o...").
Proof. vm_compute. reflexivity. Qed.

Lemma generate_chat_title_postprocess_witness :
  exists t w' mid r,
    generate_response env_long_title demo_service
      (title_messages (lit "Hi there")) false fresh_world
    = (Ok t, w')
    /\ generate_chat_title env_long_title demo_service (lit "Hi there")
         fresh_world
       = (Ok r, w')
    /\ trimmed (N.eqb double_quote) (shortened t) mid
    /\ trimmed (N.eqb single_quote) mid r.
Proof.
  exact (generate_chat_title_postprocess env_long_title demo_service
           (lit "Hi there") fresh_world).
Defined.

(* ================================================================== *)
(** * The repository *)
(* ================================================================== *)

Section Ordering.

Context {A : Type} (key : A -> Z).

(** [a] is not newer than [b]. *)
Definition key_le (a b : A) : Prop := (key a <= key b)%Z.

Lemma insert_asc_perm (x : A) (l : list A) :
  Permutation (insert_asc key x l) (x :: l).
Proof.
  induction l as [|y l IH]; simpl; auto.
  destruct (key x <=? key y)%Z; auto.
  rewrite IH. apply perm_swap.
Qed.

Lemma order_by_asc_perm (l : list A) : Permutation (order_by_asc key l) l.
Proof.
  induction l as [|x l IH]; simpl; auto.
  rewrite insert_asc_perm. now constructor.
Qed.

Lemma insert_asc_sorted (x : A) (l : list A) :
  Sorted key_le l -> Sorted key_le (insert_asc key x l).
Proof.
  induction 1 as [|y l Hs IH Hhd]; simpl.
  - repeat constructor.
  - destruct (Z.leb_spec (key x) (key y)) as [Hle|Hlt].
    + repeat constructor; auto.
    + constructor; auto.
      destruct l as [|z l]; simpl in *.
      * constructor. unfold key_le; lia.
      * destruct (key x <=? key z)%Z;
          constructor; unfold key_le; try lia.
        now inversion Hhd.
Qed.

Lemma order_by_asc_sorted (l : list A) : Sorted key_le (order_by_asc key l).
Proof.
  induction l as [|x l IH]; simpl.
  - constructor.
  - now apply insert_asc_sorted.
Qed.

(** Rows already in order are returned as they are. *)
Lemma order_by_asc_id (l : list A) :
  StronglySorted key_le l -> order_by_asc key l = l.
Proof.
  induction 1 as [|x l Hs IH Hall]; simpl; auto.
  rewrite IH. destruct l as [|y l]; simpl; auto.
  inversion Hall as [|? ? Hxy _]; subst.
  unfold key_le in Hxy. now apply Z.leb_le in Hxy as ->.
Qed.

End Ordering.

Section Repository.

Variable env : environment.

(** The session with a given id, as the store finds it. *)
Definition session_of (d : database) (sid : Z) : option ChatSession :=
  find (fun s => Z.eqb (session_id s) sid) (sessions d).

(** The messages of a session, in table order. *)
Definition rows_of (d : database) (sid : Z) : list ChatMessage :=
  filter (fun m => Z.eqb (message_session_id m) sid) (messages d).

(** The row [add_message_to_session] inserts in world [w]. *)
Definition new_message (sid : Z) (c sender : str) (w : world) : ChatMessage :=
  {| message_id := fresh_id (map message_id (messages (db w)));
     message_session_id := sid;
     content := c;
     sender_type := sender;
     created_at := now env (clock_reads w) |}.

(** One append, step by step: the row goes to the end of the table, no
    other table row changes except the [updated_at] of the parent session
    when there is one, and the clock has been read once or twice. *)
Lemma add_message_to_session_run (sid : Z) (c sender : str) (w : world) :
  exists w',
    add_message_to_session env sid c sender w
    = (Ok (new_message sid c sender w), w')
    /\ messages (db w') = messages (db w) ++ [new_message sid c sender w]
    /\ users (db w') = users (db w)
    /\ sent w' = sent w
    /\ (clock_reads w < clock_reads w')%nat
    /\ sessions (db w')
       = match session_of (db w) sid with
         | Some _ =>
             update_first (fun s => Z.eqb (session_id s) sid)
               (set_updated_at (now env (S (clock_reads w)))) (sessions (db w))
         | None => sessions (db w)
         end.
Proof.
  unfold add_message_to_session, bind, get_db, func_now, put_db,
    get_session_by_id, ret, session_of, new_message; simpl.
  destruct (find (fun s => Z.eqb (session_id s) sid) (sessions (db w)));
    simpl; eexists; repeat split; simpl; auto.
Qed.

Lemma find_update_first {A} (p : A -> bool) (f : A -> A) (l : list A) (x : A) :
  (forall y, p (f y) = p y) ->
  find p l = Some x -> find p (update_first p f l) = Some (f x).
Proof.
  intros Hp. induction l as [|y l IH]; simpl; [discriminate|].
  destruct (p y) eqn:Hy.
  - intros [= ->]. simpl. now rewrite Hp, Hy.
  - intros H. simpl. rewrite Hy. auto.
Qed.

(** Appending the listed contents and roles one after the other. *)
Fixpoint add_messages (sid : Z) (items : list (str * str))
  : M (list ChatMessage) :=
  match items with
  | [] => ret []
  | (c, sender) :: rest =>
      m <- add_message_to_session env sid c sender ;;
      ms <- add_messages sid rest ;;
      ret (m :: ms)
  end.

(** The rows a run of appends leaves: they are at the end of the table
    in the order of the appends, they carry the given contents and roles,
    and their creation times are clock readings taken in that order. *)
Lemma add_messages_run (sid : Z) (items : list (str * str)) (w : world) :
  exists ms w' ks,
    add_messages sid items w = (Ok ms, w')
    /\ messages (db w') = messages (db w) ++ ms
    /\ map (fun m => (content m, sender_type m)) ms = items
    /\ Forall (fun m => message_session_id m = sid) ms
    /\ (clock_reads w <= clock_reads w')%nat
    /\ map created_at ms = map (now env) ks
    /\ StronglySorted lt ks
    /\ Forall (fun k => (clock_reads w <= k)%nat) ks.
Proof.
  revert w; induction items as [|[c sender] rest IH]; intros w.
  - exists [], w, []; simpl; unfold ret; repeat split;
      auto using app_nil_r; constructor.
  - destruct (add_message_to_session_run sid c sender w)
      as (w1 & Hrun & Hmsgs & _ & _ & Hclk & _).
    destruct (IH w1) as (ms & w' & ks & Hrest & Hm' & Hmap & Hsid & Hc' & Hk & Hks & Hge).
    exists (new_message sid c sender w :: ms), w', (clock_reads w :: ks).
    simpl. unfold bind. rewrite Hrun, Hrest. unfold ret.
    repeat split; simpl; auto.
    + rewrite Hm', Hmsgs, <- app_assoc. reflexivity.
    + now rewrite Hmap.
    + lia.
    + now rewrite Hk.
    + constructor; auto.
      eapply Forall_impl; [|exact Hge]. simpl; intros; lia.
    + constructor; auto.
      eapply Forall_impl; [|exact Hge]. simpl; intros; lia.
Qed.

Lemma filter_all {A} (p : A -> bool) (l : list A) :
  Forall (fun x => p x = true) l -> filter p l = l.
Proof.
  induction 1 as [|x l Hx _ IH]; simpl; auto. now rewrite Hx, IH.
Qed.

Lemma filter_none {A} (p : A -> bool) (l : list A) :
  (forall x, In x l -> p x = false) -> filter p l = [].
Proof.
  induction l as [|x l IH]; simpl; auto.
  intros H. rewrite (H x) by auto. auto.
Qed.

Lemma readings_in_order (ks : list nat) :
  (forall i j, (i < j)%nat -> (now env i < now env j)%Z) ->
  StronglySorted lt ks ->
  forall ms : list ChatMessage,
    map created_at ms = map (now env) ks ->
    StronglySorted (key_le created_at) ms.
Proof.
  intros Hmono. induction 1 as [|k ks Hs IH Hall]; intros [|m ms] Hmap;
    simpl in *; try discriminate; constructor.
  - apply IH. now injection Hmap.
  - injection Hmap as Hm Hms.
    apply Forall_forall. intros m' Hin.
    apply (in_map created_at) in Hin. rewrite Hms in Hin.
    apply in_map_iff in Hin as (k' & Hk' & Hin').
    unfold key_le. rewrite Hm, <- Hk'. apply Z.lt_le_incl, Hmono.
    rewrite Forall_forall in Hall. exact (Hall _ Hin').
Qed.

(** C8. For a session that has no message yet and any N contents and
    roles appended to it one after the other: every append returns, and
    the listing that follows returns exactly the N appended rows, with
    the given contents and roles, sorted by creation time, oldest first
    (which is the order of the appends when the clock advances between
    its readings).  In every world, an append to an existing session
    stamps the new row with one reading of the clock and sets that
    session's [updated_at] to the next reading, the one taken for it; the
    session keeps its id, owner, title and creation time. *)
Theorem appended_messages_are_listed
  (sid : Z) (items : list (str * str)) (w : world) :
  ((forall m, In m (messages (db w)) -> message_session_id m <> sid) ->
   exists ms w' listed,
     add_messages sid items w = (Ok ms, w')
     /\ get_session_messages sid w' = (Ok listed, w')
     /\ map (fun m => (content m, sender_type m)) ms = items
     /\ Permutation listed ms
     /\ length listed = length items
     /\ Sorted (key_le created_at) listed
     /\ ((forall i j, (i < j)%nat -> (now env i < now env j)%Z) ->
         listed = ms))
  /\ (forall c sender s,
         session_of (db w) sid = Some s ->
         exists m w1 s',
           add_message_to_session env sid c sender w = (Ok m, w1)
           /\ content m = c /\ sender_type m = sender
           /\ message_session_id m = sid
           /\ created_at m = now env (clock_reads w)
           /\ session_of (db w1) sid = Some s'
           /\ updated_at s' = now env (S (clock_reads w))
           /\ session_id s' = session_id s
           /\ session_user_id s' = session_user_id s
           /\ title s' = title s
           /\ session_created_at s' = session_created_at s).
Proof.
  split.
  - intros Hempty.
    destruct (add_messages_run sid items w)
      as (ms & w' & ks & Hrun & Hmsgs & Hmap & Hsid & _ & Hk & Hks & _).
    assert (Hrows : rows_of (db w') sid = ms).
    { unfold rows_of. rewrite Hmsgs, filter_app, filter_none, filter_all; auto.
      - eapply Forall_impl; [|exact Hsid]. simpl; intros m ->. apply Z.eqb_refl.
      - intros m Hin. apply Z.eqb_neq. auto. }
    exists ms, w', (order_by_asc created_at ms).
    repeat split; auto.
    + unfold get_session_messages, bind, get_db, ret.
      fold (rows_of (db w') sid). now rewrite Hrows.
    + apply order_by_asc_perm.
    + rewrite <- Hmap, length_map.
      apply Permutation_length, order_by_asc_perm.
    + apply order_by_asc_sorted.
    + intros Hmono. apply order_by_asc_id.
      eapply readings_in_order; eauto.
  - intros c sender s Hs.
    destruct (add_message_to_session_run sid c sender w)
      as (w1 & Hrun & _ & _ & _ & _ & Hsess).
    exists (new_message sid c sender w), w1,
      (set_updated_at (now env (S (clock_reads w))) s).
    split; [exact Hrun|]. do 4 (split; [reflexivity|]).
    split; [|repeat split].
    unfold session_of in *. rewrite Hs in Hsess. rewrite Hsess.
    apply find_update_first; auto.
Qed.

(** The user stored under an email, as the store finds it. *)
Definition user_of (d : database) (e : str) : option User :=
  find (fun u => PyStr.eqb (email u) e) (users d).

Lemma user_of_none (d : database) (e : str) :
  (forall x, In x (users d) -> email x <> e) -> user_of d e = None.
Proof.
  intros H. unfold user_of.
  destruct (find _ (users d)) as [x|] eqn:Hf; auto.
  apply find_some in Hf as [Hin Heq].
  apply str_eqb_eq in Heq. now apply H in Hin.
Qed.

Lemma existsb_email_none (d : database) (e : str) :
  (forall x, In x (users d) -> email x <> e) ->
  existsb (fun u => PyStr.eqb (email u) e) (users d) = false.
Proof.
  intros H. destruct (existsb _ (users d)) eqn:Hex; auto.
  apply existsb_exists in Hex as (x & Hin & Heq).
  apply str_eqb_eq in Heq. now apply H in Hin.
Qed.

Lemma find_app_last {A} (p : A -> bool) (l : list A) (x : A) :
  find p l = None -> p x = true -> find p (l ++ [x]) = Some x.
Proof.
  induction l as [|y l IH]; simpl.
  - now intros _ ->.
  - destruct (p y); [discriminate|auto].
Qed.

(** C9. A registration whose email is not stored yet succeeds and adds
    exactly one user row, carrying the email, the name and the hash of
    the password, and leaves the other tables alone; a registration with
    the same email that follows fails with status 400 and the detail
    "Email already registered", and leaves the world as it was. *)
Theorem register_once (u u2 : UserCreate) (w : world) :
  (forall x, In x (users (db w)) -> email x <> uc_email u) ->
  uc_email u2 = uc_email u ->
  exists new w1,
    register env u w
    = (Ok {| success := true;
             message := lit "User registered successfully";
             data := Some (VDict [ (lit "user_id", VInt (user_id new));
                                   (lit "email", VStr (uc_email u)) ]) |},
       w1)
    /\ users (db w1) = users (db w) ++ [new]
    /\ email new = uc_email u
    /\ name new = uc_name u
    /\ hashed_password new = get_password_hash env (uc_password u)
    /\ sessions (db w1) = sessions (db w)
    /\ messages (db w1) = messages (db w)
    /\ register env u2 w1
       = (Raise (HTTPException 400 (lit "Email already registered")), w1).
Proof.
  intros Hfresh Hsame.
  pose (new := {| user_id := fresh_id (map user_id (users (db w)));
                  email := uc_email u;
                  name := uc_name u;
                  hashed_password := get_password_hash env (uc_password u);
                  is_active := true;
                  user_created_at := now env (clock_reads w) |}).
  assert (Hnone : find (fun x => PyStr.eqb (email x) (uc_email u))
                       (users (db w)) = None)
    by (apply (@user_of_none (db w) (uc_email u)); assumption).
  exists new.
  exists {| db := {| users := users (db w) ++ [new];
                     sessions := sessions (db w);
                     messages := messages (db w) |};
            sent := sent w;
            clock_reads := S (clock_reads w) |}.
  split; [|split; [reflexivity|split; [reflexivity|split; [reflexivity|
    split; [reflexivity|split; [reflexivity|split; [reflexivity|]]]]]]].
  - cbv [register guarded try_except bind get_user_by_email get_db ret].
    rewrite Hnone.
    cbv [create_user bind get_db func_now lift insert_user].
    cbn [email db users]. rewrite existsb_email_none by assumption.
    cbv [put_db ret]. fold new. reflexivity.
  - cbv [register guarded try_except bind get_user_by_email get_db ret].
    cbn [db users]. rewrite Hsame.
    rewrite (find_app_last _ (users (db w)) new Hnone (str_eqb_refl _)).
    reflexivity.
Qed.

End Repository.

(* ================================================================== *)
(** * The request handlers *)
(* ================================================================== *)

Section Handlers.

Variable env : environment.
Variable svc : OpenRouterService.

Lemma get_session_by_id_run (sid : Z) (w : world) :
  get_session_by_id sid w = (Ok (session_of (db w) sid), w).
Proof. reflexivity. Qed.

Lemma get_user_by_email_run (e : str) (w : world) :
  get_user_by_email e w = (Ok (user_of (db w) e), w).
Proof. reflexivity. Qed.

Lemma bind_run {A B} (c : M A) (k : A -> M B) (w w' : world) (a : A) :
  c w = (Ok a, w') -> bind c k w = k a w'.
Proof. intros H. unfold bind. now rewrite H. Qed.

Lemma bind_raise {A B} (c : M A) (k : A -> M B) (w w' : world) (e : exn) :
  c w = (Raise e, w') -> bind c k w = (Raise e, w').
Proof. intros H. unfold bind. now rewrite H. Qed.

(** *** Authentication *)

(** An outcome is unauthenticated when it is the status 401. *)
Definition unauthenticated {A} (r : result A) : Prop :=
  exists detail, r = Raise (HTTPException 401 detail).

(** C7, amended. A protected endpoint fails with status 401 and detail
    "Invalid token" when the verification of the token fails, and with
    status 404 and detail "User not found" when the subject of the token
    is the email of no stored user; in both cases the handler is not run
    and the world is unchanged.  When both steps succeed the outcome is
    that of the handler run for the user found.  The handler of
    [/auth/me], which does the two steps itself, answers alike. *)
Theorem protected_endpoint_outcomes
  {A} (handler : UserResponse -> M A) (token : str) (w : world) :
  (verify_token env token = None ->
   protected env handler token w
   = (Raise (HTTPException 401 (lit "Invalid token")), w)
   /\ get_current_user env token w
      = (Raise (HTTPException 401 (lit "Invalid token")), w))
  /\ (forall e,
         verify_token env token = Some e ->
         (forall x, In x (users (db w)) -> email x <> e) ->
         protected env handler token w
         = (Raise (HTTPException 404 (lit "User not found")), w)
         /\ get_current_user env token w
            = (Raise (HTTPException 404 (lit "User not found")), w))
  /\ (forall e usr,
         verify_token env token = Some e ->
         user_of (db w) e = Some usr ->
         protected env handler token w = handler (user_response usr) w
         /\ get_current_user env token w = (Ok (user_response usr), w)).
Proof.
  unfold protected, get_current_user, get_current_user_dependency,
    guarded, try_except.
  split; [|split].
  - intros ->. split; reflexivity.
  - intros e -> Hnone. apply user_of_none in Hnone.
    unfold bind. rewrite !get_user_by_email_run, Hnone. split; reflexivity.
  - intros e usr -> Husr.
    unfold bind. rewrite !get_user_by_email_run, Husr. split; reflexivity.
Qed.

(** *** Ownership *)

Lemma not_owned_missing (d : database) (sid : Z) (u : UserResponse) :
  (forall s, In s (sessions d) -> session_id s <> sid) ->
  not_owned (session_of d sid) u = true.
Proof.
  intros H. unfold session_of.
  destruct (find _ (sessions d)) as [s|] eqn:Hf; auto.
  apply find_some in Hf as [Hin Heq]. apply Z.eqb_eq in Heq.
  now apply H in Hin.
Qed.

Lemma not_owned_foreign (d : database) (sid : Z) (u : UserResponse)
  (s : ChatSession) :
  session_of d sid = Some s -> session_user_id s <> ur_id u ->
  not_owned (session_of d sid) u = true.
Proof.
  intros -> H. simpl. now apply Z.eqb_neq in H as ->.
Qed.

(** The four handlers of a session, when the check fails. *)
Lemma session_handlers_refuse (sid : Z) (msg : ChatMessageCreate)
  (u : UserResponse) (w : world) :
  not_owned (session_of (db w) sid) u = true ->
  get_session_messages_route sid u w = (Raise session_not_found, w)
  /\ send_message env svc sid msg u w = (Raise session_not_found, w)
  /\ send_message_stream env svc sid msg u w = (Raise session_not_found, w)
  /\ delete_chat_session sid u w = (Raise session_not_found, w).
Proof.
  intros H.
  unfold get_session_messages_route, send_message, send_message_stream,
    delete_chat_session, guarded, try_except, bind.
  rewrite !get_session_by_id_run, !H.
  repeat split; try reflexivity.
  destruct (session_of (db w) sid); reflexivity.
Qed.

(** C6. For each of the four handlers of a session (list messages, send
    message, stream message, delete session) and every caller: in a world
    where the session does not exist and in a world where it exists and
    belongs to another user, the handler fails with the same exception,
    status 404 with the detail "Chat session not found", and leaves the
    world as it was; so the two cases give identical responses, none of
    them a 403. *)
Theorem foreign_and_missing_sessions_alike
  (sid : Z) (msg : ChatMessageCreate) (u : UserResponse)
  (w_missing w_foreign : world) (s : ChatSession) :
  (forall x, In x (sessions (db w_missing)) -> session_id x <> sid) ->
  session_of (db w_foreign) sid = Some s ->
  session_user_id s <> ur_id u ->
  let not_found := HTTPException 404 (lit "Chat session not found") in
  (get_session_messages_route sid u w_missing = (Raise not_found, w_missing)
   /\ get_session_messages_route sid u w_foreign = (Raise not_found, w_foreign))
  /\ (send_message env svc sid msg u w_missing = (Raise not_found, w_missing)
      /\ send_message env svc sid msg u w_foreign = (Raise not_found, w_foreign))
  /\ (send_message_stream env svc sid msg u w_missing
      = (Raise not_found, w_missing)
      /\ send_message_stream env svc sid msg u w_foreign
         = (Raise not_found, w_foreign))
  /\ (delete_chat_session sid u w_missing = (Raise not_found, w_missing)
      /\ delete_chat_session sid u w_foreign = (Raise not_found, w_foreign)).
Proof.
  intros Hmissing Hforeign Howner not_found.
  destruct (session_handlers_refuse sid msg u w_missing
              (@not_owned_missing (db w_missing) sid u Hmissing)) as (H1 & H2 & H3 & H4).
  destruct (session_handlers_refuse sid msg u w_foreign
              (@not_owned_foreign (db w_foreign) sid u s Hforeign Howner)) as (G1 & G2 & G3 & G4).
  repeat split; assumption.
Qed.

(** *** What the completion client leaves alone *)

(** A computation that never changes the store nor reads the clock. *)
Definition keeps_store {A} (c : M A) : Prop :=
  forall w, db (snd (c w)) = db w /\ clock_reads (snd (c w)) = clock_reads w.

Lemma keeps_ret {A} (a : A) : keeps_store (ret a).
Proof. intros w; split; reflexivity. Qed.

Lemma keeps_lift {A} (r : result A) : keeps_store (lift r).
Proof. intros w; split; reflexivity. Qed.

Lemma keeps_post (r : request) : keeps_store (client_post env r).
Proof. intros w; split; reflexivity. Qed.

Lemma keeps_stream (r : request) : keeps_store (client_stream env r).
Proof. intros w; split; reflexivity. Qed.

Lemma keeps_bind {A B} (c : M A) (k : A -> M B) :
  keeps_store c -> (forall a, keeps_store (k a)) -> keeps_store (bind c k).
Proof.
  intros Hc Hk w. unfold bind. specialize (Hc w).
  destruct (c w) as [[a|e] w1]; simpl in *; auto.
  destruct (Hk a w1) as [H1 H2]. destruct Hc as [Hc1 Hc2].
  rewrite H1, H2. auto.
Qed.

Lemma keeps_try {A} (c : M A) (h : exn -> M A) :
  keeps_store c -> (forall e, keeps_store (h e)) -> keeps_store (try_except c h).
Proof.
  intros Hc Hh w. unfold try_except. specialize (Hc w).
  destruct (c w) as [[a|e] w1]; simpl in *; auto.
  destruct (Hh e w1) as [H1 H2]. destruct Hc as [Hc1 Hc2].
  rewrite H1, H2. auto.
Qed.

Ltac keeps :=
  repeat first
    [ apply keeps_ret | apply keeps_lift | apply keeps_post
    | apply keeps_stream
    | apply keeps_bind; [|intros ?]
    | apply keeps_try; [|intros ?]
    | match goal with
      | |- keeps_store (if ?b then _ else _) => destruct b
      | |- keeps_store (match ?x with _ => _ end) => destruct x
      end ].

Lemma keeps_generate_response (msgs : list api_message) (streaming : bool) :
  keeps_store (generate_response env svc msgs streaming).
Proof.
  unfold generate_response, _stream_response, _get_complete_response. keeps.
Qed.

(** [generate_response] returns a text and leaves the store alone. *)
Lemma generate_response_run (msgs : list api_message) (streaming : bool)
  (w : world) :
  exists t w',
    generate_response env svc msgs streaming w = (Ok t, w')
    /\ db w' = db w /\ clock_reads w' = clock_reads w.
Proof.
  destruct (keeps_generate_response msgs streaming w) as [Hdb Hclk].
  destruct (api_key svc) as [|c k] eqn:Hkey.
  - exists not_configured_text, w. unfold generate_response.
    rewrite Hkey. auto.
  - revert Hdb Hclk.
    rewrite generate_response_unfold by congruence.
    destruct (completion_call env svc msgs streaming w) as [[t|e] w'];
      simpl; eauto.
Qed.

Lemma update_session_title_run (sid : Z) (ttl : str) (w : world) :
  exists r w',
    update_session_title sid ttl w = (Ok r, w')
    /\ messages (db w') = messages (db w)
    /\ users (db w') = users (db w)
    /\ clock_reads w' = clock_reads w.
Proof.
  unfold update_session_title, bind. rewrite get_session_by_id_run.
  destruct (session_of (db w) sid); simpl;
    do 2 eexists; repeat split; reflexivity.
Qed.

(** The title step returns and leaves the messages alone. *)
Lemma title_step_run (sid : Z) (msg : ChatMessageCreate)
  (previous_messages : list ChatMessage) (w : world) :
  exists w',
    title_step env svc sid msg previous_messages w = (Ok tt, w')
    /\ messages (db w') = messages (db w)
    /\ clock_reads w' = clock_reads w.
Proof.
  unfold title_step.
  destruct (_ =? 1)%nat; [|exists w; auto].
  unfold try_except, bind, generate_chat_title, generate_chat_title_with,
    try_except, bind.
  destruct (generate_response_run
              (title_messages (mc_content msg)) false w)
    as (t & w1 & Hrun & Hdb & Hclk).
  unfold title_messages in Hrun. rewrite Hrun. unfold ret at 1.
  destruct (update_session_title_run sid (finish_title t) w1)
    as (r & w2 & Hup & Hm & _ & Hc).
  rewrite Hup. exists w2. unfold ret.
  rewrite Hm, Hc, Hdb, Hclk. auto.
Qed.

(** *** The role of the incoming message *)

Lemma owned_session (sid : Z) (u : UserResponse) (w : world) (s : ChatSession) :
  session_of (db w) sid = Some s -> session_user_id s = ur_id u ->
  not_owned (session_of (db w) sid) u = false.
Proof. intros -> Hu. simpl. now rewrite Hu, Z.eqb_refl. Qed.

(** What the generator does after the incoming message is stored: it
    returns frames and adds one row, the reply, with the role [bot]. *)
Lemma reply_step_run (sid : Z) (msg : ChatMessageCreate) (streaming : bool)
  (w : world) :
  exists t w2 w3,
    (previous_messages <- get_session_messages sid ;;
     title_step env svc sid msg previous_messages ;;;
     generate_response env svc (format_messages_for_api previous_messages)
                       streaming) w
    = (Ok t, w2)
    /\ messages (db w2) = messages (db w)
    /\ add_message_to_session env sid t (lit "bot") w2
       = (Ok (new_message env sid t (lit "bot") w2), w3)
    /\ messages (db w3)
       = messages (db w) ++ [new_message env sid t (lit "bot") w2].
Proof.
  unfold bind at 1. unfold get_session_messages at 1, bind at 1, get_db, ret.
  set (previous_messages := order_by_asc created_at _).
  destruct (title_step_run sid msg previous_messages w) as (w1 & Ht & Hm1 & _).
  rewrite (@bind_run _ _ _ _ _ _ _ Ht).
  destruct (generate_response_run
              (format_messages_for_api previous_messages) streaming w1)
    as (t & w2 & Hg & Hdb & _).
  rewrite Hg.
  destruct (add_message_to_session_run env sid t (lit "bot") w2)
    as (w3 & Hadd & Hm3 & _).
  exists t, w2, w3. repeat split; auto.
  - now rewrite Hdb.
  - rewrite Hm3, Hdb, Hm1. reflexivity.
Qed.

(** C10. For a request to the send-message or the stream-message
    endpoint that passes the ownership check, the row stored for the
    incoming message has the role [user] and the content of the request,
    whatever [sender_type] the request carries: the handlers return, the
    messages table afterwards is the table before followed by that row
    and by the reply of role [bot], and a request that differs only in its
    [sender_type] gives the same outcome and the same world. *)
Theorem incoming_message_is_stored_as_user
  (sid : Z) (msg : ChatMessageCreate) (u : UserResponse) (w : world)
  (s : ChatSession) :
  session_of (db w) sid = Some s ->
  session_user_id s = ur_id u ->
  let stored :=
    {| message_id := fresh_id (map message_id (messages (db w)));
       message_session_id := sid;
       content := mc_content msg;
       sender_type := lit "user";
       created_at := now env (clock_reads w) |} in
  (exists reply bot w',
      send_message env svc sid msg u w = (Ok reply, w')
      /\ messages (db w') = messages (db w) ++ [stored; bot]
      /\ sender_type bot = lit "bot")
  /\ (exists body w1,
         send_message_stream env svc sid msg u w = (Ok body, w1)
         /\ messages (db w1) = messages (db w) ++ [stored])
  /\ (exists frames bot w',
         serve (send_message_stream env svc sid msg u) w = (Ok frames, w')
         /\ messages (db w') = messages (db w) ++ [stored; bot]
         /\ sender_type bot = lit "bot")
  /\ (forall other,
         send_message env svc sid
           {| mc_content := mc_content msg; mc_sender_type := other |} u w
         = send_message env svc sid msg u w
         /\ serve (send_message_stream env svc sid
                     {| mc_content := mc_content msg;
                        mc_sender_type := other |} u) w
            = serve (send_message_stream env svc sid msg u) w).
Proof.
  intros Hs Hown stored.
  pose proof (owned_session sid u w Hs Hown) as Hcheck.
  destruct (add_message_to_session_run env sid (mc_content msg) (lit "user") w)
    as (w1 & Hadd & Hm1 & _).
  fold stored in Hadd, Hm1.
  split; [|split; [|split]].
  - destruct (reply_step_run sid msg false w1)
      as (t & w2 & w3 & Hreply & _ & Hbot & Hm3).
    exists (message_response (new_message env sid t (lit "bot") w2)),
           (new_message env sid t (lit "bot") w2), w3.
    split; [|split].
    + unfold send_message, guarded, try_except.
      rewrite (@bind_run _ _ _ _ _ _ _ (get_session_by_id_run sid w)), Hcheck.
      rewrite (@bind_run _ _ _ _ _ _ _ Hadd).
      unfold bind in Hreply |- *.
      destruct (get_session_messages sid w1) as [[pm|e] wa]; [|discriminate].
      destruct (title_step env svc sid msg pm wa) as [[[]|e] wb]; [|discriminate].
      rewrite Hreply, Hbot. reflexivity.
    + rewrite Hm3, Hm1, <- app_assoc. reflexivity.
    + reflexivity.
  - exists (generate_stream env svc sid msg), w1. split; auto.
    unfold send_message_stream, guarded, try_except.
    rewrite (@bind_run _ _ _ _ _ _ _ (get_session_by_id_run sid w)), Hcheck.
    rewrite (@bind_run _ _ _ _ _ _ _ Hadd). reflexivity.
  - destruct (reply_step_run sid msg true w1)
      as (t & w2 & w3 & Hreply & _ & Hbot & Hm3).
    exists [ DataFrame (message_id (new_message env sid t (lit "bot") w2)) t
                       (lit "bot")
                       (created_at (new_message env sid t (lit "bot") w2));
             DoneFrame ],
           (new_message env sid t (lit "bot") w2), w3.
    split; [|split].
    + unfold serve, send_message_stream, guarded, try_except.
      unfold bind at 1.
      rewrite (@bind_run _ _ _ _ _ _ _ (get_session_by_id_run sid w)), Hcheck.
      rewrite (@bind_run _ _ _ _ _ _ _ Hadd). unfold ret at 1.
      unfold generate_stream, try_except.
      unfold bind in Hreply |- *.
      destruct (get_session_messages sid w1) as [[pm|e] wa]; [|discriminate].
      destruct (title_step env svc sid msg pm wa) as [[[]|e] wb]; [|discriminate].
      rewrite Hreply, Hbot. reflexivity.
    + rewrite Hm3, Hm1, <- app_assoc. reflexivity.
    + reflexivity.
  - intros other. split; reflexivity.
Qed.

End Handlers.

(* ================================================================== *)
(** * Concrete runs of the repository and of the handlers *)
(* ================================================================== *)

Definition alice : User :=
  {| user_id := 1; email := lit "alice@example.com"; name := lit "Alice";
     hashed_password := lit "hash:wonderland"; is_active := true;
     user_created_at := 0 |}.

Definition bob : User :=
  {| user_id := 2; email := lit "bob@example.com"; name := lit "Bob";
     hashed_password := lit "hash:builder"; is_active := true;
     user_created_at := 0 |}.

(** Session 7 belongs to Bob and has no message yet. *)
Definition bobs_session : ChatSession :=
  {| session_id := 7; session_user_id := 2; title := lit "New Chat";
     session_created_at := 0; updated_at := 0 |}.

Definition world_without_sessions : world :=
  {| db := {| users := [alice; bob]; sessions := []; messages := [] |};
     sent := []; clock_reads := 0 |}.

Definition world_with_bobs_session : world :=
  {| db := {| users := [alice; bob]; sessions := [bobs_session];
              messages := [] |};
     sent := []; clock_reads := 0 |}.

Definition hi_as_bot : ChatMessageCreate :=
  {| mc_content := lit "Hi"; mc_sender_type := lit "bot" |}.

Definition not_found_404 : exn :=
  HTTPException 404 (lit "Chat session not found").

(** Alice asks for session 7, which is Bob's in one world and does not
    exist in the other. *)
Lemma foreign_and_missing_sessions_alike_witness :
  (get_session_messages_route 7 (user_response alice) world_without_sessions
   = (Raise not_found_404, world_without_sessions)
   /\ get_session_messages_route 7 (user_response alice) world_with_bobs_session
      = (Raise not_found_404, world_with_bobs_session))
  /\ (send_message env_hello demo_service 7 hi_as_bot (user_response alice)
        world_without_sessions
      = (Raise not_found_404, world_without_sessions)
      /\ send_message env_hello demo_service 7 hi_as_bot (user_response alice)
           world_with_bobs_session
         = (Raise not_found_404, world_with_bobs_session))
  /\ (send_message_stream env_hello demo_service 7 hi_as_bot
        (user_response alice) world_without_sessions
      = (Raise not_found_404, world_without_sessions)
      /\ send_message_stream env_hello demo_service 7 hi_as_bot
           (user_response alice) world_with_bobs_session
         = (Raise not_found_404, world_with_bobs_session))
  /\ (delete_chat_session 7 (user_response alice) world_without_sessions
      = (Raise not_found_404, world_without_sessions)
      /\ delete_chat_session 7 (user_response alice) world_with_bobs_session
         = (Raise not_found_404, world_with_bobs_session)).
Proof.
  refine (@foreign_and_missing_sessions_alike env_hello demo_service 7%Z
            hi_as_bot (user_response alice)
            world_without_sessions world_with_bobs_session bobs_session
            _ eq_refl _).
  - intros x [].
  - simpl. discriminate.
Defined.

(** Bob deletes his own session: the check passes. *)
Example owner_deletes :
  delete_chat_session 7 (user_response bob) world_with_bobs_session
  = (Ok {| success := true;
           message := lit "Chat session deleted successfully";
           data := None |},
     world_without_sessions).
Proof. reflexivity. Qed.

(** The three cases of a protected endpoint, on the listing of a
    session's messages. *)
Lemma protected_endpoint_outcomes_witness :
  protected env_hello (get_session_messages_route 7) (lit "expired")
            world_with_bobs_session
  = (Raise (HTTPException 401 (lit "Invalid token")), world_with_bobs_session)
  /\ protected env_hello (get_session_messages_route 7)
               (lit "valid:carol@example.com") world_with_bobs_session
     = (Raise (HTTPException 404 (lit "User not found")),
        world_with_bobs_session)
  /\ protected env_hello (get_session_messages_route 7)
               (lit "valid:bob@example.com") world_with_bobs_session
     = get_session_messages_route 7 (user_response bob) world_with_bobs_session.
Proof.
  pose proof (@protected_endpoint_outcomes env_hello _
                (get_session_messages_route 7) (lit "expired")
                world_with_bobs_session) as (H1 & _ & _).
  pose proof (@protected_endpoint_outcomes env_hello _
                (get_session_messages_route 7) (lit "valid:carol@example.com")
                world_with_bobs_session) as (_ & H2 & _).
  pose proof (@protected_endpoint_outcomes env_hello _
                (get_session_messages_route 7) (lit "valid:bob@example.com")
                world_with_bobs_session) as (_ & _ & H3).
  split; [|split].
  - exact (proj1 (H1 eq_refl)).
  - refine (proj1 (H2 (lit "carol@example.com") eq_refl _)).
    intros x [<-|[<-|[]]]; discriminate.
  - exact (proj1 (H3 (lit "bob@example.com") bob eq_refl eq_refl)).
Defined.

(** C7 as stated fails: a token that verifies, for a subject that is
    not stored, is answered with 404, which is not the unauthenticated
    outcome. *)
Lemma unresolved_subject_is_not_found :
  verify_token env_hello (lit "valid:carol@example.com")
  = Some (lit "carol@example.com")
  /\ user_of (db world_with_bobs_session) (lit "carol@example.com") = None
  /\ fst (protected env_hello (get_session_messages_route 7)
            (lit "valid:carol@example.com") world_with_bobs_session)
     = Raise (HTTPException 404 (lit "User not found"))
  /\ ~ unauthenticated
         (fst (protected env_hello (get_session_messages_route 7)
                 (lit "valid:carol@example.com") world_with_bobs_session)).
Proof.
  repeat split; try reflexivity.
  intros [detail H]. vm_compute in H. discriminate H.
Qed.

(** Two appends to Bob's empty session, then the listing. *)
Example two_appends_listed :
  let w' := snd (add_messages env_hello 7
                   [(lit "Hi", lit "user"); (lit "Hello", lit "bot")]
                   world_with_bobs_session) in
  fst (get_session_messages 7 w')
  = Ok [ {| message_id := 1; message_session_id := 7; content := lit "Hi";
            sender_type := lit "user"; created_at := 0 |};
         {| message_id := 2; message_session_id := 7; content := lit "Hello";
            sender_type := lit "bot"; created_at := 2 |} ]
  /\ session_of (db w') 7
     = Some {| session_id := 7; session_user_id := 2; title := lit "New Chat";
               session_created_at := 0; updated_at := 3 |}.
Proof. split; reflexivity. Qed.

Lemma appended_messages_are_listed_witness :
  (exists ms w' listed,
      add_messages env_hello 7
        [(lit "Hi", lit "user"); (lit "Hello", lit "bot")]
        world_with_bobs_session = (Ok ms, w')
      /\ get_session_messages 7 w' = (Ok listed, w')
      /\ map (fun m => (content m, sender_type m)) ms
         = [(lit "Hi", lit "user"); (lit "Hello", lit "bot")]
      /\ Permutation listed ms
      /\ length listed = 2%nat
      /\ Sorted (key_le created_at) listed
      /\ ((forall i j, (i < j)%nat ->
                       (now env_hello i < now env_hello j)%Z) ->
          listed = ms))
  /\ exists m w1 s',
      add_message_to_session env_hello 7 (lit "Hi") (lit "user")
        world_with_bobs_session = (Ok m, w1)
      /\ content m = lit "Hi" /\ sender_type m = lit "user"
      /\ message_session_id m = 7%Z
      /\ created_at m = 0%Z
      /\ session_of (db w1) 7 = Some s'
      /\ updated_at s' = 1%Z
      /\ session_id s' = 7%Z
      /\ session_user_id s' = 2%Z
      /\ title s' = lit "New Chat"
      /\ session_created_at s' = 0%Z.
Proof.
  assert (Hempty : forall m, In m (messages (db world_with_bobs_session)) ->
                             message_session_id m <> 7%Z)
    by (intros m []).
  split.
  - exact (proj1 (@appended_messages_are_listed env_hello 7%Z
                    [(lit "Hi", lit "user"); (lit "Hello", lit "bot")]
                    world_with_bobs_session) Hempty).
  - exact (proj2 (@appended_messages_are_listed env_hello 7%Z
                    [(lit "Hi", lit "user"); (lit "Hello", lit "bot")]
                    world_with_bobs_session)
                 (lit "Hi") (lit "user") bobs_session eq_refl).
Defined.

Definition carol_signup : UserCreate :=
  {| uc_email := lit "carol@example.com"; uc_name := lit "Carol";
     uc_password := lit "s3cret" |}.

Definition carol_again : UserCreate :=
  {| uc_email := lit "carol@example.com"; uc_name := lit "Caroline";
     uc_password := lit "other" |}.

Example carol_registers_twice :
  let (r1, w1) := register env_hello carol_signup world_without_sessions in
  let (r2, w2) := register env_hello carol_again w1 in
  r2 = Raise (HTTPException 400 (lit "Email already registered"))
  /\ w2 = w1
  /\ map email (users (db w1))
     = [lit "alice@example.com"; lit "bob@example.com"; lit "carol@example.com"].
Proof. vm_compute. repeat split; reflexivity. Qed.

Lemma register_once_witness :
  exists new w1,
    register env_hello carol_signup world_without_sessions
    = (Ok {| success := true;
             message := lit "User registered successfully";
             data := Some (VDict [ (lit "user_id", VInt (user_id new));
                                   (lit "email", VStr (lit "carol@example.com")) ]) |},
       w1)
    /\ users (db w1) = [alice; bob] ++ [new]
    /\ email new = lit "carol@example.com"
    /\ name new = lit "Carol"
    /\ hashed_password new = lit "hash:s3cret"
    /\ sessions (db w1) = []
    /\ messages (db w1) = []
    /\ register env_hello carol_again w1
       = (Raise (HTTPException 400 (lit "Email already registered")), w1).
Proof.
  refine (@register_once env_hello carol_signup carol_again
            world_without_sessions _ eq_refl).
  intros x [<-|[<-|[]]]; discriminate.
Defined.

(** Bob sends "Hi" to his session and declares himself a bot. *)
Example bob_sends_hi :
  map (fun m => (content m, sender_type m))
      (messages (db (snd (send_message env_hello demo_service 7 hi_as_bot
                            (user_response bob) world_with_bobs_session))))
  = [ (lit "Hi", lit "user"); (lit "Hello there.", lit "bot") ].
Proof. vm_compute. reflexivity. Qed.

Example bob_streams_hi :
  fst (serve (send_message_stream env_stream_hello demo_service 7 hi_as_bot
                (user_response bob)) world_with_bobs_session)
  = Ok [ DataFrame 2 (lit "Hello") (lit "bot") 2; DoneFrame ].
Proof. vm_compute. reflexivity. Qed.

Lemma incoming_message_is_stored_as_user_witness :
  let stored :=
    {| message_id := 1; message_session_id := 7; content := lit "Hi";
       sender_type := lit "user"; created_at := 0 |} in
  (exists reply bot w',
      send_message env_hello demo_service 7 hi_as_bot (user_response bob)
        world_with_bobs_session = (Ok reply, w')
      /\ messages (db w') = [] ++ [stored; bot]
      /\ sender_type bot = lit "bot")
  /\ (exists frames bot w',
         serve (send_message_stream env_hello demo_service 7 hi_as_bot
                  (user_response bob)) world_with_bobs_session
         = (Ok frames, w')
         /\ messages (db w') = [] ++ [stored; bot]
         /\ sender_type bot = lit "bot").
Proof.
  pose proof (@incoming_message_is_stored_as_user env_hello demo_service 7%Z
                hi_as_bot (user_response bob) world_with_bobs_session
                bobs_session eq_refl eq_refl) as (H1 & _ & H3 & _).
  split; [exact H1 | exact H3].
Defined.

(* ================================================================== *)
(** * Further properties of the completion client *)
(* ================================================================== *)

Section ClientRequests.

Variable env : environment.
Variable self : OpenRouterService.

(** A computation that leaves the whole world as it is. *)
Definition keeps_world {A} (c : M A) : Prop := forall w, snd (c w) = w.

Lemma keeps_world_ret {A} (a : A) : keeps_world (ret a).
Proof. intros w; reflexivity. Qed.

Lemma keeps_world_lift {A} (r : result A) : keeps_world (lift r).
Proof. intros w; reflexivity. Qed.

Lemma keeps_world_bind {A B} (c : M A) (k : A -> M B) :
  keeps_world c -> (forall a, keeps_world (k a)) -> keeps_world (bind c k).
Proof.
  intros Hc Hk w. unfold bind. specialize (Hc w).
  destruct (c w) as [[a|e] w1]; simpl in *; subst; auto. apply Hk.
Qed.

Lemma snd_bind {A B} (c : M A) (k : A -> M B) (w : world) :
  (forall a, keeps_world (k a)) -> snd (bind c k w) = snd (c w).
Proof.
  intros Hk. unfold bind. destruct (c w) as [[a|e] w1]; simpl; auto. apply Hk.
Qed.

Ltac keeps_world :=
  repeat first
    [ apply keeps_world_ret | apply keeps_world_lift
    | apply keeps_world_bind; [|intros ?]
    | match goal with
      | |- keeps_world (if ?b then _ else _) => destruct b
      | |- keeps_world (match ?x with _ => _ end) => destruct x
      end ].

Lemma get_complete_response_world (p : payload) (w : world) :
  snd (_get_complete_response env self p w)
  = after_request (completion_request self p) w.
Proof.
  unfold _get_complete_response. rewrite snd_bind; [reflexivity|].
  intros response. keeps_world.
Qed.

Lemma stream_response_world (p : payload) (w : world) :
  snd (_stream_response env self p w)
  = after_request (completion_request self p) w.
Proof.
  unfold _stream_response. rewrite snd_bind; [reflexivity|].
  intros response. keeps_world.
Qed.

(** The world after [generate_response] with a key: one request more. *)
Lemma generate_response_world
  (msgs : list api_message) (streaming : bool) (w : world) :
  api_key self <> [] ->
  snd (generate_response env self msgs streaming w)
  = after_request
      (completion_request self (completion_payload self msgs streaming)) w.
Proof.
  intros Hkey. rewrite generate_response_unfold by assumption.
  unfold completion_call.
  destruct streaming.
  - pose proof (stream_response_world (completion_payload self msgs true) w) as H.
    destruct (_stream_response env self _ w) as [[t|e] w']; simpl in *;
      rewrite H; reflexivity.
  - pose proof (get_complete_response_world
                  (completion_payload self msgs false) w) as H.
    destruct (_get_complete_response env self _ w) as [[t|e] w']; simpl in *;
      rewrite H; reflexivity.
Qed.

(** X1. With a key configured, a call of [generate_response] hands the
    client exactly one request, whether the call succeeds or fails: a POST
    to the completions URL with the service's headers, carrying the model,
    the messages as given, 2000 as token bound, the temperature 0.7 and
    the stream flag.  The store and the clock are not touched. *)
Theorem generate_response_sends_one_request
  (msgs : list api_message) (streaming : bool) (w : world) :
  api_key self <> [] ->
  snd (generate_response env self msgs streaming w)
  = {| db := db w;
       sent := {| url := base_url self ++ lit "/chat/completions";
                  headers := service_headers self;
                  json := {| p_model := model self;
                             p_messages := msgs;
                             p_max_tokens := 2000;
                             p_temperature := lit "0.7";
                             p_stream := streaming |} |} :: sent w;
       clock_reads := clock_reads w |}.
Proof.
  intros Hkey. rewrite generate_response_world by assumption. reflexivity.
Qed.

(** X2. With a key configured, an answer of the provider whose status
    [raise_for_status] refuses, on either path, and an accepted answer of
    the non-streaming path whose body does not decode (the decoder
    raises [JSONDecodeError], or any other exception that is not one of
    the transport), all give the generic error text, not the connection
    text. *)
Theorem refused_status_or_body_gives_generic_text
  (msgs : list api_message) (w : world) :
  api_key self <> [] ->
  (forall resp,
      post env (sent w)
        (completion_request self (completion_payload self msgs false)) = Ok resp ->
      is_error resp = true
      \/ (exists e, json_loads env (text resp) = Raise e
                    /\ is_request_error e = false) ->
      fst (generate_response env self msgs false w) = Ok unexpected_error_text)
  /\ (forall resp,
         stream env (sent w)
           (completion_request self (completion_payload self msgs true)) = Ok resp ->
         stream_is_error resp = true ->
         fst (generate_response env self msgs true w) = Ok unexpected_error_text).
Proof.
  intros Hkey. split.
  - intros resp Hpost Hbad.
    rewrite generate_response_unfold by assumption.
    unfold completion_call, _get_complete_response, bind, client_post, lift,
      raise_for_status, response_json.
    fold (completion_request self (completion_payload self msgs false)).
    rewrite Hpost.
    destruct (is_error resp); [reflexivity|].
    destruct Hbad as [Hbad|(e & Hbad & He)]; [discriminate|].
    rewrite Hbad. destruct e; try discriminate; reflexivity.
  - intros resp Hstream Hbad.
    rewrite generate_response_unfold by assumption.
    unfold completion_call, _stream_response, bind, client_stream, lift,
      stream_raise_for_status.
    fold (completion_request self (completion_payload self msgs true)).
    rewrite Hstream, Hbad. reflexivity.
Qed.

(** The first choice of a decoded answer carries a reply when it is an
    object whose [message] is an object whose [content] is a text. *)
Definition choice_reply (first : value) : option str :=
  match first with
  | VDict c =>
      match lookup (lit "message") c with
      | Some (VDict m) =>
          match lookup (lit "content") m with
          | Some (VStr s) => Some s
          | _ => None
          end
      | _ => None
      end
  | _ => None
  end.

Lemma choice_without_reply_raises (first : value) :
  choice_reply first = None ->
  exists e,
    rbind (Py.getitem first (lit "message")) (fun message =>
    rbind (Py.getitem message (lit "content")) Py.strip) = Raise e
    /\ is_request_error e = false.
Proof.
  unfold choice_reply.
  destruct first as [| | | | | |c]; simpl; try (eexists; split; reflexivity).
  destruct (lookup (lit "message") c) as [[| | | | | |m]|]; simpl;
    try (eexists; split; reflexivity).
  destruct (lookup (lit "content") m) as [[| | | |s| |]|]; simpl;
    try (eexists; split; reflexivity).
  discriminate.
Qed.

(** X3. With a key configured, an accepted answer whose body is an object
    with a non-empty [choices] array, but whose first choice is not an
    object with a [message] object with a text as [content] (a key is
    missing, or the content is null or not a text), gives the generic
    error text: the "unexpected response format" text is only for a
    missing or empty [choices]. *)
Theorem choice_without_text_gives_generic_text
  (msgs : list api_message) (w : world) (resp : Response)
  (kv : list (str * value)) (first : value) (rest : list value) :
  api_key self <> [] ->
  post env (sent w)
    (completion_request self (completion_payload self msgs false)) = Ok resp ->
  is_error resp = false ->
  json_loads env (text resp) = Ok (VDict kv) ->
  lookup (lit "choices") kv = Some (VList (first :: rest)) ->
  choice_reply first = None ->
  generate_response env self msgs false w
  = (Ok unexpected_error_text,
     after_request
       (completion_request self (completion_payload self msgs false)) w).
Proof.
  intros Hkey Hpost Hst Hjs Hch Hnone.
  rewrite generate_response_unfold by assumption. unfold completion_call.
  rewrite (@get_complete_response_decoded env self _ _ _ _ Hpost Hst Hjs).
  unfold extract_reply, has_choices. simpl. rewrite Hch. simpl.
  destruct (choice_without_reply_raises first Hnone) as (e & -> & He).
  destruct e; try reflexivity; discriminate.
Qed.

(** *** More on the streaming loop *)

(** A line that carries the end marker. *)
Definition is_done_line (line : str) : bool :=
  startswith line (lit "data: ")
  && PyStr.eqb (PyStr.strip (slice_from 6 line)) (lit "[DONE]").

(** The loop over lines that it gets past and that do not hold the end
    marker adds their fragments and goes on with the lines that
    follow. *)
Lemma stream_loop_app (pre rest : list str) (at_end : option exn) (acc : str) :
  has_done pre = false ->
  forallb (payload_ok env) (event_payloads pre) = true ->
  stream_loop env (pre ++ rest) at_end acc
  = stream_loop env rest at_end (acc ++ concat (fragments env pre)).
Proof.
  revert acc; induction pre as [|line pre IH]; intros acc Hnd Hok.
  - simpl. now rewrite app_nil_r.
  - unfold fragments in *.
    cbn [app stream_loop event_payloads has_done] in *.
    destruct (startswith line (lit "data: ")).
    + destruct (PyStr.eqb (PyStr.strip (slice_from 6 line)) (lit "[DONE]")).
      * discriminate.
      * cbn [flat_map andb orb forallb] in *.
        apply andb_true_iff in Hok. destruct Hok as [Hhd Hok].
        unfold payload_ok in Hhd.
        destruct (json_loads env (slice_from 6 line)) as [data|e] eqn:Hjs.
        -- rewrite (add_fragment_ok acc data Hhd).
           cbn [rbind]. rewrite (IH _ Hnd Hok).
           rewrite concat_app.
           destruct (first_delta_content data); cbn [concat app];
             now rewrite <- ?app_assoc, ?app_nil_r.
        -- destruct e; try discriminate. cbn [app]. exact (IH _ Hnd Hok).
    + cbn [andb orb] in *. apply IH; auto.
Qed.

(** X4. What follows the line of the end marker changes nothing: the
    loop over lines up to the marker, followed by anything and ended in
    any way, a broken connection included, gives what the loop over the
    lines up to the marker gives on a stream that ends there. *)
Theorem lines_after_end_marker_are_ignored
  (pre post : list str) (done_line : str) (at_end : option exn) (acc : str) :
  is_done_line done_line = true ->
  stream_loop env (pre ++ done_line :: post) at_end acc
  = stream_loop env (pre ++ [done_line]) None acc.
Proof.
  unfold is_done_line. intros Hd. apply andb_prop in Hd as [Hm He].
  revert acc; induction pre as [|line pre IH]; intros acc.
  - cbn [app stream_loop]. rewrite Hm, He. reflexivity.
  - cbn [app stream_loop].
    destruct (startswith line (lit "data: ")); [|apply IH].
    destruct (PyStr.eqb (PyStr.strip (slice_from 6 line)) (lit "[DONE]"));
      [reflexivity|].
    destruct (json_loads env (slice_from 6 line)) as [data|e];
      [|destruct e; try reflexivity; apply IH].
    destruct (add_fragment acc data); cbn [rbind]; [apply IH|reflexivity].
Qed.

Lemma strip_by_all (p : N -> bool) (s : str) :
  forallb p s = true -> strip_by p s = [].
Proof.
  intros H. unfold strip_by.
  rewrite <- (app_nil_r s), lstrip_by_app by exact H. reflexivity.
Qed.

(** X5. When the fragments of a stream add up to a text that is not
    empty but is white space only, the streaming path returns the empty
    text, not the "couldn't generate a response" text.  The stream is
    one the loop gets through: every event read is refused by the
    decoder as not JSON or decodes to a value on which the lookups do
    not raise. *)
Theorem blank_stream_gives_empty_reply
  (p : payload) (w : world) (resp : StreamResponse) :
  stream env (sent w) (completion_request self p) = Ok resp ->
  stream_is_error resp = false ->
  broken resp = None \/ has_done (lines resp) = true ->
  forallb (payload_ok env) (event_payloads (lines resp)) = true ->
  concat (fragments env (lines resp)) <> [] ->
  forallb isspace (concat (fragments env (lines resp))) = true ->
  _stream_response env self p w
  = (Ok [], after_request (completion_request self p) w).
Proof.
  intros Hs Hst Hend Hok Hne Hblank.
  unfold _stream_response, bind, client_stream, lift, stream_raise_for_status.
  fold (completion_request self p). rewrite Hs, Hst.
  rewrite (@stream_loop_ok env _ _ [] Hend Hok). simpl.
  unfold ret, after_request.
  destruct (concat (fragments env (lines resp))) as [|c t] eqn:Ht;
    [congruence|].
  unfold PyStr.strip. rewrite strip_by_all by exact Hblank. reflexivity.
Qed.

(** X6. When the connection breaks before the end marker was read, the
    streaming path raises the exception of the connection and the
    fragments read so far are lost: with a key configured the reply is
    one of the three fixed texts. *)
Theorem broken_stream_loses_the_fragments
  (msgs : list api_message) (w : world) (resp : StreamResponse) (e : exn) :
  api_key self <> [] ->
  stream env (sent w)
    (completion_request self (completion_payload self msgs true)) = Ok resp ->
  stream_is_error resp = false ->
  has_done (lines resp) = false ->
  forallb (payload_ok env) (event_payloads (lines resp)) = true ->
  broken resp = Some e ->
  fst (_stream_response env self (completion_payload self msgs true) w)
  = Raise e
  /\ exists t,
      fst (generate_response env self msgs true w) = Ok t
      /\ (t = timeout_text \/ t = connection_text \/ t = unexpected_error_text).
Proof.
  intros Hkey Hs Hst Hnd Hok Hbr.
  assert (Hrun : _stream_response env self (completion_payload self msgs true) w
                 = (Raise e, after_request
                               (completion_request self
                                  (completion_payload self msgs true)) w)).
  { unfold _stream_response, bind, client_stream, lift, stream_raise_for_status.
    fold (completion_request self (completion_payload self msgs true)).
    rewrite Hs, Hst.
    rewrite <- (app_nil_r (lines resp)), (@stream_loop_app _ _ _ _ Hnd Hok), Hbr.
    reflexivity. }
  split; [now rewrite Hrun|].
  rewrite generate_response_unfold by assumption.
  unfold completion_call. rewrite Hrun. simpl.
  destruct (is_timeout e); [eauto|].
  destruct (is_request_error e); eauto.
Qed.

(** The [content] entry of the first delta of a decoded event, whatever
    its type. *)
Definition first_delta_field (data : value) : option value :=
  match data with
  | VDict kv =>
      match lookup (lit "choices") kv with
      | Some (VList (VDict c :: _)) =>
          match lookup (lit "delta") c with
          | Some (VDict d) => lookup (lit "content") d
          | _ => None
          end
      | _ => None
      end
  | _ => None
  end.

Lemma add_fragment_not_text (acc : str) (data v : value) :
  first_delta_field data = Some v ->
  (forall s, v <> VStr s) ->
  add_fragment acc data = Raise TypeError.
Proof.
  unfold first_delta_field, add_fragment, has_choices.
  destruct data as [| | | | |l|kv]; try discriminate. simpl.
  destruct (lookup (lit "choices") kv) as [[| | | | |[|[| | | | | |c] l]|]|];
    simpl; try discriminate.
  destruct (lookup (lit "delta") c) as [[| | | | | |d]|];
    simpl; try discriminate.
  destruct (lookup (lit "content") d) as [x|]; simpl; try discriminate.
  intros [= ->] Hv. destruct v; try reflexivity.
  exfalso; eapply Hv; reflexivity.
Qed.

(** X7. One event before the end marker whose first delta has a
    [content] that is not a text (null, for one) makes the streaming path
    raise [TypeError], whatever was read before and whatever follows:
    with a key configured the whole reply is the generic error text. *)
Theorem delta_without_text_loses_the_reply
  (msgs : list api_message) (w : world) (resp : StreamResponse)
  (pre post : list str) (line : str) (data v : value) :
  api_key self <> [] ->
  stream env (sent w)
    (completion_request self (completion_payload self msgs true)) = Ok resp ->
  stream_is_error resp = false ->
  lines resp = pre ++ line :: post ->
  has_done pre = false ->
  forallb (payload_ok env) (event_payloads pre) = true ->
  startswith line (lit "data: ") = true ->
  is_done_line line = false ->
  json_loads env (slice_from 6 line) = Ok data ->
  first_delta_field data = Some v ->
  (forall s, v <> VStr s) ->
  fst (_stream_response env self (completion_payload self msgs true) w)
  = Raise TypeError
  /\ fst (generate_response env self msgs true w) = Ok unexpected_error_text.
Proof.
  intros Hkey Hs Hst Hl Hnd Hok Hm Hd Hjs Hf Hv.
  assert (Hrun : _stream_response env self (completion_payload self msgs true) w
                 = (Raise TypeError,
                    after_request
                      (completion_request self
                         (completion_payload self msgs true)) w)).
  { unfold _stream_response, bind, client_stream, lift, stream_raise_for_status.
    fold (completion_request self (completion_payload self msgs true)).
    rewrite Hs, Hst, Hl, (@stream_loop_app _ _ _ _ Hnd Hok).
    cbn [stream_loop]. unfold is_done_line in Hd. rewrite Hm in *.
    cbn [andb] in Hd. rewrite Hd, Hjs, (@add_fragment_not_text _ _ _ Hf Hv).
    reflexivity. }
  split; [now rewrite Hrun|].
  rewrite generate_response_unfold by assumption.
  unfold completion_call. now rewrite Hrun.
Qed.

(** X24. An event before the end marker on whose payload the decoder
    raises anything but [JSONDecodeError] (a [RecursionError] on a
    payload nested too deep, a [ValueError] on an integer with too many
    digits) is not skipped: the streaming path raises that exception,
    whatever was read before and whatever follows, and with a key
    configured the reply is the generic error text when the exception is
    not one of the transport. *)
Theorem event_refused_otherwise_is_not_skipped
  (msgs : list api_message) (w : world) (resp : StreamResponse)
  (pre post : list str) (line : str) (e : exn) :
  api_key self <> [] ->
  stream env (sent w)
    (completion_request self (completion_payload self msgs true)) = Ok resp ->
  stream_is_error resp = false ->
  lines resp = pre ++ line :: post ->
  has_done pre = false ->
  forallb (payload_ok env) (event_payloads pre) = true ->
  startswith line (lit "data: ") = true ->
  is_done_line line = false ->
  json_loads env (slice_from 6 line) = Raise e ->
  e <> JSONDecodeError ->
  fst (_stream_response env self (completion_payload self msgs true) w)
  = Raise e
  /\ (is_request_error e = false ->
      fst (generate_response env self msgs true w) = Ok unexpected_error_text).
Proof.
  intros Hkey Hs Hst Hl Hnd Hok Hm Hd Hjs Hne.
  assert (Hrun : _stream_response env self (completion_payload self msgs true) w
                 = (Raise e,
                    after_request
                      (completion_request self
                         (completion_payload self msgs true)) w)).
  { unfold _stream_response, bind, client_stream, lift, stream_raise_for_status.
    fold (completion_request self (completion_payload self msgs true)).
    rewrite Hs, Hst, Hl, (@stream_loop_app _ _ _ _ Hnd Hok).
    cbn [stream_loop]. unfold is_done_line in Hd. rewrite Hm in *.
    cbn [andb] in Hd. rewrite Hd, Hjs.
    destruct e; try reflexivity. congruence. }
  split; [now rewrite Hrun|].
  intros He. rewrite generate_response_unfold by assumption.
  unfold completion_call. rewrite Hrun.
  destruct e; try discriminate; reflexivity.
Qed.

(** *** More on the title *)

Lemma shortened_length (t : str) : (length (shortened t) <= 50)%nat.
Proof.
  unfold shortened. destruct (Nat.ltb_spec 50 (length t)) as [H|H]; [|lia].
  rewrite length_app, firstn_length_le by lia. simpl. lia.
Qed.

Lemma finish_title_trimmed (t : str) :
  exists mid,
    trimmed (N.eqb double_quote) (shortened t) mid
    /\ trimmed (N.eqb single_quote) mid (finish_title t).
Proof.
  exists (strip_chars [double_quote] (shortened t)). split.
  - eapply trimmed_ext; [|apply strip_by_trimmed].
    intros c; simpl. rewrite orb_false_r. apply N.eqb_sym.
  - eapply trimmed_ext; [|apply strip_by_trimmed].
    intros c; simpl. rewrite orb_false_r. apply N.eqb_sym.
Qed.

(** X8. Whatever the completion call returns or raises, the title
    [generate_chat_title] returns has at most 50 code points and neither
    starts nor ends with a single quote. *)
Theorem chat_title_is_bounded
  (call : list api_message -> M str) (first_message : str) (w : world) :
  exists r w',
    generate_chat_title_with call first_message w = (Ok r, w')
    /\ (length r <= 50)%nat
    /\ (forall r', r <> single_quote :: r')
    /\ (forall r', r <> r' ++ [single_quote]).
Proof.
  unfold generate_chat_title_with, try_except, bind.
  destruct (call _ w) as [[t|e] w'].
  - exists (finish_title t), w'.
    destruct (finish_title_trimmed t) as (mid & Hmid & Hfin).
    split; [reflexivity|]. split; [|split].
    + pose proof (trimmed_length_le Hfin). pose proof (trimmed_length_le Hmid).
      pose proof (shortened_length t). lia.
    + destruct Hfin as (_ & _ & _ & _ & _ & Hhd & _).
      intros r' Hr. specialize (Hhd _ _ Hr). now rewrite N.eqb_refl in Hhd.
    + destruct Hfin as (_ & _ & _ & _ & _ & _ & Hlast).
      intros r' Hr. specialize (Hlast _ _ Hr). now rewrite N.eqb_refl in Hlast.
  - exists default_title, w'. split; [reflexivity|]. split; [simpl; lia|].
    split.
    + intros r'; discriminate.
    + intros r' H. apply (f_equal (@rev N)) in H.
      rewrite rev_app_distr in H. discriminate H.
Qed.

(** X9. A failure of the provider does not give the default title: the
    fallback text [generate_response] returns instead of raising is
    post-processed like a title, so the title is the first 47 code points
    of that text followed by three dots. *)
Theorem failed_title_call_gives_apology_title
  (first_message : str) (w : world) :
  (api_key self = [] ->
   generate_chat_title env self first_message w
   = (Ok (firstn 47 not_configured_text ++ lit "..."), w))
  /\ (api_key self <> [] ->
      forall e w',
        completion_call env self (title_messages first_message) false w
        = (Raise e, w') ->
        exists t,
          (t = timeout_text \/ t = connection_text \/ t = unexpected_error_text)
          /\ generate_chat_title env self first_message w
             = (Ok (firstn 47 t ++ lit "..."), w'))
  /\ (forall t,
         In t [not_configured_text; timeout_text; connection_text;
               unexpected_error_text] ->
         firstn 47 t ++ lit "..." <> default_title).
Proof.
  split; [|split].
  - intros Hkey.
    unfold generate_chat_title, generate_chat_title_with, try_except, bind,
      generate_response.
    rewrite Hkey. reflexivity.
  - intros Hkey e w' Hcall.
    unfold generate_chat_title, generate_chat_title_with, try_except, bind.
    fold (title_messages first_message).
    rewrite generate_response_unfold, Hcall by assumption.
    destruct (is_timeout e).
    + exists timeout_text. split; [auto|reflexivity].
    + destruct (is_request_error e).
      * exists connection_text. split; [auto|reflexivity].
      * exists unexpected_error_text. split; [auto|reflexivity].
  - intros t [<-|[<-|[<-|[<-|[]]]]]; vm_compute; discriminate.
Qed.

End ClientRequests.

(* ================================================================== *)
(** * Further concrete runs of the completion client *)
(* ================================================================== *)

Definition hello_messages : list api_message :=
  [ system_message; {| role := lit "user"; api_content := lit "Hi" |} ].

Lemma generate_response_sends_one_request_witness :
  api_key demo_service <> []
  /\ sent (snd (generate_response env_timeout demo_service hello_messages
                  true fresh_world))
     = [ {| url := lit "https://openrouter.ai/api/v1/chat/completions";
            headers := service_headers demo_service;
            json := {| p_model := lit "anthropic/claude-3.5-sonnet";
                       p_messages := hello_messages;
                       p_max_tokens := 2000;
                       p_temperature := lit "0.7";
                       p_stream := true |} |} ].
Proof.
  assert (Hkey : api_key demo_service <> []) by discriminate.
  split; [exact Hkey|].
  rewrite (@generate_response_sends_one_request env_timeout demo_service
             hello_messages true fresh_world Hkey).
  reflexivity.
Defined.

(** The provider answers 500 on both paths. *)
Definition env_server_error : environment :=
  demo_env
    (Ok {| status_code := 500; is_error := true;
           text := lit "Internal Server Error" |})
    (Ok {| stream_status_code := 500; stream_is_error := true;
           lines := []; broken := None |}).

(** The provider answers 200 with a page that is not JSON. *)
Definition env_html_body : environment :=
  demo_env (body_response (lit "<html>Bad gateway</html>")) no_stream.

Lemma refused_status_or_body_gives_generic_text_witness :
  fst (generate_response env_server_error demo_service [] false fresh_world)
  = Ok unexpected_error_text
  /\ fst (generate_response env_server_error demo_service [] true fresh_world)
     = Ok unexpected_error_text
  /\ fst (generate_response env_html_body demo_service [] false fresh_world)
     = Ok unexpected_error_text.
Proof.
  assert (Hkey : api_key demo_service <> []) by discriminate.
  split; [|split].
  - exact (proj1 (@refused_status_or_body_gives_generic_text env_server_error
                    demo_service [] fresh_world Hkey)
                 _ eq_refl (or_introl eq_refl)).
  - exact (proj2 (@refused_status_or_body_gives_generic_text env_server_error
                    demo_service [] fresh_world Hkey)
                 _ eq_refl eq_refl).
  - exact (proj1 (@refused_status_or_body_gives_generic_text env_html_body
                    demo_service [] fresh_world Hkey)
                 _ eq_refl
                 (or_intror (ex_intro _ JSONDecodeError (conj eq_refl eq_refl)))).
Defined.

(** The provider answers with a choice whose content is null. *)
Definition env_null_content : environment :=
  demo_env
    (body_response
       (dq "{`choices`: [{`message`: {`role`: `assistant`, `content`: null}}]}"))
    no_stream.

Lemma choice_without_text_gives_generic_text_witness :
  generate_response env_null_content demo_service [] false fresh_world
  = (Ok unexpected_error_text,
     after_request
       (completion_request demo_service
          (completion_payload demo_service [] false)) fresh_world).
Proof.
  refine (@choice_without_text_gives_generic_text env_null_content demo_service
            [] fresh_world _ _ _ _ _ eq_refl eq_refl _ _ _).
  - discriminate.
  - vm_compute. reflexivity.
  - vm_compute. reflexivity.
  - reflexivity.
Defined.

Lemma lines_after_end_marker_are_ignored_witness :
  stream_loop env_stream_hello hello_lines (Some TimeoutException) []
  = Ok (lit "Hello")
  /\ stream_loop env_stream_hello hello_lines (Some TimeoutException) []
     = stream_loop env_stream_hello (firstn 7 hello_lines) None [].
Proof.
  split; [vm_compute; reflexivity|].
  exact (@lines_after_end_marker_are_ignored env_stream_hello
           (firstn 6 hello_lines)
           [dq "data: {`choices`: [{`delta`: {`content`: ` never read`}}]}"]
           (lit "data: [DONE]") (Some TimeoutException) [] eq_refl).
Defined.

(** The provider streams a space and a line feed, then the end marker. *)
Definition blank_lines : list str :=
  [ dq "data: {`choices`: [{`delta`: {`content`: ` `}}]}";
    dq "data: {`choices`: [{`delta`: {`content`: `\n`}}]}";
    lit "data: [DONE]" ].

Definition env_stream_blank : environment :=
  demo_env no_post (lines_response blank_lines).

Lemma blank_stream_gives_empty_reply_witness :
  fragments env_stream_blank blank_lines = [[32%N]; [10%N]]
  /\ _stream_response env_stream_blank demo_service
       (completion_payload demo_service [] true) fresh_world
     = (Ok [], after_request
                 (completion_request demo_service
                    (completion_payload demo_service [] true)) fresh_world).
Proof.
  split; [vm_compute; reflexivity|].
  refine (@blank_stream_gives_empty_reply env_stream_blank demo_service
            (completion_payload demo_service [] true) fresh_world
            _ eq_refl eq_refl (or_introl eq_refl) _ _ _).
  - vm_compute. reflexivity.
  - vm_compute. discriminate.
  - vm_compute. reflexivity.
Defined.

(** The connection times out after the first fragment. *)
Definition env_stream_cut : environment :=
  demo_env no_post
    (Ok {| stream_status_code := 200; stream_is_error := false;
           lines := [ dq "data: {`choices`: [{`delta`: {`content`: `Hel`}}]}" ];
           broken := Some TimeoutException |}).

Lemma broken_stream_loses_the_fragments_witness :
  fst (_stream_response env_stream_cut demo_service
         (completion_payload demo_service [] true) fresh_world)
  = Raise TimeoutException
  /\ exists t,
      fst (generate_response env_stream_cut demo_service [] true fresh_world)
      = Ok t
      /\ (t = timeout_text \/ t = connection_text \/ t = unexpected_error_text).
Proof.
  refine (@broken_stream_loses_the_fragments env_stream_cut demo_service []
            fresh_world _ TimeoutException _ eq_refl eq_refl eq_refl _ eq_refl).
  - discriminate.
  - vm_compute. reflexivity.
Defined.

Example cut_stream_reply :
  fst (generate_response env_stream_cut demo_service [] true fresh_world)
  = Ok timeout_text.
Proof. vm_compute. reflexivity. Qed.

Lemma delta_without_text_loses_the_reply_witness :
  fst (_stream_response env_stream_null demo_service
         (completion_payload demo_service [] true) fresh_world)
  = Raise TypeError
  /\ fst (generate_response env_stream_null demo_service [] true fresh_world)
     = Ok unexpected_error_text.
Proof.
  refine (@delta_without_text_loses_the_reply env_stream_null demo_service []
            fresh_world _
            (firstn 1 null_delta_lines) (skipn 2 null_delta_lines)
            (dq "data: {`choices`: [{`delta`: {`content`: null}}]}")
            (VDict [(lit "choices",
                     VList [VDict [(lit "delta",
                                    VDict [(lit "content", VNone)])]])])
            VNone
            _ eq_refl eq_refl eq_refl eq_refl _ eq_refl eq_refl _ eq_refl _).
  - discriminate.
  - vm_compute. reflexivity.
  - vm_compute. reflexivity.
  - intros s; discriminate.
Defined.

Lemma event_refused_otherwise_is_not_skipped_witness :
  (fst (_stream_response env_stream_deep demo_service
          (completion_payload demo_service [] true) fresh_world)
   = Raise RecursionError
   /\ fst (generate_response env_stream_deep demo_service [] true fresh_world)
      = Ok unexpected_error_text)
  /\ (fst (_stream_response env_stream_long_integer demo_service
             (completion_payload demo_service [] true) fresh_world)
      = Raise ValueError
      /\ fst (generate_response env_stream_long_integer demo_service [] true
                fresh_world)
         = Ok unexpected_error_text).
Proof.
  assert (Hkey : api_key demo_service <> []) by discriminate.
  assert (Hrec : RecursionError <> JSONDecodeError) by discriminate.
  assert (Hval : ValueError <> JSONDecodeError) by discriminate.
  assert (Hdeep : forallb (payload_ok env_stream_deep)
                    (event_payloads (firstn 1 deep_lines)) = true)
    by (vm_compute; reflexivity).
  assert (Hdeep' : json_loads env_stream_deep
                     (slice_from 6
                        (lit "data: " ++ repeat 91%N 1001 ++ repeat 93%N 1001))
                   = Raise RecursionError)
    by (vm_compute; reflexivity).
  assert (Hlong : forallb (payload_ok env_stream_long_integer)
                    (event_payloads (firstn 1 long_integer_lines)) = true)
    by (vm_compute; reflexivity).
  assert (Hlong' : json_loads env_stream_long_integer
                     (slice_from 6 (lit "data: " ++ repeat 49%N 4301))
                   = Raise ValueError)
    by (vm_compute; reflexivity).
  pose proof (@event_refused_otherwise_is_not_skipped env_stream_deep
                demo_service [] fresh_world _
                (firstn 1 deep_lines) (skipn 2 deep_lines)
                (lit "data: " ++ repeat 91%N 1001 ++ repeat 93%N 1001)
                RecursionError
                Hkey eq_refl eq_refl eq_refl eq_refl Hdeep eq_refl eq_refl
                Hdeep' Hrec) as H1.
  pose proof (@event_refused_otherwise_is_not_skipped env_stream_long_integer
                demo_service [] fresh_world _
                (firstn 1 long_integer_lines) (skipn 2 long_integer_lines)
                (lit "data: " ++ repeat 49%N 4301)
                ValueError
                Hkey eq_refl eq_refl eq_refl eq_refl Hlong eq_refl eq_refl
                Hlong' Hval) as H2.
  exact (conj (conj (proj1 H1) (proj2 H1 eq_refl))
              (conj (proj1 H2) (proj2 H2 eq_refl))).
Defined.

Definition unconfigured_service : OpenRouterService :=
  OpenRouterService_init
    {| openrouter_api_key := [];
       openrouter_model := lit "anthropic/claude-3.5-sonnet";
       openrouter_base_url := lit "https://openrouter.ai/api/v1";
       site_url := lit "http://localhost:3000" |}.

Lemma failed_title_call_gives_apology_title_witness :
  generate_chat_title env_timeout unconfigured_service (lit "Hi") fresh_world
  = (Ok (lit "I apologize, but I'm not properly configured to..."), fresh_world)
  /\ exists t,
      (t = timeout_text \/ t = connection_text \/ t = unexpected_error_text)
      /\ generate_chat_title env_timeout demo_service (lit "Hi") fresh_world
         = (Ok (firstn 47 t ++ lit "..."),
            after_request
              (completion_request demo_service
                 (completion_payload demo_service (title_messages (lit "Hi"))
                    false)) fresh_world).
Proof.
  split.
  - exact (proj1 (@failed_title_call_gives_apology_title env_timeout
                    unconfigured_service (lit "Hi") fresh_world) eq_refl).
  - refine (proj1 (proj2 (@failed_title_call_gives_apology_title env_timeout
                            demo_service (lit "Hi") fresh_world))
                  _ TimeoutException _ eq_refl).
    discriminate.
Defined.

Example timed_out_title :
  fst (generate_chat_title env_timeout demo_service (lit "Hi") fresh_world)
  = Ok (lit "I apologize, but I'm taking too long to respond...").
Proof. vm_compute. reflexivity. Qed.

(* ================================================================== *)
(** * Further properties of the repository *)
(* ================================================================== *)

Lemma fresh_id_above (ids : list Z) (x : Z) :
  In x ids -> (x < fresh_id ids)%Z.
Proof.
  unfold fresh_id. induction ids as [|y ids IH]; cbn [fold_right In]; [tauto|].
  intros [->|H]; [lia|]. specialize (IH H). lia.
Qed.

Lemma fresh_id_not_in (ids : list Z) : ~ In (fresh_id ids) ids.
Proof. intros H. apply fresh_id_above in H. lia. Qed.

Lemma Sorted_weaken {A} (R R' : A -> A -> Prop) (l : list A) :
  (forall a b, R a b -> R' a b) -> Sorted R l -> Sorted R' l.
Proof.
  intros HR. induction 1 as [|x l Hs IH Hhd]; constructor; auto.
  destruct Hhd; constructor; auto.
Qed.

Lemma find_app_none {A} (p : A -> bool) (l : list A) (x : A) :
  p x = false -> find p (l ++ [x]) = find p l.
Proof.
  intros Hx. induction l as [|y l IH]; simpl.
  - now rewrite Hx.
  - destruct (p y); auto.
Qed.

Lemma find_update_first_other {A} (p q : A -> bool) (f : A -> A) (l : list A) :
  (forall x, p x = true -> q x = false /\ q (f x) = false) ->
  find q (update_first p f l) = find q l.
Proof.
  intros H. induction l as [|x l IH]; simpl; auto.
  destruct (p x) eqn:Hp; simpl.
  - destruct (H x Hp) as [-> ->]. reflexivity.
  - destruct (q x); auto.
Qed.

Lemma map_update_first {A B} (p : A -> bool) (f : A -> A) (g : A -> B)
  (l : list A) :
  (forall x, g (f x) = g x) -> map g (update_first p f l) = map g l.
Proof.
  intros H. induction l as [|x l IH]; simpl; auto.
  destruct (p x); simpl; now rewrite ?H, ?IH.
Qed.

Lemma session_of_id (d : database) (sid : Z) (s : ChatSession) :
  session_of d sid = Some s -> In s (sessions d) /\ session_id s = sid.
Proof.
  unfold session_of. intros H. apply find_some in H as [Hin Heq].
  split; auto. now apply Z.eqb_eq.
Qed.

Section RepositoryMore.

Variable env : environment.

(** X10. The listing of a user's sessions returns exactly the stored
    sessions whose owner is that user, none of another user, the most
    recently updated first, and changes nothing. *)
Theorem user_sessions_are_the_owners (uid : Z) (w : world) :
  exists l,
    get_user_chat_sessions uid w = (Ok l, w)
    /\ Permutation l (filter (fun s => Z.eqb (session_user_id s) uid)
                             (sessions (db w)))
    /\ (forall s, In s l <-> In s (sessions (db w)) /\ session_user_id s = uid)
    /\ Sorted (fun a b => (updated_at b <= updated_at a)%Z) l.
Proof.
  eexists. split; [reflexivity|].
  unfold order_by_desc.
  set (mine := filter _ (sessions (db w))).
  assert (Hperm : Permutation
                    (order_by_asc (fun x => (- updated_at x)%Z) mine) mine)
    by apply order_by_asc_perm.
  split; [exact Hperm|]. split.
  - intros s. split.
    + intros Hin. apply (Permutation_in _ Hperm) in Hin.
      apply filter_In in Hin as [Hin Ho]. split; auto. now apply Z.eqb_eq.
    + intros [Hin Ho]. apply (Permutation_in _ (Permutation_sym Hperm)).
      apply filter_In. split; auto. now apply Z.eqb_eq.
  - eapply Sorted_weaken; [|apply order_by_asc_sorted].
    unfold key_le. intros a b H. lia.
Qed.

(** X11. [create_chat_session] returns a session with the given owner and
    title, created and updated at the clock reading taken for it, under an
    id that no stored session has; afterwards that id finds the new
    session, every other id finds what it found before, the new session is
    in its owner's listing, and no message or user row has changed. *)
Theorem created_session_is_found (uid : Z) (ttl : str) (w : world) :
  exists s w',
    create_chat_session env uid ttl w = (Ok s, w')
    /\ session_user_id s = uid /\ title s = ttl
    /\ session_created_at s = now env (clock_reads w)
    /\ updated_at s = now env (clock_reads w)
    /\ (forall x, In x (sessions (db w)) -> session_id x <> session_id s)
    /\ session_of (db w') (session_id s) = Some s
    /\ (forall sid, sid <> session_id s ->
                    session_of (db w') sid = session_of (db w) sid)
    /\ (exists l, get_user_chat_sessions uid w' = (Ok l, w') /\ In s l)
    /\ messages (db w') = messages (db w)
    /\ users (db w') = users (db w).
Proof.
  set (s := {| session_id := fresh_id (map session_id (sessions (db w)));
               session_user_id := uid; title := ttl;
               session_created_at := now env (clock_reads w);
               updated_at := now env (clock_reads w) |}).
  assert (Hfresh : forall x, In x (sessions (db w)) ->
                             session_id x <> session_id s).
  { intros x Hin Heq. apply (fresh_id_not_in (map session_id (sessions (db w)))).
    simpl in Heq. rewrite <- Heq. now apply in_map. }
  assert (Hnone : find (fun x => Z.eqb (session_id x) (session_id s))
                       (sessions (db w)) = None).
  { destruct (find _ (sessions (db w))) as [x|] eqn:Hf; auto.
    apply find_some in Hf as [Hin Heq]. apply Z.eqb_eq in Heq.
    now apply Hfresh in Hin. }
  exists s.
  exists {| db := {| users := users (db w);
                     sessions := sessions (db w) ++ [s];
                     messages := messages (db w) |};
            sent := sent w;
            clock_reads := S (clock_reads w) |}.
  split; [reflexivity|].
  do 4 (split; [reflexivity|]). split; [exact Hfresh|].
  cbn [db sessions messages users]. split; [|split; [|split]].
  - unfold session_of. cbn [sessions].
    apply find_app_last; [exact Hnone|apply Z.eqb_refl].
  - intros sid Hsid. unfold session_of. cbn [sessions].
    apply find_app_none. apply Z.eqb_neq. auto.
  - eexists. split; [reflexivity|].
    unfold order_by_desc.
    eapply Permutation_in; [apply Permutation_sym, order_by_asc_perm|].
    apply filter_In. cbn [db sessions]. split.
    + apply in_or_app. right. left. reflexivity.
    + apply Z.eqb_refl.
  - split; reflexivity.
Qed.

(** X12. [update_session_title] on an id that finds no session returns
    nothing and changes nothing; on an id that finds a session it returns
    a session whose title is the new one and whose id, owner and two
    timestamps are those of the session found, after which the id finds
    the session returned, every other id finds what it found before, and
    the ids of the sessions, the messages, the users and the clock are
    unchanged. *)
Theorem update_session_title_effect (sid : Z) (ttl : str) (w : world) :
  (session_of (db w) sid = None ->
   update_session_title sid ttl w = (Ok None, w))
  /\ (forall s,
         session_of (db w) sid = Some s ->
         exists w' s',
           update_session_title sid ttl w = (Ok (Some s'), w')
           /\ session_of (db w') sid = Some s'
           /\ title s' = ttl
           /\ session_id s' = session_id s
           /\ session_user_id s' = session_user_id s
           /\ session_created_at s' = session_created_at s
           /\ updated_at s' = updated_at s
           /\ (forall sid', sid' <> sid ->
                            session_of (db w') sid' = session_of (db w) sid')
           /\ map session_id (sessions (db w')) = map session_id (sessions (db w))
           /\ messages (db w') = messages (db w)
           /\ users (db w') = users (db w)
           /\ clock_reads w' = clock_reads w
           /\ sent w' = sent w).
Proof.
  unfold update_session_title, bind. rewrite get_session_by_id_run.
  split.
  - intros ->. reflexivity.
  - intros s Hs. rewrite Hs. eexists. exists (set_title ttl s).
    split; [reflexivity|].
    cbn [db sessions messages users clock_reads sent].
    split; [|do 5 (split; [reflexivity|]); split; [|split]].
    + apply find_update_first; auto.
    + intros sid' Hne. unfold session_of.
      apply find_update_first_other.
      intros x Hx. apply Z.eqb_eq in Hx. simpl. rewrite Hx.
      split; apply Z.eqb_neq; auto.
    + now apply map_update_first.
    + repeat split; reflexivity.
Qed.

(** X13. An append to one session leaves every other session alone: the
    listing of the messages of another session and what its id finds are
    the same before and after, and no user row changes. *)
Theorem append_leaves_other_sessions_alone
  (sid other : Z) (c sender : str) (w : world) :
  other <> sid ->
  let w' := snd (add_message_to_session env sid c sender w) in
  fst (get_session_messages other w') = fst (get_session_messages other w)
  /\ session_of (db w') other = session_of (db w) other
  /\ users (db w') = users (db w).
Proof.
  intros Hne.
  destruct (add_message_to_session_run env sid c sender w)
    as (w1 & Hrun & Hm & Hu & _ & _ & Hs).
  rewrite Hrun. cbn [snd]. split; [|split].
  - unfold get_session_messages, bind, get_db, ret. cbn [fst].
    rewrite Hm, filter_app. cbn [filter new_message message_session_id].
    apply Z.eqb_neq in Hne. rewrite Z.eqb_sym, Hne, app_nil_r. reflexivity.
  - unfold session_of at 1. rewrite Hs.
    destruct (session_of (db w) sid); [|reflexivity].
    apply find_update_first_other.
    intros x Hx. apply Z.eqb_eq in Hx. simpl. rewrite Hx.
    split; apply Z.eqb_neq; auto.
  - exact Hu.
Qed.

End RepositoryMore.

Lemma update_session_title_effect_witness :
  update_session_title 8 (lit "Plans") world_with_bobs_session
  = (Ok None, world_with_bobs_session)
  /\ exists w' s',
      update_session_title 7 (lit "Plans") world_with_bobs_session
      = (Ok (Some s'), w')
      /\ session_of (db w') 7 = Some s'
      /\ title s' = lit "Plans"
      /\ session_id s' = 7%Z
      /\ session_user_id s' = 2%Z
      /\ session_created_at s' = 0%Z
      /\ updated_at s' = 0%Z
      /\ (forall sid', sid' <> 7%Z ->
                       session_of (db w') sid'
                       = session_of (db world_with_bobs_session) sid')
      /\ map session_id (sessions (db w')) = [7%Z]
      /\ messages (db w') = []
      /\ users (db w') = [alice; bob]
      /\ clock_reads w' = 0%nat
      /\ sent w' = [].
Proof.
  split.
  - exact (proj1 (update_session_title_effect 8 (lit "Plans")
                    world_with_bobs_session) eq_refl).
  - exact (proj2 (update_session_title_effect 7 (lit "Plans")
                    world_with_bobs_session) bobs_session eq_refl).
Defined.

(** Bob has a second session, 9, with one message. *)
Definition bobs_other_session : ChatSession :=
  {| session_id := 9; session_user_id := 2; title := lit "Recipes";
     session_created_at := 0; updated_at := 5 |}.

Definition recipe_question : ChatMessage :=
  {| message_id := 1; message_session_id := 9; content := lit "Soup?";
     sender_type := lit "user"; created_at := 5 |}.

Definition world_with_two_sessions : world :=
  {| db := {| users := [alice; bob];
              sessions := [bobs_session; bobs_other_session];
              messages := [recipe_question] |};
     sent := []; clock_reads := 6 |}.

Lemma append_leaves_other_sessions_alone_witness :
  let w' := snd (add_message_to_session env_hello 7 (lit "Hi") (lit "user")
                   world_with_two_sessions) in
  fst (get_session_messages 9 w')
  = fst (get_session_messages 9 world_with_two_sessions)
  /\ session_of (db w') 9 = session_of (db world_with_two_sessions) 9
  /\ users (db w') = users (db world_with_two_sessions).
Proof.
  refine (@append_leaves_other_sessions_alone env_hello 7%Z 9%Z (lit "Hi")
            (lit "user") world_with_two_sessions _).
  discriminate.
Defined.

(* ================================================================== *)
(** * Further properties of the request handlers *)
(* ================================================================== *)

Lemma find_filter_other {A} (p q : A -> bool) (l : list A) :
  (forall x, q x = true -> p x = true) ->
  find q (filter p l) = find q l.
Proof.
  intros H. induction l as [|x l IH]; simpl; auto.
  destruct (p x) eqn:Hp; simpl.
  - destruct (q x); auto.
  - destruct (q x) eqn:Hq; auto. apply H in Hq. congruence.
Qed.

Lemma filter_filter_other {A} (p q : A -> bool) (l : list A) :
  (forall x, q x = true -> p x = true) ->
  filter q (filter p l) = filter q l.
Proof.
  intros H. induction l as [|x l IH]; simpl; auto.
  destruct (p x) eqn:Hp; simpl.
  - destruct (q x); now rewrite IH.
  - destruct (q x) eqn:Hq; auto. apply H in Hq. congruence.
Qed.

Lemma snd_try_except {A} (c : M A) (h : exn -> M A) (w : world) :
  (forall e w', snd (h e w') = w') -> snd (try_except c h w) = snd (c w).
Proof.
  intros Hh. unfold try_except. destruct (c w) as [[a|e] w']; simpl; auto.
Qed.

Lemma snd_guarded {A} (detail : str) (c : M A) (w : world) :
  snd (guarded detail c w) = snd (c w).
Proof.
  apply snd_try_except. intros e w'. destruct (is_http_exception e); reflexivity.
Qed.

Lemma snd_guarded_all {A} (detail : str) (c : M A) (w : world) :
  snd (guarded_all detail c w) = snd (c w).
Proof. apply snd_try_except. reflexivity. Qed.

Section HandlersMore.

Variable env : environment.
Variable svc : OpenRouterService.

(** X14. When the owner deletes a session, the handler answers with
    success; afterwards the id finds no session and lists no message,
    every other session and its messages are as before, no user row has
    changed, and a second delete or a listing of the messages by the same
    caller is answered with 404. *)
Theorem owner_delete_removes_session
  (sid : Z) (u : UserResponse) (w : world) (s : ChatSession) :
  session_of (db w) sid = Some s ->
  session_user_id s = ur_id u ->
  exists w',
    delete_chat_session sid u w
    = (Ok {| success := true;
             message := lit "Chat session deleted successfully";
             data := None |}, w')
    /\ session_of (db w') sid = None
    /\ fst (get_session_messages sid w') = Ok []
    /\ (forall other, other <> sid ->
          session_of (db w') other = session_of (db w) other
          /\ fst (get_session_messages other w')
             = fst (get_session_messages other w))
    /\ users (db w') = users (db w)
    /\ delete_chat_session sid u w'
       = (Raise (HTTPException 404 (lit "Chat session not found")), w')
    /\ get_session_messages_route sid u w'
       = (Raise (HTTPException 404 (lit "Chat session not found")), w').
Proof.
  intros Hs Hown.
  destruct (session_of_id _ _ Hs) as [_ Hid].
  pose proof (@owned_session sid u w s Hs Hown) as Hcheck.
  exists {| db := {| users := users (db w);
                     sessions := filter (fun x => negb (Z.eqb (session_id x) sid))
                                        (sessions (db w));
                     messages := filter (fun m => negb (Z.eqb (message_session_id m) sid))
                                        (messages (db w)) |};
            sent := sent w; clock_reads := clock_reads w |}.
  assert (Hgone : session_of
                    {| users := users (db w);
                       sessions := filter (fun x => negb (Z.eqb (session_id x) sid))
                                          (sessions (db w));
                       messages := filter (fun m => negb (Z.eqb (message_session_id m) sid))
                                          (messages (db w)) |} sid = None).
  { unfold session_of. cbn [sessions].
    destruct (find _ (filter _ (sessions (db w)))) as [x|] eqn:Hf; auto.
    apply find_some in Hf as [Hin Heq]. apply filter_In in Hin as [_ Hne].
    rewrite Heq in Hne. discriminate. }
  split; [|split; [|split; [|split; [|split; [|split]]]]].
  - unfold delete_chat_session, guarded, try_except, bind.
    rewrite get_session_by_id_run, Hs. rewrite Hs in Hcheck. rewrite Hcheck.
    unfold delete_session, bind, get_db, put_db, ret. rewrite Hid. reflexivity.
  - exact Hgone.
  - unfold get_session_messages, bind, get_db, ret. cbn [fst db messages].
    rewrite filter_none; [reflexivity|].
    intros m Hin. apply filter_In in Hin as [_ Hne].
    now apply negb_true_iff in Hne.
  - intros other Hne. split.
    + unfold session_of. cbn [db sessions]. apply find_filter_other.
      intros x Hx. apply Z.eqb_eq in Hx. rewrite Hx.
      apply negb_true_iff, Z.eqb_neq. exact Hne.
    + unfold get_session_messages, bind, get_db, ret. cbn [fst db messages].
      rewrite filter_filter_other; [reflexivity|].
      intros x Hx. apply Z.eqb_eq in Hx. rewrite Hx.
      apply negb_true_iff, Z.eqb_neq. exact Hne.
  - reflexivity.
  - unfold delete_chat_session, guarded, try_except, bind.
    rewrite get_session_by_id_run. cbn [db]. rewrite Hgone. reflexivity.
  - unfold get_session_messages_route, guarded, try_except, bind.
    rewrite get_session_by_id_run. cbn [db]. rewrite Hgone. reflexivity.
Qed.

(** *** Consistency of the store *)

(** A consistent store: emails and ids of users, ids of sessions and ids
    of messages are each given once, and every message belongs to a
    stored session. *)
Record store_ok (d : database) : Prop := {
  emails_once : NoDup (map email (users d));
  user_ids_once : NoDup (map user_id (users d));
  session_ids_once : NoDup (map session_id (sessions d));
  message_ids_once : NoDup (map message_id (messages d));
  messages_owned :
    forall m, In m (messages d) ->
              In (message_session_id m) (map session_id (sessions d))
}.

Lemma NoDup_snoc {A} (l : list A) (x : A) :
  NoDup l -> ~ In x l -> NoDup (l ++ [x]).
Proof.
  intros Hl Hx. apply (NoDup_Add (a := x) (l := l)).
  - rewrite <- (app_nil_r l) at 1. apply Add_app.
  - split; assumption.
Qed.

Lemma NoDup_map_filter {A B} (key : A -> B) (keep : A -> bool)
  (rows : list A) (Hrows : NoDup (map key rows)) :
  NoDup (map key (filter keep rows)).
Proof.
  revert Hrows. induction rows as [|x rows IH]; simpl; auto.
  intros H. inversion H as [|? ? Hx Hl]; subst.
  destruct (keep x); simpl; auto. constructor; auto.
  intros Hin. apply Hx. apply in_map_iff in Hin as (y & Hy & Hin).
  apply filter_In in Hin as [Hin _]. apply in_map_iff. eauto.
Qed.

(** A computation that keeps the store consistent and the ids of the
    sessions as they are, when session [sid] is stored. *)
Definition keeps_ok (sid : Z) {A} (c : M A) : Prop :=
  forall w,
    store_ok (db w) -> In sid (map session_id (sessions (db w))) ->
    store_ok (db (snd (c w)))
    /\ map session_id (sessions (db (snd (c w))))
       = map session_id (sessions (db w)).

Lemma keeps_ok_of_store (sid : Z) {A} (c : M A) :
  keeps_store c -> keeps_ok sid c.
Proof.
  intros Hc w Hok Hin. destruct (Hc w) as [Hdb _]. rewrite Hdb. auto.
Qed.

Lemma keeps_ok_ret (sid : Z) {A} (a : A) : keeps_ok sid (ret a).
Proof. intros w Hok Hin; auto. Qed.

Lemma keeps_ok_bind (sid : Z) {A B} (c : M A) (k : A -> M B) :
  keeps_ok sid c -> (forall a, keeps_ok sid (k a)) -> keeps_ok sid (bind c k).
Proof.
  intros Hc Hk w Hok Hin. unfold bind. specialize (Hc w Hok Hin).
  destruct (c w) as [[a|e] w1]; simpl in *; auto.
  destruct Hc as [Hok1 Hids].
  destruct (Hk a w1 Hok1) as [Hok2 Hids2]; [now rewrite Hids|].
  split; auto. now rewrite Hids2.
Qed.

Lemma keeps_ok_try (sid : Z) {A} (c : M A) (h : exn -> M A) :
  keeps_ok sid c -> (forall e, keeps_ok sid (h e)) ->
  keeps_ok sid (try_except c h).
Proof.
  intros Hc Hh w Hok Hin. unfold try_except. specialize (Hc w Hok Hin).
  destruct (c w) as [[a|e] w1]; simpl in *; auto.
  destruct Hc as [Hok1 Hids].
  destruct (Hh e w1 Hok1) as [Hok2 Hids2]; [now rewrite Hids|].
  split; auto. now rewrite Hids2.
Qed.

Lemma keeps_ok_get_session_messages (sid sid' : Z) :
  keeps_ok sid (get_session_messages sid').
Proof. intros w Hok Hin; auto. Qed.

Lemma keeps_ok_add_message (sid : Z) (c sender : str) :
  keeps_ok sid (add_message_to_session env sid c sender).
Proof.
  intros w Hok Hin.
  destruct (add_message_to_session_run env sid c sender w)
    as (w1 & Hrun & Hm & Hu & _ & _ & Hs).
  rewrite Hrun. cbn [snd].
  assert (Hids : map session_id (sessions (db w1))
                 = map session_id (sessions (db w))).
  { rewrite Hs. destruct (session_of (db w) sid); auto.
    now apply map_update_first. }
  split; [|exact Hids].
  destruct Hok as [He Hu' Hsi Hmi Hown].
  constructor; rewrite ?Hu, ?Hids; auto.
  - rewrite Hm, map_app. cbn [map new_message message_id].
    apply NoDup_snoc; auto. apply fresh_id_not_in.
  - intros m. rewrite Hm. intros Hx. apply in_app_or in Hx as [Hx|[<-|[]]]; auto.
Qed.

Lemma keeps_ok_update_title (sid sid' : Z) (ttl : str) :
  keeps_ok sid (update_session_title sid' ttl).
Proof.
  intros w Hok Hin.
  unfold update_session_title, bind. rewrite get_session_by_id_run.
  destruct (session_of (db w) sid'); [|cbn [snd ret]; auto].
  unfold get_db, put_db, bind, ret. cbn [snd db sessions].
  assert (Hids : map session_id
                   (update_first (fun s => Z.eqb (session_id s) sid')
                      (set_title ttl) (sessions (db w)))
                 = map session_id (sessions (db w)))
    by now apply map_update_first.
  split; [|exact Hids].
  destruct Hok as [He Hu' Hsi Hmi Hown].
  constructor; cbn [users sessions messages]; rewrite ?Hids; auto.
Qed.

Ltac keeps_ok :=
  repeat first
    [ apply keeps_ok_ret | apply keeps_ok_add_message
    | apply keeps_ok_update_title | apply keeps_ok_get_session_messages
    | apply keeps_ok_of_store; apply keeps_generate_response
    | apply keeps_ok_bind; [|intros ?]
    | apply keeps_ok_try; [|intros ?]
    | match goal with
      | |- keeps_ok _ (if ?b then _ else _) => destruct b
      end ].

Lemma keeps_ok_title_step (sid : Z) (msg : ChatMessageCreate)
  (previous_messages : list ChatMessage) :
  keeps_ok sid (title_step env svc sid msg previous_messages).
Proof.
  unfold title_step, generate_chat_title, generate_chat_title_with. keeps_ok.
Qed.

(** What the two sending handlers do once the incoming row is stored. *)
Lemma keeps_ok_reply (sid : Z) (msg : ChatMessageCreate) (streaming : bool)
  {A} (k : str -> ChatMessage -> A) :
  keeps_ok sid
    (previous_messages <- get_session_messages sid ;;
     title_step env svc sid msg previous_messages ;;;
     ai_response_text <-
       generate_response env svc (format_messages_for_api previous_messages)
                         streaming ;;
     ai_message <- add_message_to_session env sid ai_response_text (lit "bot") ;;
     ret (k ai_response_text ai_message)).
Proof.
  apply keeps_ok_bind; [apply keeps_ok_get_session_messages|intros pm].
  apply keeps_ok_bind; [apply keeps_ok_title_step|intros _].
  keeps_ok.
Qed.

Lemma owned_is_stored (sid : Z) (u : UserResponse) (d : database) :
  not_owned (session_of d sid) u = false ->
  In sid (map session_id (sessions d)).
Proof.
  destruct (session_of d sid) as [s|] eqn:Hs; [|discriminate].
  intros _. destruct (session_of_id _ _ Hs) as [Hin <-]. now apply in_map.
Qed.

Lemma register_keeps_ok (user : UserCreate) (w : world) :
  store_ok (db w) -> store_ok (db (snd (register env user w))).
Proof.
  intros Hok. unfold register. rewrite snd_guarded.
  unfold bind at 1. rewrite get_user_by_email_run.
  destruct (user_of (db w) (uc_email user)) as [x|] eqn:Hfind; [exact Hok|].
  unfold bind at 1.
  unfold create_user, bind, get_db, func_now, lift, insert_user, put_db, ret.
  cbn [email db users].
  destruct (existsb _ (users (db w))) eqn:Hex; [exact Hok|].
  cbn [snd db].
  destruct Hok as [He Hu Hsi Hmi Hown].
  constructor; cbn [users sessions messages]; auto.
  - rewrite map_app. cbn [map email]. apply NoDup_snoc; auto.
    intros Hin. apply in_map_iff in Hin as (y & Hy & Hin).
    assert (existsb (fun x => PyStr.eqb (email x) (uc_email user))
                    (users (db w)) = true) as Hc.
    { apply existsb_exists. exists y. split; auto. now apply str_eqb_eq. }
    congruence.
  - rewrite map_app. cbn [map user_id]. apply NoDup_snoc; auto.
    apply fresh_id_not_in.
Qed.

Lemma create_session_keeps_ok (ttl : str) (u : UserResponse) (w : world) :
  store_ok (db w) ->
  store_ok (db (snd (create_chat_session_route env ttl u w))).
Proof.
  intros Hok. unfold create_chat_session_route. rewrite snd_guarded_all.
  unfold create_chat_session, bind, get_db, func_now, put_db, ret.
  cbn [snd db].
  destruct Hok as [He Hu Hsi Hmi Hown].
  constructor; cbn [users sessions messages]; auto.
  - rewrite map_app. cbn [map session_id]. apply NoDup_snoc; auto.
    apply fresh_id_not_in.
  - intros m Hm. rewrite map_app. apply in_or_app. left. auto.
Qed.

Lemma send_message_keeps_ok (sid : Z) (msg : ChatMessageCreate)
  (u : UserResponse) (w : world) :
  store_ok (db w) -> store_ok (db (snd (send_message env svc sid msg u w))).
Proof.
  intros Hok. unfold send_message. rewrite snd_guarded.
  unfold bind at 1. rewrite get_session_by_id_run.
  destruct (not_owned (session_of (db w) sid) u) eqn:Hcheck; [exact Hok|].
  pose proof (owned_is_stored _ _ _ Hcheck) as Hin.
  match goal with
  | |- store_ok (db (snd (?c w))) =>
      assert (H : keeps_ok sid c); [|exact (proj1 (H w Hok Hin))]
  end.
  apply keeps_ok_bind; [apply keeps_ok_add_message|intros _].
  apply (keeps_ok_reply sid msg false (fun _ m => message_response m)).
Qed.

Lemma send_message_stream_keeps_ok (sid : Z) (msg : ChatMessageCreate)
  (u : UserResponse) (w : world) :
  store_ok (db w) ->
  store_ok (db (snd (serve (send_message_stream env svc sid msg u) w))).
Proof.
  intros Hok. unfold serve, send_message_stream, guarded, try_except.
  unfold bind at 1. unfold bind at 1. rewrite get_session_by_id_run.
  destruct (not_owned (session_of (db w) sid) u) eqn:Hcheck; [exact Hok|].
  pose proof (owned_is_stored _ _ _ Hcheck) as Hin.
  destruct (keeps_ok_add_message sid (mc_content msg) (lit "user") w Hok Hin)
    as [Hok1 Hids].
  destruct (add_message_to_session_run env sid (mc_content msg) (lit "user") w)
    as (w1 & Hrun & _).
  unfold bind. rewrite Hrun in *. cbn [snd ret] in *.
  assert (Hin1 : In sid (map session_id (sessions (db w1))))
    by now rewrite Hids.
  match goal with
  | |- store_ok (db (snd (?c w1))) =>
      assert (H : keeps_ok sid c); [|exact (proj1 (H w1 Hok1 Hin1))]
  end.
  unfold generate_stream.
  apply keeps_ok_try; [|intros _; apply keeps_ok_ret].
  apply (keeps_ok_reply sid msg true
           (fun t m => [ DataFrame (message_id m) t (lit "bot") (created_at m);
                         DoneFrame ])).
Qed.

Lemma delete_keeps_ok (sid : Z) (u : UserResponse) (w : world) :
  store_ok (db w) -> store_ok (db (snd (delete_chat_session sid u w))).
Proof.
  intros Hok. unfold delete_chat_session. rewrite snd_guarded.
  unfold bind at 1. rewrite get_session_by_id_run.
  destruct (session_of (db w) sid) as [s|]; [|exact Hok].
  destruct (not_owned (Some s) u); [exact Hok|].
  unfold delete_session, bind, get_db, put_db, ret. cbn [snd db].
  destruct Hok as [He Hu Hsi Hmi Hown].
  constructor; cbn [users sessions messages]; auto using NoDup_map_filter.
  intros m Hm. apply filter_In in Hm as [Hm Hne].
  specialize (Hown m Hm). apply in_map_iff in Hown as (x & Hx & Hin).
  apply in_map_iff. exists x. split; auto.
  apply filter_In. split; auto. now rewrite Hx.
Qed.

(** X15. Every handler that writes keeps the store consistent: if, before
    a call of [register], of the creation of a session, of either sending
    handler (the streaming one with its body run) or of the deletion of a
    session, emails, user ids, session ids and message ids are each given
    once and every message belongs to a stored session, then so it is
    after the call, whatever the call returns.  The handlers that read
    leave the world as it is. *)
Theorem handlers_keep_the_store_consistent (w : world) :
  store_ok (db w) ->
  (forall user, store_ok (db (snd (register env user w))))
  /\ (forall ttl u, store_ok (db (snd (create_chat_session_route env ttl u w))))
  /\ (forall sid msg u, store_ok (db (snd (send_message env svc sid msg u w))))
  /\ (forall sid msg u,
         store_ok (db (snd (serve (send_message_stream env svc sid msg u) w))))
  /\ (forall sid u, store_ok (db (snd (delete_chat_session sid u w))))
  /\ (forall sid u, snd (get_session_messages_route sid u w) = w)
  /\ (forall u, snd (get_chat_sessions u w) = w)
  /\ (forall token, snd (get_current_user env token w) = w).
Proof.
  intros Hok.
  split; [|split; [|split; [|split; [|split; [|split; [|split]]]]]].
  - intros user. now apply register_keeps_ok.
  - intros ttl u. now apply create_session_keeps_ok.
  - intros sid msg u. now apply send_message_keeps_ok.
  - intros sid msg u. now apply send_message_stream_keeps_ok.
  - intros sid u. now apply delete_keeps_ok.
  - intros sid u. unfold get_session_messages_route. rewrite snd_guarded.
    unfold bind at 1. rewrite get_session_by_id_run.
    destruct (not_owned _ u); reflexivity.
  - intros u. unfold get_chat_sessions. rewrite snd_guarded_all. reflexivity.
  - intros token. unfold get_current_user. rewrite snd_guarded.
    destruct (verify_token env token); [|reflexivity].
    unfold bind. rewrite get_user_by_email_run.
    destruct (user_of (db w) s); reflexivity.
Qed.

(** *** The steps of the sending handlers *)

(** The listing of a session's messages in a world. *)
Definition listing (w : world) (sid : Z) : list ChatMessage :=
  order_by_asc created_at (rows_of (db w) sid).

(** The frames of a reply. *)
Definition reply_frames (t : str) (m : ChatMessage) : list frame :=
  [ DataFrame (message_id m) t (lit "bot") (created_at m); DoneFrame ].

(** Once the check has passed, either sending handler is the sequence of
    its four steps, each of which returns: the incoming row is stored,
    the title step runs, the completion is asked for, the reply is
    stored. *)
Lemma sending_run (sid : Z) (msg : ChatMessageCreate) (u : UserResponse)
  (streaming : bool) (w : world) :
  not_owned (session_of (db w) sid) u = false ->
  exists w1 w2 t w3 w4,
    add_message_to_session env sid (mc_content msg) (lit "user") w
    = (Ok (new_message env sid (mc_content msg) (lit "user") w), w1)
    /\ title_step env svc sid msg (listing w1 sid) w1 = (Ok tt, w2)
    /\ generate_response env svc (format_messages_for_api (listing w1 sid))
         streaming w2 = (Ok t, w3)
    /\ add_message_to_session env sid t (lit "bot") w3
       = (Ok (new_message env sid t (lit "bot") w3), w4)
    /\ (if streaming
        then serve (send_message_stream env svc sid msg u) w
             = (Ok (reply_frames t (new_message env sid t (lit "bot") w3)), w4)
        else send_message env svc sid msg u w
             = (Ok (message_response (new_message env sid t (lit "bot") w3)), w4)).
Proof.
  intros Hcheck.
  destruct (add_message_to_session_run env sid (mc_content msg) (lit "user") w)
    as (w1 & Hadd & _).
  destruct (title_step_run env svc sid msg (listing w1 sid) w1)
    as (w2 & Htitle & _).
  destruct (generate_response_run env svc
              (format_messages_for_api (listing w1 sid)) streaming w2)
    as (t & w3 & Hgen & _).
  destruct (add_message_to_session_run env sid t (lit "bot") w3)
    as (w4 & Hbot & _).
  exists w1, w2, t, w3, w4. repeat (split; [assumption|]).
  destruct streaming.
  - unfold serve, send_message_stream, guarded, try_except.
    unfold bind at 1.
    rewrite (@bind_run _ _ _ _ _ _ _ (get_session_by_id_run sid w)), Hcheck.
    rewrite (@bind_run _ _ _ _ _ _ _ Hadd). unfold ret at 1.
    unfold generate_stream, try_except.
    rewrite (@bind_run _ _ _ _ _ w1 _ (eq_refl : get_session_messages sid w1
                                                 = (Ok (listing w1 sid), w1))).
    rewrite (@bind_run _ _ _ _ _ _ _ Htitle).
    rewrite (@bind_run _ _ _ _ _ _ _ Hgen).
    rewrite (@bind_run _ _ _ _ _ _ _ Hbot).
    reflexivity.
  - unfold send_message, guarded, try_except.
    rewrite (@bind_run _ _ _ _ _ _ _ (get_session_by_id_run sid w)), Hcheck.
    rewrite (@bind_run _ _ _ _ _ _ _ Hadd).
    rewrite (@bind_run _ _ _ _ _ w1 _ (eq_refl : get_session_messages sid w1
                                                 = (Ok (listing w1 sid), w1))).
    rewrite (@bind_run _ _ _ _ _ _ _ Htitle).
    rewrite (@bind_run _ _ _ _ _ _ _ Hgen).
    rewrite (@bind_run _ _ _ _ _ _ _ Hbot).
    reflexivity.
Qed.

Definition is_user_row (m : ChatMessage) : bool :=
  PyStr.eqb (sender_type m) (lit "user").

Lemma filter_length_perm {A} (p : A -> bool) (l l' : list A) :
  Permutation l l' -> length (filter p l) = length (filter p l').
Proof.
  induction 1 as [|x l l' _ IH|x y l|l l' l'' _ IH1 _ IH2]; simpl; auto.
  - destruct (p x); simpl; auto.
  - destruct (p x), (p y); reflexivity.
  - congruence.
Qed.

(** After an append to a stored session, its id finds the session with
    the new [updated_at] and the rest as before, and its rows are the rows
    before followed by the new one. *)
Lemma add_message_session (sid : Z) (c sender : str) (w : world)
  (s : ChatSession) :
  session_of (db w) sid = Some s ->
  let w' := snd (add_message_to_session env sid c sender w) in
  session_of (db w') sid = Some (set_updated_at (now env (S (clock_reads w))) s)
  /\ rows_of (db w') sid = rows_of (db w) sid ++ [new_message env sid c sender w]
  /\ sent w' = sent w.
Proof.
  intros Hs.
  destruct (add_message_to_session_run env sid c sender w)
    as (w1 & Hrun & Hm & _ & Hsent & _ & Hsess).
  rewrite Hrun. cbn [snd]. split; [|split; [|exact Hsent]].
  - unfold session_of in *. rewrite Hs in Hsess. rewrite Hsess.
    apply find_update_first; auto.
  - unfold rows_of. rewrite Hm, filter_app.
    cbn [filter new_message message_session_id]. now rewrite Z.eqb_refl.
Qed.

(** The title step when the listing holds one row of role [user]: the
    title asked of the provider is stored. *)
Lemma title_step_first (sid : Z) (msg : ChatMessageCreate)
  (previous_messages : list ChatMessage) (w : world) (s : ChatSession) :
  length (filter is_user_row previous_messages) = 1%nat ->
  session_of (db w) sid = Some s ->
  exists t wg w',
    generate_response env svc (title_messages (mc_content msg)) false w
    = (Ok t, wg)
    /\ title_step env svc sid msg previous_messages w = (Ok tt, w')
    /\ session_of (db w') sid = Some (set_title (finish_title t) s).
Proof.
  intros Hcount Hs. unfold title_step.
  fold is_user_row. rewrite Hcount. cbn [Nat.eqb].
  destruct (generate_response_run env svc (title_messages (mc_content msg))
              false w) as (t & wg & Hgen & Hdb & _).
  exists t, wg.
  pose proof Hgen as Hgen0.
  unfold try_except, bind, generate_chat_title, generate_chat_title_with,
    try_except, bind.
  unfold title_messages in Hgen. rewrite Hgen. unfold ret at 1.
  unfold update_session_title, bind. rewrite get_session_by_id_run, Hdb, Hs.
  eexists. split; [exact Hgen0|]. split; [reflexivity|].
  unfold session_of. cbn [db sessions]. rewrite Hdb.
  apply find_update_first; auto.
Qed.

Lemma title_step_later (sid : Z) (msg : ChatMessageCreate)
  (previous_messages : list ChatMessage) (w : world) :
  length (filter is_user_row previous_messages) <> 1%nat ->
  title_step env svc sid msg previous_messages w = (Ok tt, w).
Proof.
  intros Hcount. unfold title_step. fold is_user_row.
  apply Nat.eqb_neq in Hcount. now rewrite Hcount.
Qed.

(** X16. The title of a session changes on the first message of role
    [user] only.  When the session of a request that passes the check
    already has such a row, either sending handler leaves the title as it
    was; when it has none, the title afterwards is the post-processed
    text the title request returned. Owner and id stay in both cases. *)
Theorem title_is_set_by_the_first_user_message_only
  (sid : Z) (msg : ChatMessageCreate) (u : UserResponse) (streaming : bool)
  (w : world) (s : ChatSession) :
  session_of (db w) sid = Some s ->
  session_user_id s = ur_id u ->
  let w' := if streaming
            then snd (serve (send_message_stream env svc sid msg u) w)
            else snd (send_message env svc sid msg u w) in
  exists s',
    session_of (db w') sid = Some s'
    /\ session_id s' = session_id s
    /\ session_user_id s' = session_user_id s
    /\ (filter is_user_row (rows_of (db w) sid) <> [] -> title s' = title s)
    /\ (filter is_user_row (rows_of (db w) sid) = [] ->
        exists t,
          fst (generate_response env svc (title_messages (mc_content msg)) false
                 (snd (add_message_to_session env sid (mc_content msg)
                         (lit "user") w)))
          = Ok t
          /\ title s' = finish_title t).
Proof.
  intros Hs Hown w'.
  pose proof (@owned_session sid u w s Hs Hown) as Hcheck.
  destruct (sending_run sid msg u streaming w Hcheck)
    as (w1 & w2 & t & w3 & w4 & Hadd & Htitle & Hgen & Hbot & Hrun).
  assert (Hw' : w' = w4).
  { unfold w'. destruct streaming; now rewrite Hrun. }
  destruct (add_message_session sid (mc_content msg) (lit "user") w Hs)
    as (Hs1 & Hrows & _).
  rewrite Hadd in Hs1, Hrows. cbn [snd] in Hs1, Hrows.
  assert (Hcount : length (filter is_user_row (listing w1 sid))
                   = S (length (filter is_user_row (rows_of (db w) sid)))).
  { unfold listing.
    rewrite (filter_length_perm _ (order_by_asc_perm created_at _)).
    rewrite Hrows, filter_app, length_app. cbn. lia. }
  destruct (generate_response_run env svc
              (format_messages_for_api (listing w1 sid)) streaming w2)
    as (t' & w3' & Hgen' & Hdb3 & _).
  rewrite Hgen in Hgen'. injection Hgen' as <- <-.
  destruct (filter is_user_row (rows_of (db w) sid)) as [|m0 earlier] eqn:He.
  - destruct (title_step_first sid msg (listing w1 sid) w1 Hcount Hs1)
      as (tt0 & wg & w2' & Htg & Htitle' & Hs2).
    rewrite Htitle in Htitle'. injection Htitle' as <-.
    assert (Hs3 : session_of (db w3) sid
                  = Some (set_title (finish_title tt0)
                            (set_updated_at (now env (S (clock_reads w))) s)))
      by now rewrite Hdb3.
    destruct (add_message_session sid t (lit "bot") w3 Hs3) as (Hs4 & _).
    rewrite Hbot in Hs4. cbn [snd] in Hs4.
    eexists. rewrite Hw'. split; [exact Hs4|].
    split; [reflexivity|]. split; [reflexivity|]. split; [congruence|].
    intros _. exists tt0. rewrite Hadd. cbn [snd]. rewrite Htg.
    split; reflexivity.
  - rewrite (title_step_later sid msg (listing w1 sid) w1) in Htitle
      by (rewrite Hcount; cbn; lia).
    injection Htitle as <-.
    assert (Hs3 : session_of (db w3) sid
                  = Some (set_updated_at (now env (S (clock_reads w))) s))
      by now rewrite Hdb3.
    destruct (add_message_session sid t (lit "bot") w3 Hs3) as (Hs4 & _).
    rewrite Hbot in Hs4. cbn [snd] in Hs4.
    eexists. rewrite Hw'. split; [exact Hs4|].
    split; [reflexivity|]. split; [reflexivity|]. split; [reflexivity|].
    intros H; discriminate H.
Qed.

(** [update_session_title] sends nothing. *)
Lemma update_session_title_sent (sid : Z) (ttl : str) (w : world) :
  sent (snd (update_session_title sid ttl w)) = sent w.
Proof.
  unfold update_session_title, bind. rewrite get_session_by_id_run.
  destruct (session_of (db w) sid); reflexivity.
Qed.

(** The request for a title. *)
Definition title_request (msg : ChatMessageCreate) : request :=
  {| url := base_url svc ++ lit "/chat/completions";
     headers := service_headers svc;
     json := {| p_model := model svc;
                p_messages := title_messages (mc_content msg);
                p_max_tokens := 2000;
                p_temperature := lit "0.7";
                p_stream := false |} |}.

(** With a key configured, the title step sends the request for a title
    when the listing holds one row of role [user], and nothing
    otherwise. *)
Lemma title_step_sent (sid : Z) (msg : ChatMessageCreate)
  (previous_messages : list ChatMessage) (w : world) :
  api_key svc <> [] ->
  sent (snd (title_step env svc sid msg previous_messages w))
  = (if (length (filter is_user_row previous_messages) =? 1)%nat
     then [title_request msg] else []) ++ sent w.
Proof.
  intros Hkey. unfold title_step. fold is_user_row.
  destruct (_ =? 1)%nat; [|reflexivity].
  pose proof (generate_response_world env svc
                (title_messages (mc_content msg)) false w Hkey) as Hw1.
  destruct (generate_response_run env svc (title_messages (mc_content msg))
              false w) as (t & w1 & Hgen & _).
  rewrite Hgen in Hw1. cbn [snd] in Hw1.
  unfold try_except, bind, generate_chat_title, generate_chat_title_with,
    try_except, bind.
  unfold title_messages in Hgen. rewrite Hgen. unfold ret at 1.
  pose proof (update_session_title_sent sid (finish_title t) w1) as Hup.
  destruct (update_session_title sid (finish_title t) w1) as [[r|e] w2];
    cbn [snd] in *; unfold ret; cbn [snd]; rewrite Hup, Hw1; reflexivity.
Qed.

(** X17. With a key configured, for a request that passes the check,
    either sending handler asks the provider for the reply with one
    request whose messages are the system message followed by the
    session's rows, the incoming one included, sorted by creation time and
    mapped to the provider's roles; the reply it hands to the caller is
    the row it stored last, of role [bot], in the same session.  The
    reply request is the last one sent; before it the handler has sent
    the request for a title when the session had no row of role [user],
    and nothing otherwise. *)
Theorem history_is_sent_and_reply_is_stored
  (sid : Z) (msg : ChatMessageCreate) (u : UserResponse) (streaming : bool)
  (w : world) (s : ChatSession) :
  api_key svc <> [] ->
  session_of (db w) sid = Some s ->
  session_user_id s = ur_id u ->
  let stored :=
    {| message_id := fresh_id (map message_id (messages (db w)));
       message_session_id := sid;
       content := mc_content msg;
       sender_type := lit "user";
       created_at := now env (clock_reads w) |} in
  exists history bot w',
    (if streaming
     then serve (send_message_stream env svc sid msg u) w
          = (Ok [ DataFrame (message_id bot) (content bot) (lit "bot")
                            (created_at bot);
                  DoneFrame ], w')
     else send_message env svc sid msg u w = (Ok (message_response bot), w'))
    /\ messages (db w') = messages (db w) ++ [stored; bot]
    /\ sender_type bot = lit "bot"
    /\ message_session_id bot = sid
    /\ Permutation history (rows_of (db w) sid ++ [stored])
    /\ Sorted (key_le created_at) history
    /\ sent w'
       = {| url := base_url svc ++ lit "/chat/completions";
            headers := service_headers svc;
            json := {| p_model := model svc;
                       p_messages := system_message :: map to_api history;
                       p_max_tokens := 2000;
                       p_temperature := lit "0.7";
                       p_stream := streaming |} |}
         :: match filter is_user_row (rows_of (db w) sid) with
            | [] => [title_request msg]
            | _ :: _ => []
            end ++ sent w.
Proof.
  intros Hkey Hs Hown stored.
  pose proof (@owned_session sid u w s Hs Hown) as Hcheck.
  destruct (sending_run sid msg u streaming w Hcheck)
    as (w1 & w2 & t & w3 & w4 & Hadd & Htitle & Hgen & Hbot & Hrun).
  fold stored in Hadd.
  destruct (add_message_to_session_run env sid (mc_content msg) (lit "user") w)
    as (w1' & Hadd' & Hm1 & _ & Hsent1 & _).
  fold stored in Hadd', Hm1.
  rewrite Hadd in Hadd'. injection Hadd' as <-.
  destruct (add_message_session sid (mc_content msg) (lit "user") w Hs)
    as (_ & Hrows & _).
  rewrite Hadd in Hrows. cbn [snd] in Hrows. fold stored in Hrows.
  destruct (title_step_run env svc sid msg (listing w1 sid) w1)
    as (w2' & Htitle' & Hm2 & _).
  rewrite Htitle in Htitle'. injection Htitle' as <-.
  pose proof (title_step_sent sid msg (listing w1 sid) w1 Hkey) as Hsent2.
  rewrite Htitle in Hsent2. cbn [snd] in Hsent2.
  assert (Hcount : length (filter is_user_row (listing w1 sid))
                   = S (length (filter is_user_row (rows_of (db w) sid)))).
  { unfold listing.
    rewrite (filter_length_perm _ (order_by_asc_perm created_at _)).
    rewrite Hrows, filter_app, length_app. cbn. lia. }
  rewrite Hcount, Hsent1 in Hsent2.
  pose proof (generate_response_world env svc
                (format_messages_for_api (listing w1 sid)) streaming w2 Hkey)
    as Hw3.
  rewrite Hgen in Hw3. cbn [snd] in Hw3.
  destruct (add_message_to_session_run env sid t (lit "bot") w3)
    as (w4' & Hbot' & Hm4 & _ & Hsent4 & _).
  rewrite Hbot in Hbot'. injection Hbot' as <-.
  exists (listing w1 sid), (new_message env sid t (lit "bot") w3), w4.
  split; [|split; [|split; [|split; [|split; [|split]]]]].
  - destruct streaming; exact Hrun.
  - rewrite Hm4, Hw3. cbn [after_request db]. rewrite Hm2, Hm1, <- app_assoc.
    reflexivity.
  - reflexivity.
  - reflexivity.
  - unfold listing. rewrite Hrows. apply order_by_asc_perm.
  - apply order_by_asc_sorted.
  - rewrite Hsent4, Hw3. cbn [after_request sent].
    rewrite format_messages_for_api_map, Hsent2.
    destruct (filter is_user_row (rows_of (db w) sid)); reflexivity.
Qed.

End HandlersMore.

(* ================================================================== *)
(** * Further concrete runs of the handlers *)
(* ================================================================== *)

Definition deleted_ok : APIResponse :=
  {| success := true;
     message := lit "Chat session deleted successfully";
     data := None |}.

Lemma owner_delete_removes_session_witness :
  exists w',
    delete_chat_session 9 (user_response bob) world_with_two_sessions
    = (Ok deleted_ok, w')
    /\ session_of (db w') 9 = None
    /\ fst (get_session_messages 9 w') = Ok []
    /\ (forall other, other <> 9%Z ->
          session_of (db w') other
          = session_of (db world_with_two_sessions) other
          /\ fst (get_session_messages other w')
             = fst (get_session_messages other world_with_two_sessions))
    /\ users (db w') = [alice; bob]
    /\ delete_chat_session 9 (user_response bob) w'
       = (Raise not_found_404, w')
    /\ get_session_messages_route 9 (user_response bob) w'
       = (Raise not_found_404, w').
Proof.
  exact (@owner_delete_removes_session 9%Z (user_response bob)
           world_with_two_sessions bobs_other_session eq_refl eq_refl).
Defined.

Lemma two_sessions_store_ok : store_ok (db world_with_two_sessions).
Proof.
  constructor; cbn.
  - repeat constructor; cbn; intuition discriminate.
  - repeat constructor; cbn; intuition discriminate.
  - repeat constructor; cbn; intuition discriminate.
  - repeat constructor; cbn; intuition discriminate.
  - intros m [<-|[]]. cbn. auto.
Defined.

Lemma handlers_keep_the_store_consistent_witness :
  store_ok (db world_with_two_sessions)
  /\ store_ok (db (snd (register env_hello carol_signup world_with_two_sessions)))
  /\ store_ok (db (snd (create_chat_session_route env_hello (lit "Plans")
                          (user_response alice) world_with_two_sessions)))
  /\ store_ok (db (snd (send_message env_hello demo_service 7 hi_as_bot
                          (user_response bob) world_with_two_sessions)))
  /\ store_ok (db (snd (serve (send_message_stream env_hello demo_service 9
                                 hi_as_bot (user_response bob))
                          world_with_two_sessions)))
  /\ store_ok (db (snd (delete_chat_session 9 (user_response bob)
                          world_with_two_sessions))).
Proof.
  pose proof (@handlers_keep_the_store_consistent env_hello demo_service
                world_with_two_sessions two_sessions_store_ok)
    as (H1 & H2 & H3 & H4 & H5 & _).
  split; [exact two_sessions_store_ok|].
  split; [apply H1|]. split; [apply H2|]. split; [apply H3|].
  split; [apply H4|apply H5].
Defined.

(** Session 9 already has a message of role user, session 7 has none. *)
Lemma title_is_set_by_the_first_user_message_only_witness :
  (exists s',
      session_of (db (snd (send_message env_hello demo_service 9 hi_as_bot
                             (user_response bob) world_with_two_sessions))) 9
      = Some s'
      /\ title s' = lit "Recipes")
  /\ (exists s' t,
         session_of (db (snd (send_message env_hello demo_service 7 hi_as_bot
                                (user_response bob) world_with_two_sessions))) 7
         = Some s'
         /\ fst (generate_response env_hello demo_service
                   (title_messages (lit "Hi")) false
                   (snd (add_message_to_session env_hello 7 (lit "Hi")
                           (lit "user") world_with_two_sessions)))
            = Ok t
         /\ title s' = finish_title t).
Proof.
  split.
  - destruct (@title_is_set_by_the_first_user_message_only env_hello
                demo_service 9%Z hi_as_bot (user_response bob) false
                world_with_two_sessions bobs_other_session eq_refl eq_refl)
      as (s' & Hs' & _ & _ & Hkeep & _).
    exists s'. split; [exact Hs'|]. apply Hkeep. discriminate.
  - destruct (@title_is_set_by_the_first_user_message_only env_hello
                demo_service 7%Z hi_as_bot (user_response bob) false
                world_with_two_sessions bobs_session eq_refl eq_refl)
      as (s' & Hs' & _ & _ & _ & Hset).
    destruct (Hset eq_refl) as (t & Ht & Htitle).
    exists s', t. auto.
Defined.

Example first_message_title :
  option_map title
    (session_of (db (snd (send_message env_hello demo_service 7 hi_as_bot
                            (user_response bob) world_with_two_sessions))) 7)
  = Some (lit "Hello there.").
Proof. vm_compute. reflexivity. Qed.

Lemma history_is_sent_and_reply_is_stored_witness :
  (let stored :=
     {| message_id := 2; message_session_id := 9; content := lit "Hi";
        sender_type := lit "user"; created_at := 6 |} in
   exists history bot w',
     send_message env_hello demo_service 9 hi_as_bot (user_response bob)
       world_with_two_sessions
     = (Ok (message_response bot), w')
     /\ messages (db w') = [recipe_question] ++ [stored; bot]
     /\ sender_type bot = lit "bot"
     /\ message_session_id bot = 9%Z
     /\ Permutation history ([recipe_question] ++ [stored])
     /\ Sorted (key_le created_at) history
     /\ sent w'
        = [ {| url := lit "https://openrouter.ai/api/v1/chat/completions";
               headers := service_headers demo_service;
               json := {| p_model := lit "anthropic/claude-3.5-sonnet";
                          p_messages := system_message :: map to_api history;
                          p_max_tokens := 2000;
                          p_temperature := lit "0.7";
                          p_stream := false |} |} ])
  /\ (let stored :=
        {| message_id := 2; message_session_id := 7; content := lit "Hi";
           sender_type := lit "user"; created_at := 6 |} in
      exists history bot w',
        send_message env_hello demo_service 7 hi_as_bot (user_response bob)
          world_with_two_sessions
        = (Ok (message_response bot), w')
        /\ messages (db w') = [recipe_question] ++ [stored; bot]
        /\ sender_type bot = lit "bot"
        /\ message_session_id bot = 7%Z
        /\ Permutation history [stored]
        /\ Sorted (key_le created_at) history
        /\ sent w'
           = [ {| url := lit "https://openrouter.ai/api/v1/chat/completions";
                  headers := service_headers demo_service;
                  json := {| p_model := lit "anthropic/claude-3.5-sonnet";
                             p_messages := system_message :: map to_api history;
                             p_max_tokens := 2000;
                             p_temperature := lit "0.7";
                             p_stream := false |} |};
               {| url := lit "https://openrouter.ai/api/v1/chat/completions";
                  headers := service_headers demo_service;
                  json := {| p_model := lit "anthropic/claude-3.5-sonnet";
                             p_messages := title_messages (lit "Hi");
                             p_max_tokens := 2000;
                             p_temperature := lit "0.7";
                             p_stream := false |} |} ]).
Proof.
  assert (Hkey : api_key demo_service <> []) by discriminate.
  split.
  - exact (@history_is_sent_and_reply_is_stored env_hello demo_service 9%Z
             hi_as_bot (user_response bob) false world_with_two_sessions
             bobs_other_session Hkey eq_refl eq_refl).
  - exact (@history_is_sent_and_reply_is_stored env_hello demo_service 7%Z
             hi_as_bot (user_response bob) false world_with_two_sessions
             bobs_session Hkey eq_refl eq_refl).
Defined.

(* ================================================================== *)
(** * Login ([app/routes/auth.py], [app/services/user_service.py]) *)
(* ================================================================== *)

(** [app/schemas.py] *)
Record UserLogin : Type := {
  ul_email : str;
  ul_password : str
}.

Record Token : Type := {
  access_token : str;
  token_type : str
}.

Record LoginResponse : Type := {
  lr_success : bool;
  lr_message : str;
  lr_user : UserResponse;
  lr_token : Token
}.

Section Login.

Variable env : environment.

(** [app/utils/auth.py] is not among the sources: the check of a
    password against a hash and the issue of a token for a subject and a
    lifetime in minutes are parameters, as is the lifetime read from the
    settings. *)
Variable verify_password : str -> str -> bool.
Variable create_access_token : str -> Z -> str.
Variable access_token_expire_minutes : Z.

(** [UserService.authenticate_user] *)
Definition authenticate_user (e password : str) : M (option User) :=
  user <- get_user_by_email e ;;
  match user with
  | None => ret None
  | Some u =>
      if negb (verify_password password (hashed_password u)) then ret None
      else ret (Some u)
  end.

(** [login] *)
Definition login (user_credentials : UserLogin) : M LoginResponse :=
  guarded (lit "Internal server error")
    (user <- authenticate_user (ul_email user_credentials)
                               (ul_password user_credentials) ;;
     match user with
     | None => raise (HTTPException 401 (lit "Incorrect email or password"))
     | Some u =>
         if negb (is_active u)
         then raise (HTTPException 400 (lit "User account is inactive"))
         else
           let token := create_access_token (email u)
                                            access_token_expire_minutes in
           ret {| lr_success := true;
                  lr_message := lit "Login successful";
                  lr_user := user_response u;
                  lr_token := {| access_token := token;
                                 token_type := lit "bearer" |} |}
     end).

Lemma login_unfold (c : UserLogin) (w : world) :
  login c w
  = match user_of (db w) (ul_email c) with
    | None =>
        (Raise (HTTPException 401 (lit "Incorrect email or password")), w)
    | Some u =>
        if verify_password (ul_password c) (hashed_password u) then
          if is_active u then
            (Ok {| lr_success := true;
                   lr_message := lit "Login successful";
                   lr_user := user_response u;
                   lr_token :=
                     {| access_token :=
                          create_access_token (email u)
                                              access_token_expire_minutes;
                        token_type := lit "bearer" |} |}, w)
          else (Raise (HTTPException 400 (lit "User account is inactive")), w)
        else (Raise (HTTPException 401 (lit "Incorrect email or password")), w)
    end.
Proof.
  unfold login, guarded, try_except, authenticate_user, bind.
  rewrite get_user_by_email_run.
  destruct (user_of (db w) (ul_email c)) as [u|]; [|reflexivity].
  destruct (verify_password _ _); [|reflexivity].
  cbv [negb ret raise]. destruct (is_active u); reflexivity.
Qed.

(** X18. [login] answers an email that is not stored and a wrong password
    for a stored email alike, with status 401 and the detail "Incorrect
    email or password"; a right password for an account that is not
    active is answered with status 400 and "User account is inactive".
    No failed login changes the world. *)
Theorem login_failures (c : UserLogin) (w : world) :
  (user_of (db w) (ul_email c) = None
   \/ (exists u, user_of (db w) (ul_email c) = Some u
                 /\ verify_password (ul_password c) (hashed_password u) = false) ->
   login c w
   = (Raise (HTTPException 401 (lit "Incorrect email or password")), w))
  /\ (forall u,
         user_of (db w) (ul_email c) = Some u ->
         verify_password (ul_password c) (hashed_password u) = true ->
         is_active u = false ->
         login c w
         = (Raise (HTTPException 400 (lit "User account is inactive")), w)).
Proof.
  rewrite login_unfold. split.
  - intros [->|(u & -> & ->)]; reflexivity.
  - intros u -> -> ->. reflexivity.
Qed.

Lemma user_of_email (d : database) (e : str) (u : User) :
  user_of d e = Some u -> email u = e /\ In u (users d).
Proof.
  unfold user_of. intros H. apply find_some in H as [Hin Heq].
  split; auto. now apply str_eqb_eq.
Qed.

(** X19. A login with the right password for an active account returns
    the profile of the stored user and a bearer token issued for the
    user's email with the configured lifetime, and leaves the world as it
    is.  As long as that token verifies to that email, [/auth/me] returns
    the same profile and every protected handler runs for that user. *)
Theorem login_token_resolves_to_the_user
  (c : UserLogin) (w : world) (u : User) :
  user_of (db w) (ul_email c) = Some u ->
  verify_password (ul_password c) (hashed_password u) = true ->
  is_active u = true ->
  let token := create_access_token (email u) access_token_expire_minutes in
  login c w
  = (Ok {| lr_success := true;
           lr_message := lit "Login successful";
           lr_user := user_response u;
           lr_token := {| access_token := token; token_type := lit "bearer" |} |},
     w)
  /\ ur_email (user_response u) = ul_email c
  /\ (verify_token env token = Some (email u) ->
      get_current_user env token w = (Ok (user_response u), w)
      /\ forall A (handler : UserResponse -> M A),
          protected env handler token w = handler (user_response u) w).
Proof.
  intros Hu Hpw Hact token. destruct (user_of_email _ _ Hu) as [Hemail _].
  split; [|split].
  - rewrite login_unfold, Hu, Hpw, Hact. reflexivity.
  - exact Hemail.
  - intros Hverify.
    assert (Hu' : user_of (db w) (email u) = Some u) by now rewrite Hemail.
    unfold protected, get_current_user, get_current_user_dependency,
      guarded, try_except, bind.
    rewrite Hverify, !get_user_by_email_run, Hu'. split; reflexivity.
Qed.

(** The world after a registration under an email that is not stored. *)
Lemma register_run (user : UserCreate) (w : world) :
  (forall x, In x (users (db w)) -> email x <> uc_email user) ->
  let new := {| user_id := fresh_id (map user_id (users (db w)));
                email := uc_email user;
                name := uc_name user;
                hashed_password := get_password_hash env (uc_password user);
                is_active := true;
                user_created_at := now env (clock_reads w) |} in
  snd (register env user w)
  = {| db := {| users := users (db w) ++ [new];
                sessions := sessions (db w);
                messages := messages (db w) |};
       sent := sent w;
       clock_reads := S (clock_reads w) |}
  /\ user_of (db (snd (register env user w))) (uc_email user) = Some new.
Proof.
  intros Hfresh new.
  assert (Hnone : find (fun x => PyStr.eqb (email x) (uc_email user))
                       (users (db w)) = None)
    by (apply (@user_of_none (db w) (uc_email user)); assumption).
  assert (Hrun : snd (register env user w)
                 = {| db := {| users := users (db w) ++ [new];
                               sessions := sessions (db w);
                               messages := messages (db w) |};
                      sent := sent w;
                      clock_reads := S (clock_reads w) |}).
  { cbv [register guarded try_except bind get_user_by_email get_db ret].
    rewrite Hnone.
    cbv [create_user bind get_db func_now lift insert_user].
    cbn [email db users]. rewrite existsb_email_none by assumption.
    cbv [put_db ret]. fold new. reflexivity. }
  split; [exact Hrun|].
  rewrite Hrun. unfold user_of. cbn [db users].
  apply find_app_last; [exact Hnone|]. cbn [email]. apply str_eqb_refl.
Qed.

(** X20. When the check of a password against its own hash succeeds, a
    user registered under an email that was not stored can log in with the
    email and the password of the registration: the login returns the
    registered email and name, an active profile and a token issued for
    that email. *)
Theorem registered_user_can_log_in (user : UserCreate) (w : world) :
  (forall p, verify_password p (get_password_hash env p) = true) ->
  (forall x, In x (users (db w)) -> email x <> uc_email user) ->
  let w1 := snd (register env user w) in
  exists resp,
    login {| ul_email := uc_email user; ul_password := uc_password user |} w1
    = (Ok resp, w1)
    /\ ur_email (lr_user resp) = uc_email user
    /\ ur_name (lr_user resp) = uc_name user
    /\ ur_is_active (lr_user resp) = true
    /\ lr_token resp
       = {| access_token :=
              create_access_token (uc_email user) access_token_expire_minutes;
            token_type := lit "bearer" |}.
Proof.
  intros Hhash Hfresh w1.
  destruct (register_run user w Hfresh) as [_ Hfound].
  fold w1 in Hfound.
  eexists. rewrite login_unfold. cbn [ul_email ul_password].
  rewrite Hfound. cbn [hashed_password is_active]. rewrite Hhash.
  split; [reflexivity|]. repeat split.
Qed.

End Login.

(** A password is checked against the hash of the examples, and a token
    issued for a subject is the one the examples verify. *)
Definition demo_verify_password (password hashed : str) : bool :=
  PyStr.eqb hashed (lit "hash:" ++ password).

Definition demo_create_access_token (subject : str) (minutes : Z) : str :=
  lit "valid:" ++ subject.

Definition dave : User :=
  {| user_id := 3; email := lit "dave@example.com"; name := lit "Dave";
     hashed_password := lit "hash:dormant"; is_active := false;
     user_created_at := 0 |}.

Definition world_with_dave : world :=
  {| db := {| users := [alice; bob; dave]; sessions := []; messages := [] |};
     sent := []; clock_reads := 0 |}.

Lemma login_failures_witness :
  let refused := Raise (HTTPException 401 (lit "Incorrect email or password")) in
  login demo_verify_password demo_create_access_token 30
    {| ul_email := lit "nobody@example.com"; ul_password := lit "wonderland" |}
    world_with_dave = (refused, world_with_dave)
  /\ login demo_verify_password demo_create_access_token 30
       {| ul_email := lit "alice@example.com"; ul_password := lit "guess" |}
       world_with_dave = (refused, world_with_dave)
  /\ login demo_verify_password demo_create_access_token 30
       {| ul_email := lit "dave@example.com"; ul_password := lit "dormant" |}
       world_with_dave
     = (Raise (HTTPException 400 (lit "User account is inactive")),
        world_with_dave).
Proof.
  split; [|split].
  - exact (proj1 (@login_failures demo_verify_password
                    demo_create_access_token 30%Z
                    {| ul_email := lit "nobody@example.com";
                       ul_password := lit "wonderland" |} world_with_dave)
                 (or_introl eq_refl)).
  - exact (proj1 (@login_failures demo_verify_password
                    demo_create_access_token 30%Z
                    {| ul_email := lit "alice@example.com";
                       ul_password := lit "guess" |} world_with_dave)
                 (or_intror (ex_intro _ alice (conj eq_refl eq_refl)))).
  - exact (proj2 (@login_failures demo_verify_password
                    demo_create_access_token 30%Z
                    {| ul_email := lit "dave@example.com";
                       ul_password := lit "dormant" |} world_with_dave)
                 dave eq_refl eq_refl eq_refl).
Defined.

Lemma login_token_resolves_to_the_user_witness :
  login demo_verify_password demo_create_access_token 30
    {| ul_email := lit "alice@example.com"; ul_password := lit "wonderland" |}
    world_with_dave
  = (Ok {| lr_success := true;
           lr_message := lit "Login successful";
           lr_user := user_response alice;
           lr_token := {| access_token := lit "valid:alice@example.com";
                          token_type := lit "bearer" |} |},
     world_with_dave)
  /\ get_current_user env_hello (lit "valid:alice@example.com") world_with_dave
     = (Ok (user_response alice), world_with_dave).
Proof.
  destruct (@login_token_resolves_to_the_user env_hello demo_verify_password
              demo_create_access_token 30%Z
              {| ul_email := lit "alice@example.com";
                 ul_password := lit "wonderland" |}
              world_with_dave alice eq_refl eq_refl eq_refl)
    as (Hlogin & _ & Hme).
  split; [exact Hlogin|]. exact (proj1 (Hme eq_refl)).
Defined.

Lemma registered_user_can_log_in_witness :
  let w1 := snd (register env_hello carol_signup world_without_sessions) in
  exists resp,
    login demo_verify_password demo_create_access_token 30
      {| ul_email := lit "carol@example.com"; ul_password := lit "s3cret" |} w1
    = (Ok resp, w1)
    /\ ur_email (lr_user resp) = lit "carol@example.com"
    /\ ur_name (lr_user resp) = lit "Carol"
    /\ ur_is_active (lr_user resp) = true
    /\ lr_token resp
       = {| access_token := lit "valid:carol@example.com";
            token_type := lit "bearer" |}.
Proof.
  refine (@registered_user_can_log_in env_hello demo_verify_password
            demo_create_access_token 30%Z carol_signup world_without_sessions
            _ _).
  - intros p. unfold demo_verify_password. apply str_eqb_refl.
  - intros x [<-|[<-|[]]]; discriminate.
Defined.

(* ================================================================== *)
(** * The allowed origins ([app/main.py]) *)
(* ================================================================== *)

Definition comma : N := 44.

(** [s.split(sep)] for a separator of one code point: the parts between
    the separators, empty parts included. *)
Fixpoint split_on (sep : N) (s : str) : list str :=
  match s with
  | [] => [[]]
  | c :: s' =>
      if N.eqb c sep then [] :: split_on sep s'
      else match split_on sep s' with
           | part :: parts => (c :: part) :: parts
           | [] => [[c]]
           end
  end.

(** The [allow_origins] handed to the CORS middleware, from the value of
    the setting [allowed_origins]. *)
Definition allow_origins (allowed_origins : str) : list str :=
  if PyStr.contains allowed_origins [comma]
  then split_on comma allowed_origins
  else [allowed_origins].

(** [sep.join(parts)] *)
Fixpoint join (sep : N) (parts : list str) : str :=
  match parts with
  | [] => []
  | part :: rest =>
      match rest with
      | [] => part
      | _ :: _ => part ++ sep :: join sep rest
      end
  end.

Lemma contains_code_point (s : str) (c : N) :
  PyStr.contains s [c] = existsb (N.eqb c) s.
Proof.
  induction s as [|x s IH]; simpl; auto.
  rewrite IH. replace (startswith s []) with true by (destruct s; reflexivity).
  destruct (N.eqb c x); reflexivity.
Qed.

Lemma split_on_not_nil (sep : N) (s : str) : split_on sep s <> [].
Proof.
  destruct s as [|c s]; simpl; [discriminate|].
  destruct (N.eqb c sep); [discriminate|].
  destruct (split_on sep s); discriminate.
Qed.

Lemma split_on_without (sep : N) (s : str) :
  existsb (N.eqb sep) s = false -> split_on sep s = [s].
Proof.
  induction s as [|c s IH]; simpl; auto.
  intros H. apply orb_false_elim in H as [Hc Hs].
  rewrite N.eqb_sym, Hc, (IH Hs). reflexivity.
Qed.

Lemma join_split_on (sep : N) (s : str) : join sep (split_on sep s) = s.
Proof.
  induction s as [|c s IH]; simpl; auto.
  pose proof (split_on_not_nil sep s) as Hne.
  destruct (N.eqb_spec c sep) as [->|Hc].
  - destruct (split_on sep s) as [|part parts]; [congruence|].
    cbn [join app]. cbn [join] in IH. now rewrite IH.
  - destruct (split_on sep s) as [|part parts]; [congruence|].
    cbn [join] in *. destruct parts as [|p parts].
    + now rewrite IH.
    + rewrite <- IH. reflexivity.
Qed.

Lemma split_on_parts (sep : N) (s : str) :
  Forall (fun part => ~ In sep part) (split_on sep s).
Proof.
  induction s as [|c s IH]; simpl.
  - constructor; auto.
  - destruct (N.eqb_spec c sep) as [->|Hc].
    + constructor; auto.
    + destruct (split_on sep s) as [|part parts].
      * constructor; auto. intros [H|[]]. congruence.
      * inversion IH as [|? ? Hp Hps]; subst. constructor; auto.
        intros [H|H]; [congruence|auto].
Qed.

Lemma split_on_length (sep : N) (s : str) :
  length (split_on sep s) = S (count_occ N.eq_dec s sep).
Proof.
  induction s as [|c s IH]; simpl; auto.
  pose proof (split_on_not_nil sep s) as Hne.
  destruct (N.eqb_spec c sep) as [->|Hc].
  - destruct (N.eq_dec sep sep); [|congruence]. simpl. now rewrite IH.
  - destruct (N.eq_dec c sep); [congruence|].
    destruct (split_on sep s) as [|part parts]; [congruence|].
    simpl in *. exact IH.
Qed.

(** X21. The origins handed to the CORS middleware are the parts of the
    setting between its commas, as they are written (nothing is trimmed,
    empty parts are kept): joined with commas they give the setting back,
    none of them holds a comma, there is one more of them than there are
    commas, and a setting without a comma is one origin. *)
Theorem allow_origins_are_the_comma_parts (allowed_origins : str) :
  join comma (allow_origins allowed_origins) = allowed_origins
  /\ Forall (fun origin => ~ In comma origin) (allow_origins allowed_origins)
  /\ length (allow_origins allowed_origins)
     = S (count_occ N.eq_dec allowed_origins comma)
  /\ (~ In comma allowed_origins ->
      allow_origins allowed_origins = [allowed_origins]).
Proof.
  assert (H : allow_origins allowed_origins = split_on comma allowed_origins).
  { unfold allow_origins. rewrite contains_code_point.
    destruct (existsb _ allowed_origins) eqn:He; auto.
    symmetry. now apply split_on_without. }
  rewrite H. split; [apply join_split_on|].
  split; [apply split_on_parts|]. split; [apply split_on_length|].
  intros Hno. apply split_on_without.
  destruct (existsb _ allowed_origins) eqn:He; auto.
  apply existsb_exists in He as (x & Hin & Hx).
  apply N.eqb_eq in Hx. subst. contradiction.
Qed.

Example two_origins :
  allow_origins (lit "http://localhost:3000, https://chat.example.com")
  = [lit "http://localhost:3000"; lit " https://chat.example.com"].
Proof. reflexivity. Qed.

(* ================================================================== *)
(** * Handlers behind the token, and a failing provider *)
(* ================================================================== *)

Section EndToEnd.

Variable env : environment.
Variable svc : OpenRouterService.

(** X22. A token that verifies and resolves to a stored user does not
    open another user's session: each of the four session endpoints,
    called with it for a session of another owner, answers 404 "Chat
    session not found" and leaves the world as it is. *)
Theorem valid_token_does_not_open_foreign_session
  (token e : str) (caller : User) (sid : Z) (msg : ChatMessageCreate)
  (w : world) (s : ChatSession) :
  verify_token env token = Some e ->
  user_of (db w) e = Some caller ->
  session_of (db w) sid = Some s ->
  session_user_id s <> user_id caller ->
  protected env (get_session_messages_route sid) token w
  = (Raise (HTTPException 404 (lit "Chat session not found")), w)
  /\ protected env (send_message env svc sid msg) token w
     = (Raise (HTTPException 404 (lit "Chat session not found")), w)
  /\ protected env (send_message_stream env svc sid msg) token w
     = (Raise (HTTPException 404 (lit "Chat session not found")), w)
  /\ protected env (delete_chat_session sid) token w
     = (Raise (HTTPException 404 (lit "Chat session not found")), w).
Proof.
  intros Hverify Hu Hs Hown.
  assert (Hno : not_owned (session_of (db w) sid) (user_response caller) = true).
  { rewrite Hs. simpl. now apply Z.eqb_neq in Hown as ->. }
  destruct (session_handlers_refuse env svc sid msg (user_response caller) w Hno)
    as (H1 & H2 & H3 & H4).
  unfold protected, get_current_user_dependency, bind.
  rewrite Hverify, !get_user_by_email_run, Hu.
  unfold ret. rewrite H1, H2, H3, H4. repeat split.
Qed.

(** X23. A failing provider does not fail the request: with a key
    configured, when every call of the client raises the same exception,
    the send-message handler still answers a request that passes the check
    with a reply, and stores it as a row of role [bot], whose content is
    the "taking too long" text for a time-out, the "trouble connecting"
    text for another transport error, and the generic text otherwise. *)
Theorem failing_provider_is_answered_with_a_stored_apology
  (e : exn) (sid : Z) (msg : ChatMessageCreate) (u : UserResponse)
  (w : world) (s : ChatSession) :
  api_key svc <> [] ->
  (forall history r, post env history r = Raise e) ->
  session_of (db w) sid = Some s ->
  session_user_id s = ur_id u ->
  exists bot w',
    send_message env svc sid msg u w = (Ok (message_response bot), w')
    /\ In bot (messages (db w'))
    /\ sender_type bot = lit "bot"
    /\ message_session_id bot = sid
    /\ (e = TimeoutException -> content bot = timeout_text)
    /\ ((exists what, e = RequestError what) -> content bot = connection_text)
    /\ (e <> TimeoutException -> (forall what, e <> RequestError what) ->
        content bot = unexpected_error_text).
Proof.
  intros Hkey Hpost Hs Hown.
  pose proof (@owned_session sid u w s Hs Hown) as Hcheck.
  destruct (sending_run env svc sid msg u false w Hcheck)
    as (w1 & w2 & t & w3 & w4 & _ & _ & Hgen & Hbot & Hrun).
  destruct (add_message_to_session_run env sid t (lit "bot") w3)
    as (w4' & Hbot' & Hm4 & _).
  rewrite Hbot in Hbot'. injection Hbot' as <-.
  exists (new_message env sid t (lit "bot") w3), w4.
  split; [exact Hrun|]. split.
  { rewrite Hm4. apply in_or_app. right. left. reflexivity. }
  split; [reflexivity|]. split; [reflexivity|].
  rewrite generate_response_unfold in Hgen by assumption.
  unfold completion_call in Hgen.
  rewrite (@post_raises env svc _ w2 e (Hpost _ _)) in Hgen.
  injection Hgen as <- _. cbn [content new_message].
  split; [|split].
  - intros ->. reflexivity.
  - intros [what ->]. reflexivity.
  - intros Hto Hre. destruct e; try reflexivity; [congruence|].
    exfalso; eapply Hre; reflexivity.
Qed.

End EndToEnd.

Lemma valid_token_does_not_open_foreign_session_witness :
  protected env_hello (get_session_messages_route 7)
            (lit "valid:alice@example.com") world_with_bobs_session
  = (Raise not_found_404, world_with_bobs_session)
  /\ protected env_hello (send_message env_hello demo_service 7 hi_as_bot)
               (lit "valid:alice@example.com") world_with_bobs_session
     = (Raise not_found_404, world_with_bobs_session)
  /\ protected env_hello (send_message_stream env_hello demo_service 7 hi_as_bot)
               (lit "valid:alice@example.com") world_with_bobs_session
     = (Raise not_found_404, world_with_bobs_session)
  /\ protected env_hello (delete_chat_session 7)
               (lit "valid:alice@example.com") world_with_bobs_session
     = (Raise not_found_404, world_with_bobs_session).
Proof.
  refine (@valid_token_does_not_open_foreign_session env_hello demo_service
            (lit "valid:alice@example.com") (lit "alice@example.com") alice
            7%Z hi_as_bot world_with_bobs_session bobs_session
            eq_refl eq_refl eq_refl _).
  discriminate.
Defined.

Lemma failing_provider_is_answered_with_a_stored_apology_witness :
  exists bot w',
    send_message env_timeout demo_service 7 hi_as_bot (user_response bob)
      world_with_bobs_session
    = (Ok (message_response bot), w')
    /\ In bot (messages (db w'))
    /\ sender_type bot = lit "bot"
    /\ content bot = timeout_text.
Proof.
  destruct (@failing_provider_is_answered_with_a_stored_apology env_timeout
              demo_service TimeoutException 7%Z hi_as_bot (user_response bob)
              world_with_bobs_session bobs_session)
    as (bot & w' & Hrun & Hin & Hrole & _ & Hto & _).
  - discriminate.
  - reflexivity.
  - reflexivity.
  - reflexivity.
  - exists bot, w'. auto.
Defined.
